(** * audiodownloader: the link-processing loop, verified over a shallow embedding

    The development follows [src/audiodownloader.py] function by function.

    - Text is [string]; a character is a Unicode code point below 256 (the
      Latin-1 range), so the whitespace and case tables below are Python's
      own restricted to that range.
    - Python's [float] is the kernel's binary64 [float].
    - The program talks to its surroundings (yt-dlp, the file system, the
      logging module) through an environment record [Env]; every answer of
      the environment may depend on everything that happened before, so the
      environment is general and only deterministic.
    - Effects are threaded through a small monad [M]: a computation reads the
      history of events so far and returns either a value or a raised
      exception, together with the events it emitted.
    - Paths follow [posixpath].
    - Values have the types that the default configuration and yt-dlp's
      documentation give them; the title of an info dictionary is text or
      [None], and so is what [download_audio] returns. *)

From Stdlib Require Import PrimFloat ZArith NArith Ascii String List Bool Lia.
From stdpp Require Import base option list.
Import ListNotations.

Local Open Scope string_scope.
Local Open Scope list_scope.

Set Default Proof Using "Type".

(** ** Python string operations *)

Module PyStr.

(** [str.isspace] on one code point below 256. *)
Definition isspace (c : ascii) : bool :=
  let n := N_of_ascii c in
  (((9 <=? n) && (n <=? 13)) || ((28 <=? n) && (n <=? 32))
   || (n =? 133) || (n =? 160))%N.

(** [str.lower] on one code point below 256: A-Z, and the accented capitals
    U+00C0-U+00DE without the multiplication sign U+00D7. *)
Definition lower_char (c : ascii) : ascii :=
  let n := N_of_ascii c in
  if (((65 <=? n) && (n <=? 90))
      || ((192 <=? n) && (n <=? 222) && negb (n =? 215)))%N
  then ascii_of_N (n + 32) else c.

Fixpoint lower (s : string) : string :=
  match s with
  | EmptyString => EmptyString
  | String c t => String (lower_char c) (lower t)
  end.

(** [s.startswith(p)] *)
Definition startswith (p s : string) : bool := String.prefix p s.

(** [s.endswith(suf)] *)
Definition endswith (suf s : string) : bool :=
  let n := String.length s in
  let m := String.length suf in
  if (m <=? n)%nat then String.eqb (String.substring (n - m) m s) suf
  else false.

(** [needle in hay] *)
Fixpoint contains (needle hay : string) : bool :=
  String.prefix needle hay
  || match hay with
     | EmptyString => false
     | String _ t => contains needle t
     end.

Fixpoint lstrip (s : string) : string :=
  match s with
  | EmptyString => EmptyString
  | String c t => if isspace c then lstrip t else s
  end.

Fixpoint rstrip (s : string) : string :=
  match s with
  | EmptyString => EmptyString
  | String c t =>
      let t' := rstrip t in
      if isspace c && String.eqb t' EmptyString then EmptyString
      else String c t'
  end.

(** [s.strip()] *)
Definition strip (s : string) : string := rstrip (lstrip s).

(** [s.rstrip(c)] for a one-character argument. *)
Fixpoint rstrip_char (c : ascii) (s : string) : string :=
  match s with
  | EmptyString => EmptyString
  | String d t =>
      let t' := rstrip_char c t in
      if Ascii.eqb d c && String.eqb t' EmptyString then EmptyString
      else String d t'
  end.

(** [s.split(c)[-1]]: the text after the last [c], the whole of [s] when
    there is none ([split] always returns at least one part). *)
Fixpoint last_part (c : ascii) (s : string) : string :=
  match s with
  | EmptyString => EmptyString
  | String d t =>
      if contains (String c EmptyString) t then last_part c t
      else if Ascii.eqb d c then t
      else s
  end.

(** [s.replace(c, '')] for a one-character [c]. *)
Fixpoint remove_char (c : ascii) (s : string) : string :=
  match s with
  | EmptyString => EmptyString
  | String d t =>
      if Ascii.eqb d c then remove_char c t else String d (remove_char c t)
  end.

(** [''.join(parts)] *)
Definition join (parts : list string) : string := String.concat "" parts.

(** [posixpath.join(a, b)] *)
Definition path_join (a b : string) : string :=
  if startswith "/" b then b
  else if String.eqb a "" || endswith "/" a then a ++ b
  else a ++ "/" ++ b.

(** [posixpath.basename(p)] *)
Definition basename (p : string) : string := last_part "/" p.

End PyStr.

(** ** Settings

    The parsed configuration is a two-level dictionary.  A block or a field
    that the file does not supply is [None]; reading it raises [KeyError], as
    [config['paths']['log_file']] does.  Values that are present have the
    type the default configuration gives them. *)

Record AudioCfg := {
  codec : option string;
  quality : option string;
  sample_rate : option string }.

Record PathsCfg := {
  links_file : option string;
  output_dir : option string;
  log_file : option string }.

Record BehaviorCfg := {
  skip_existing : option bool;
  progress_update_interval : option float;
  quiet_download : option bool }.

Record LoggingCfg := {
  level : option string;
  console_level : option string;
  format : option string;
  date_format : option string }.

Record Config := {
  audio : option AudioCfg;
  paths : option PathsCfg;
  behavior : option BehaviorCfg;
  logging : option LoggingCfg }.

Definition get_default_config : Config :=
  {| audio := Some {| codec := Some "mp3";
                      quality := Some "320";
                      sample_rate := Some "48000" |};
     paths := Some {| links_file := Some "links.txt";
                      output_dir := Some "./audiodownloads";
                      log_file := Some "audiodownloader.log" |};
     behavior := Some {| skip_existing := Some true;
                         progress_update_interval := Some 1%float;
                         quiet_download := Some false |};
     logging := Some {| level := Some "INFO";
                        console_level := Some "INFO";
                        format := Some "%(asctime)s - %(levelname)s - %(message)s";
                        date_format := Some "%Y-%m-%d %H:%M:%S" |} |}.

(** ** Exceptions and results *)

(** The exception classes the program distinguishes; all of them derive from
    [Exception].  [KeyboardInterrupt] and [SystemExit], which do not, are
    outside the model. *)
Inductive Exn :=
| KeyError (key : string)
| JSONDecodeError (msg : string)
| OSError (msg : string)
| FileNotFoundError (msg : string)
| DownloadError (msg : string)
| ExtractorError (msg : string)
| TypeError (msg : string)
| AttributeError (msg : string)
| ValueError (msg : string)
| OtherException (msg : string).

Inductive Result (A : Type) :=
| Ok (a : A)
| Raise (e : Exn).
Arguments Ok {A} a.
Arguments Raise {A} e.

(** [d[key]] on a dictionary entry that may be absent. *)
Definition getitem {A} (key : string) (o : option A) : Result A :=
  match o with
  | Some a => Ok a
  | None => Raise (KeyError key)
  end.

(** [config[block][field]] *)
Definition get2 {B A} (block : string) (pb : Config -> option B)
    (field : string) (pf : B -> option A) (config : Config) : Result A :=
  match getitem block (pb config) with
  | Ok b => getitem field (pf b)
  | Raise e => Raise e
  end.

(** ** What yt-dlp exchanges with the program *)

(** An entry of a dictionary as [dict.get] sees it: the key is absent, or it
    is present and holds [None], or it is present and holds a value. *)
Inductive Field (A : Type) :=
| Absent
| Null
| Val (a : A).
Arguments Absent {A}.
Arguments Null {A}.
Arguments Val {A} a.

(** [d.get(key, default)]: a Python value that is [None] or a value of
    type [A] is an [option A]. *)
Definition dict_get {A} (f : Field A) (default : A) : option A :=
  match f with
  | Absent => Some default
  | Null => None
  | Val a => Some a
  end.

(** [f"{title}"] on a text that may be [None]. *)
Definition str_of (s : option string) : string :=
  match s with
  | Some s => s
  | None => "None"
  end.

(** A non-empty info dictionary of [extract_info], by the keys the program
    reads; the dictionary holds other keys as well.  A title is text or
    [None] (yt-dlp reports [None] for an entry without a title).  For the
    three numbers [None] stands for a key that is absent or holds [None]:
    the program reads them with [get(key, 0)] and only tests the truth of
    the result, which is false in both cases.

    What [extract_info] returns is an [option Metadata]: [None] stands for
    [None] and for the empty dictionary, which the program does not tell
    apart (it tests [if info_dict:] before it reads a key). *)
Record Metadata := {
  md_title : Field string;
  md_duration : option float;
  md_filesize : option float;
  md_filesize_approx : option float }.

(** The dictionary handed to a progress hook. *)
Record ProgressDict := {
  pd_status : string;
  pd_percent_str : option string }.

Record YdlOpts := {
  yo_outtmpl : string;
  yo_quiet : bool;
  yo_preferredcodec : string;
  yo_preferredquality : string;
  yo_sample_rate : string;
  yo_progress_hooks : bool }.

(** ** Events *)

Inductive Level := Info | Warning | Error.

(** One constructor per logging call of the source, with the values its
    message interpolates. *)
Inductive LogMsg :=
| LConfigNotFound (file : string)
| LConfigLoaded (file : string)
| LConfigInvalidJson (file msg : string)
| LConfigLoadError (file : string) (e : Exn)
| LUsingDefault
| LCreatedDir (path : string)
| LDirFailed (path msg : string)
| LDownloadCompleted (url : string)
| LDownloadHookError (url : string)
| LAlreadyExists (path : option string)
| LStarting (url : string)
| LDownloaded (title : string)
| LDuration (seconds : float)
| LFileSize (megabytes : float)
| LNoInfo (url : string)
| LNotFound404 (url : string)
| LForbidden403 (url : string)
| LUnsupportedUrl (url : string)
| LDownloadError (url msg : string)
| LExtractorError (url msg : string)
| LUnexpectedError (url : string) (e : Exn)
| LStarted
| LConfigFile (file : string)
| LLinksFile (file : string)
| LOutputDir (dir : string)
| LSkipExisting (b : bool)
| LAudioFormat (codec quality sample_rate : string)
| LCannotProceed
| LSingleUrl (url : string)
| LFoundLines (n : nat) (file : string)
| LLinksNotFound (file : string)
| LLinksReadError (file : string) (e : Exn)
| LProcessing (n : nat) (url : string)
| LUpdateFailed (e : Exn)
| LSummary
| LTotal (n : nat)
| LSuccessful (n : nat)
| LSkippedExisting (n : nat)
| LErrors (n : nat)
| LFinished.

(** What the run does to the outside, in order.  [EvRewrite] is the one
    event that is not an external effect: it records the assignment
    [lines[i] = ...] of the main loop. *)
Inductive Event :=
| EvLog (lvl : Level) (msg : LogMsg)
| EvPrintProgress (percent : float)
| EvLoggingConfigured (file lvl console fmt datefmt : string)
| EvMakedirs (path : string)
| EvReadLinks (path : string)
| EvProbe (url : string)
| EvWalk (dir : string)
| EvFetch (url : string)
| EvRewrite (i : nat) (line : string)
| EvWriteLinks (path content : string) (err : option string).

Definition Trace := list Event.

(** ** The environment *)

Inductive ConfigFile :=
| CfMissing
| CfUnreadable (msg : string)
| CfInvalidJson (msg : string)
| CfJson (c : Config).

Inductive LinksRead :=
| LrNotFound
| LrError (msg : string)
| LrLines (lines : list string).

Record Env := {
  (** the builtin [float(s)]; [None] is [ValueError] *)
  py_float : string -> option float;
  (** [os.path.exists], [open] and [json.load] on the config file *)
  config_file : string -> ConfigFile;
  (** [logger.setLevel(min(log_level, console_level))] for the two level
      names of the configuration: the exception it raises, if any (a name
      such as [basic_format] resolves to an attribute of [logging] that is
      no level) *)
  set_level_error : string -> string -> option Exn;
  (** [logging.FileHandler(log_file)]: the exception it raises, if any *)
  log_open_error : string -> option Exn;
  (** [logging.Formatter(format, date_format)]: the exception it raises, if
      any (a format that names no field is refused) *)
  formatter_error : string -> string -> option Exn;
  (** [os.path.exists] on the output directory *)
  path_exists : string -> bool;
  (** [os.makedirs]: the error it raises, if any *)
  makedirs_error : string -> option string;
  (** [open(links_file).readlines()] *)
  links_read : string -> LinksRead;
  (** [extract_info(url, download=False)]; [Ok None] is a result that is
      false as a condition: [None] or the empty dictionary *)
  probe : Trace -> YdlOpts -> string -> Result (option Metadata);
  (** [extract_info(url, download=True)]: the dictionaries passed to the
      progress hook, then the result, read as for [probe] *)
  fetch : Trace -> YdlOpts -> string -> list ProgressDict * Result (option Metadata);
  (** [os.walk(dir)]: for each directory its path and its files *)
  walk : Trace -> string -> list (string * list string);
  (** writing the links file: the error raised, if any *)
  write_error : Trace -> string -> string -> option string }.

(** ** The effect monad *)

Definition M (A : Type) : Type := Trace -> Result A * list Event.

Definition ret {A} (a : A) : M A := fun _ => (Ok a, []).

Definition bind {A B} (m : M A) (f : A -> M B) : M B :=
  fun h =>
    match m h with
    | (Ok a, e1) => let '(r, e2) := f a (h ++ e1) in (r, e1 ++ e2)
    | (Raise x, e1) => (Raise x, e1)
    end.

Definition raise {A} (x : Exn) : M A := fun _ => (Raise x, []).

Definition lift {A} (r : Result A) : M A := fun _ => (r, []).

Definition emit (e : Event) : M unit := fun _ => (Ok tt, [e]).

Definition log (lvl : Level) (msg : LogMsg) : M unit := emit (EvLog lvl msg).

(** [try: m  except Exception as e: handler e] *)
Definition try_catch {A} (m : M A) (handler : Exn -> M A) : M A :=
  fun h =>
    match m h with
    | (Ok a, e1) => (Ok a, e1)
    | (Raise x, e1) => let '(r, e2) := handler x (h ++ e1) in (r, e1 ++ e2)
    end.

Declare Scope py_scope.
Delimit Scope py_scope with py.
Notation "x <- m ;; k" := (bind m (fun x => k))
  (at level 100, m at next level, right associativity) : py_scope.
Notation "m ;; k" := (bind m (fun _ => k))
  (at level 100, right associativity) : py_scope.
Local Open Scope py_scope.

(** [for x in xs: s = body x s] *)
Fixpoint for_each {A S} (body : A -> S -> M S) (xs : list A) (s : S) : M S :=
  match xs with
  | [] => ret s
  | x :: xs' => s' <- body x s ;; for_each body xs' s'
  end.

(** ** The program *)

Definition nl : string := String (ascii_of_nat 10) EmptyString.

(** Truth value of a float ([if duration:]): zero is false, NaN is true. *)
Definition truthy_float (x : float) : bool := negb (PrimFloat.eqb x 0%float).

(** Truth value of an optional command-line string ([if args.url:]). *)
Definition truthy_arg (a : option string) : bool :=
  match a with
  | Some s => negb (String.eqb s "")
  | None => false
  end.

Record Args := {
  a_config : string;
  a_links : option string;
  a_output : option string;
  a_skip_existing : bool;
  a_url : option string }.

Record DownloadProgress := {
  dp_url : string;
  last_progress : float;
  update_interval : float }.

Record Stats := {
  processed_count : nat;
  success_count : nat;
  error_count : nat;
  skipped_count : nat }.

Record LoopState := {
  ls_lines : list string;
  ls_stats : Stats }.

Definition error_titles : list string :=
  ["DOWNLOAD ERROR"; "EXTRACTOR ERROR"; "UNEXPECTED ERROR"; "NO INFO EXTRACTED"].

(** The filter at the head of the main loop, on the stripped line: [true]
    means [continue]. *)
Definition skip_line (url : string) : bool :=
  String.eqb url ""
  || PyStr.startswith "#" url
  || negb (PyStr.startswith "https://" url || PyStr.startswith "http://" url).

(** The test [check_file_exists] applies to one file name: it ends with
    [.ext] and contains [title], case ignored. *)
Definition file_matches (title ext file : string) : bool :=
  PyStr.endswith ("." ++ ext)%string file
  && PyStr.contains (PyStr.lower title) (PyStr.lower file).

(** The two nested loops over [os.walk]: the path of the first file that
    passes the test, directories in the order of the walk. *)
Fixpoint scan_tree (title ext : string) (tree : list (string * list string))
    : option string :=
  match tree with
  | [] => None
  | (root, files) :: rest =>
      match List.find (file_matches title ext) files with
      | Some file => Some (PyStr.path_join root file)
      | None => scan_tree title ext rest
      end
  end.

Section Program.

Variable env : Env.

Definition load_config (file : string) : M Config :=
  try_catch
    (match config_file env file with
     | CfMissing =>
         log Warning (LConfigNotFound file) ;; ret get_default_config
     | CfUnreadable msg => raise (OSError msg)
     | CfInvalidJson msg => raise (JSONDecodeError msg)
     | CfJson config => log Info (LConfigLoaded file) ;; ret config
     end)
    (fun e =>
       match e with
       | JSONDecodeError msg =>
           log Error (LConfigInvalidJson file msg) ;;
           log Info LUsingDefault ;;
           ret get_default_config
       | _ =>
           log Error (LConfigLoadError file e) ;;
           log Info LUsingDefault ;;
           ret get_default_config
       end).

(** The two handlers are in place, and [EvLoggingConfigured] is emitted,
    only when every step went through.  A log file that was opened before
    the formatter was refused is left as it was: nothing is written to
    it. *)
Definition setup_logging (config : Config) : M unit :=
  file <- lift (get2 "paths" paths "log_file" log_file config) ;;
  lvl <- lift (get2 "logging" logging "level" level config) ;;
  console <- lift (get2 "logging" logging "console_level" console_level config) ;;
  match set_level_error env lvl console with
  | Some e => raise e
  | None =>
      match log_open_error env file with
      | Some e => raise e
      | None =>
          fmt <- lift (get2 "logging" logging "format" format config) ;;
          datefmt <- lift (get2 "logging" logging "date_format" date_format
                             config) ;;
          match formatter_error env fmt datefmt with
          | Some e => raise e
          | None => emit (EvLoggingConfigured file lvl console fmt datefmt)
          end
      end
  end.

Definition ensure_output_directory (path : string) : M bool :=
  if path_exists env path then ret true
  else
    match makedirs_error env path with
    | None =>
        emit (EvMakedirs path) ;; log Info (LCreatedDir path) ;; ret true
    | Some msg => log Error (LDirFailed path msg) ;; ret false
    end.

Definition create_ydl_opts (config : Config) : M YdlOpts :=
  dir <- lift (get2 "paths" paths "output_dir" output_dir config) ;;
  quiet <- lift (get2 "behavior" behavior "quiet_download" quiet_download config) ;;
  c <- lift (get2 "audio" audio "codec" codec config) ;;
  q <- lift (get2 "audio" audio "quality" quality config) ;;
  sr <- lift (get2 "audio" audio "sample_rate" sample_rate config) ;;
  ret {| yo_outtmpl := PyStr.path_join dir "%(title)s.%(ext)s";
         yo_quiet := quiet;
         yo_preferredcodec := c;
         yo_preferredquality := q;
         yo_sample_rate := sr;
         yo_progress_hooks := false |}.

(** [DownloadProgress.__init__] *)
Definition DownloadProgress_init (url : string) (config : Config)
    : M DownloadProgress :=
  interval <- lift (get2 "behavior" behavior "progress_update_interval"
                      progress_update_interval config) ;;
  ret {| dp_url := url; last_progress := 0%float; update_interval := interval |}.

(** [DownloadProgress.progress_hook]; the object's state is passed in and
    returned. *)
Definition progress_hook (self : DownloadProgress) (d : ProgressDict)
    : M DownloadProgress :=
  if String.eqb (pd_status d) "downloading" then
    match py_float env (PyStr.remove_char "%" (default "0%" (pd_percent_str d))) with
    | Some progress =>
        if PrimFloat.leb (update_interval self)
             (PrimFloat.sub progress (last_progress self))
        then
          emit (EvPrintProgress progress) ;;
          ret {| dp_url := dp_url self;
                 last_progress := progress;
                 update_interval := update_interval self |}
        else ret self
    | None => ret self
    end
  else if String.eqb (pd_status d) "finished" then
    log Info (LDownloadCompleted (dp_url self)) ;; ret self
  else if String.eqb (pd_status d) "error" then
    log Error (LDownloadHookError (dp_url self)) ;; ret self
  else ret self.

Definition os_walk (dir : string) : M (list (string * list string)) :=
  fun h => (Ok (walk env h dir), [EvWalk dir]).

Definition check_file_exists (url : string) (info_dict : option Metadata)
    (config : Config) : M (bool * option string) :=
  enabled <- lift (get2 "behavior" behavior "skip_existing" skip_existing config) ;;
  if negb enabled then ret (false, None)
  else
    found <-
      match info_dict with
      | Some info =>
          match dict_get (md_title info) "" with
          | Some title =>
              if negb (String.eqb title "") then
                dir <- lift (get2 "paths" paths "output_dir" output_dir config) ;;
                ext <- lift (get2 "audio" audio "codec" codec config) ;;
                tree <- os_walk dir ;;
                ret (scan_tree title ext tree)
              else ret None
          | None => ret None
          end
      | None => ret None
      end ;;
    match found with
    | Some path => ret (true, Some path)
    | None =>
        let potential_title := PyStr.last_part "/" (PyStr.rstrip_char "/" url) in
        dir <- lift (get2 "paths" paths "output_dir" output_dir config) ;;
        ext <- lift (get2 "audio" audio "codec" codec config) ;;
        tree <- os_walk dir ;;
        match scan_tree potential_title ext tree with
        | Some path => ret (true, Some path)
        | None => ret (false, None)
        end
    end.

Definition extract_info_probe (opts : YdlOpts) (url : string)
    : M (option Metadata) :=
  fun h => (probe env h opts url, [EvProbe url]).

(** The calls yt-dlp makes to the progress hook during one download. *)
Definition run_hooks (dicts : list ProgressDict) (handler : DownloadProgress)
    : M DownloadProgress :=
  for_each (fun d self => progress_hook self d) dicts handler.

Definition extract_info_download (opts : YdlOpts) (url : string)
    (handler : DownloadProgress) : M (option Metadata) :=
  fun h =>
    let '(dicts, r) := fetch env h opts url in
    (emit (EvFetch url) ;; run_hooks dicts handler ;; lift r) h.

Definition set_quiet (opts : YdlOpts) : YdlOpts :=
  {| yo_outtmpl := yo_outtmpl opts;
     yo_quiet := true;
     yo_preferredcodec := yo_preferredcodec opts;
     yo_preferredquality := yo_preferredquality opts;
     yo_sample_rate := yo_sample_rate opts;
     yo_progress_hooks := yo_progress_hooks opts |}.

Definition set_progress_hooks (opts : YdlOpts) : YdlOpts :=
  {| yo_outtmpl := yo_outtmpl opts;
     yo_quiet := yo_quiet opts;
     yo_preferredcodec := yo_preferredcodec opts;
     yo_preferredquality := yo_preferredquality opts;
     yo_sample_rate := yo_sample_rate opts;
     yo_progress_hooks := true |}.

(** The logging call chosen in the [except DownloadError] branch. *)
Definition download_error_log (url error_msg : string) : LogMsg :=
  if PyStr.contains "HTTP Error 404" error_msg then LNotFound404 url
  else if PyStr.contains "HTTP Error 403" error_msg then LForbidden403 url
  else if PyStr.contains "Unsupported URL" error_msg then LUnsupportedUrl url
  else LDownloadError url error_msg.

(** The [try] block of [download_audio].  What it returns is text, or
    [None] when the info dictionary holds [None] under [title]. *)
Definition download_audio_body (url : string) (config : Config)
    : M (option string) :=
  ydl_opts <- create_ydl_opts config ;;
  early <-
    try_catch
      (info_dict <- extract_info_probe (set_quiet ydl_opts) url ;;
       match info_dict with
       | Some _ =>
           r <- check_file_exists url info_dict config ;;
           match r with
           | (true, existing_file) =>
               log Info (LAlreadyExists existing_file) ;;
               match existing_file with
               | Some path =>
                   ret (Some ("SKIPPED (exists: "
                              ++ PyStr.basename path ++ ")")%string)
               | None => raise (TypeError "basename")
               end
           | (false, _) => ret None
           end
       | None => ret None
       end)
      (fun _ => ret None) ;;
  match early with
  | Some title => ret (Some title)
  | None =>
      progress_handler <- DownloadProgress_init url config ;;
      log Info (LStarting url) ;;
      info_dict <- extract_info_download (set_progress_hooks ydl_opts) url
                     progress_handler ;;
      match info_dict with
      | Some info =>
          let title := dict_get (md_title info) "Unknown Title" in
          let duration := default 0%float (md_duration info) in
          let filesize :=
            if truthy_float (default 0%float (md_filesize info))
            then default 0%float (md_filesize info)
            else default 0%float (md_filesize_approx info) in
          log Info (LDownloaded (str_of title)) ;;
          (if truthy_float duration then log Info (LDuration duration)
           else ret tt) ;;
          (if truthy_float filesize
           then log Info (LFileSize (PrimFloat.div filesize 1048576%float))
           else ret tt) ;;
          ret title
      | None => log Error (LNoInfo url) ;; ret (Some "NO INFO EXTRACTED")
      end
  end.

(** The three [except] clauses of [download_audio]. *)
Definition download_audio_except (url : string) (e : Exn)
    : M (option string) :=
  match e with
  | DownloadError error_msg =>
      log Error (download_error_log url error_msg) ;;
      ret (Some "DOWNLOAD ERROR")
  | ExtractorError msg =>
      log Error (LExtractorError url msg) ;; ret (Some "EXTRACTOR ERROR")
  | _ => log Error (LUnexpectedError url e) ;; ret (Some "UNEXPECTED ERROR")
  end.

Definition download_audio (url : string) (config : Config)
    : M (option string) :=
  try_catch (download_audio_body url config) (download_audio_except url).

End Program.

(** The text that replaces a processed line. *)
Definition annotate (url summary : string) : string :=
  ("# " ++ url ++ " # " ++ summary ++ nl)%string.

(** The [if]/[elif]/[else] of the main loop on the returned title: the new
    counters and the new text of the line. *)
Definition record_outcome (url title : string) (s : Stats) : Stats * string :=
  if PyStr.startswith "SKIPPED" title then
    ({| processed_count := processed_count s;
        success_count := success_count s;
        error_count := error_count s;
        skipped_count := S (skipped_count s) |},
     annotate url title)
  else if negb (existsb (String.eqb title) error_titles) then
    ({| processed_count := processed_count s;
        success_count := S (success_count s);
        error_count := error_count s;
        skipped_count := skipped_count s |},
     annotate url title)
  else
    ({| processed_count := processed_count s;
        success_count := success_count s;
        error_count := S (error_count s);
        skipped_count := skipped_count s |},
     annotate url ("ERROR: " ++ title)%string).

(** [processed_count += 1] *)
Definition counted (s : Stats) : Stats :=
  {| processed_count := S (processed_count s);
     success_count := success_count s;
     error_count := error_count s;
     skipped_count := skipped_count s |}.

Definition zero_stats : Stats :=
  {| processed_count := 0; success_count := 0; error_count := 0; skipped_count := 0 |}.

Section Main.

Variable env : Env.

(** [config['paths']['links_file'] = v] *)
Definition set_links_file (v : string) (config : Config) : M Config :=
  p <- lift (getitem "paths" (paths config)) ;;
  ret {| audio := audio config;
         paths := Some {| links_file := Some v;
                          output_dir := output_dir p;
                          log_file := log_file p |};
         behavior := behavior config;
         logging := logging config |}.

(** [config['paths']['output_dir'] = v] *)
Definition set_output_dir (v : string) (config : Config) : M Config :=
  p <- lift (getitem "paths" (paths config)) ;;
  ret {| audio := audio config;
         paths := Some {| links_file := links_file p;
                          output_dir := Some v;
                          log_file := log_file p |};
         behavior := behavior config;
         logging := logging config |}.

(** [config['behavior']['skip_existing'] = True] *)
Definition set_skip_existing (config : Config) : M Config :=
  b <- lift (getitem "behavior" (behavior config)) ;;
  ret {| audio := audio config;
         paths := paths config;
         behavior := Some {| skip_existing := Some true;
                             progress_update_interval := progress_update_interval b;
                             quiet_download := quiet_download b |};
         logging := logging config |}.

Definition apply_overrides (args : Args) (config : Config) : M Config :=
  config <- (if truthy_arg (a_links args)
             then set_links_file (default "" (a_links args)) config
             else ret config) ;;
  config <- (if truthy_arg (a_output args)
             then set_output_dir (default "" (a_output args)) config
             else ret config) ;;
  if a_skip_existing args then set_skip_existing config else ret config.

Definition read_links (path : string) : M (list string) :=
  fun h =>
    match links_read env path with
    | LrNotFound => (Raise (FileNotFoundError path), [EvReadLinks path])
    | LrError msg => (Raise (OSError msg), [EvReadLinks path])
    | LrLines lines => (Ok lines, [EvReadLinks path])
    end.

Definition write_links (path content : string) : M unit :=
  fun h =>
    match write_error env h path content with
    | None => (Ok tt, [EvWriteLinks path content None])
    | Some msg => (Raise (OSError msg), [EvWriteLinks path content (Some msg)])
    end.

(** Lines 246-292 of [main]: everything before the loop.  [None] is the
    early [return] after a fatal condition. *)
Definition startup (args : Args) : M (option (Config * list string)) :=
  config <- load_config env (a_config args) ;;
  config <- apply_overrides args config ;;
  setup_logging env config ;;
  log Info LStarted ;;
  log Info (LConfigFile (a_config args)) ;;
  lf <- lift (get2 "paths" paths "links_file" links_file config) ;;
  log Info (LLinksFile lf) ;;
  dir <- lift (get2 "paths" paths "output_dir" output_dir config) ;;
  log Info (LOutputDir dir) ;;
  se <- lift (get2 "behavior" behavior "skip_existing" skip_existing config) ;;
  log Info (LSkipExisting se) ;;
  c <- lift (get2 "audio" audio "codec" codec config) ;;
  q <- lift (get2 "audio" audio "quality" quality config) ;;
  sr <- lift (get2 "audio" audio "sample_rate" sample_rate config) ;;
  log Info (LAudioFormat c q sr) ;;
  dir <- lift (get2 "paths" paths "output_dir" output_dir config) ;;
  ok <- ensure_output_directory env dir ;;
  if negb ok then log Error LCannotProceed ;; ret None
  else if truthy_arg (a_url args) then
    log Info (LSingleUrl (default "" (a_url args))) ;;
    ret (Some (config, [default "" (a_url args)]))
  else
    try_catch
      (path <- lift (get2 "paths" paths "links_file" links_file config) ;;
       lines <- read_links path ;;
       path' <- lift (get2 "paths" paths "links_file" links_file config) ;;
       log Info (LFoundLines (length lines) path') ;;
       ret (Some (config, lines)))
      (fun e =>
         path <- lift (get2 "paths" paths "links_file" links_file config) ;;
         match e with
         | FileNotFoundError _ => log Error (LLinksNotFound path) ;; ret None
         | _ => log Error (LLinksReadError path e) ;; ret None
         end).

(** Lines 322-326: the whole list is written back; a failure is logged
    and the loop goes on. *)
Definition update_links_file (config : Config) (lines : list string)
    : M unit :=
  try_catch
    (path <- lift (get2 "paths" paths "links_file" links_file config) ;;
     write_links path (PyStr.join lines))
    (fun e => log Error (LUpdateFailed e)).

(** The message of the [AttributeError] that [title.startswith] raises when
    [download_audio] returned [None]. *)
Definition no_startswith : string :=
  "'NoneType' object has no attribute 'startswith'".

(** One turn of [for i, url in enumerate(lines)].  The title that
    [download_audio] returned is tested with [title.startswith], outside
    every [try]. *)
Definition loop_body (config : Config) (single : bool) (i : nat)
    (st : LoopState) : M LoopState :=
  match ls_lines st !! i with
  | None => ret st
  | Some raw =>
      let url := PyStr.strip raw in
      if skip_line url then ret st
      else
        let stats1 := counted (ls_stats st) in
        log Info (LProcessing (processed_count stats1) url) ;;
        title <- download_audio env url config ;;
        match title with
        | None => raise (AttributeError no_startswith)
        | Some title =>
            let '(stats', line) := record_outcome url title stats1 in
            let lines' := <[i := line]> (ls_lines st) in
            emit (EvRewrite i line) ;;
            (if single then ret tt else update_links_file config lines') ;;
            ret {| ls_lines := lines'; ls_stats := stats' |}
        end
  end.

(** Lines 294-326: the loop.  The list keeps its length, so the indices
    [enumerate] yields are those of the list as read. *)
Definition process_lines (config : Config) (single : bool)
    (lines : list string) : M LoopState :=
  for_each (loop_body config single) (seq 0 (length lines))
    {| ls_lines := lines; ls_stats := zero_stats |}.

Definition main (args : Args) : M unit :=
  r <- startup args ;;
  match r with
  | None => ret tt
  | Some (config, lines) =>
      st <- process_lines config (truthy_arg (a_url args)) lines ;;
      log Info LSummary ;;
      log Info (LTotal (processed_count (ls_stats st))) ;;
      log Info (LSuccessful (success_count (ls_stats st))) ;;
      log Info (LSkippedExisting (skipped_count (ls_stats st))) ;;
      log Info (LErrors (error_count (ls_stats st))) ;;
      log Info LFinished
  end.

End Main.

(** ** Vocabulary of the statements *)

(** [m] emits only events that satisfy [P], whatever the history. *)
Definition emits_only {A} (P : Event -> Prop) (m : M A) : Prop :=
  forall h, Forall P (snd (m h)).

(** [m] returns normally, whatever the history. *)
Definition no_raise {A} (m : M A) : Prop :=
  forall h, exists a, fst (m h) = Ok a.

(** Every value [m] can return satisfies [Q]. *)
Definition returns_only {A} (Q : A -> Prop) (m : M A) : Prop :=
  forall h a, fst (m h) = Ok a -> Q a.

(** [m] returns normally with a value that satisfies [Q], whatever the
    history. *)
Definition total {A} (Q : A -> Prop) (m : M A) : Prop :=
  forall h, exists a evs, m h = (Ok a, evs) /\ Q a.

(** No download reports [None] as the title. *)
Definition titled (env : Env) : Prop :=
  forall h opts url dicts info,
    fetch env h opts url = (dicts, Ok (Some info)) -> md_title info <> Null.

(** A line of the links file that the loop processes. *)
Definition eligible (raw : string) : bool := negb (skip_line (PyStr.strip raw)).

(** How many lines the loop processes. *)
Definition count_eligible (lines : list string) : nat :=
  length (List.filter eligible lines).

Definition is_rewrite_at (i : nat) (e : Event) : bool :=
  match e with
  | EvRewrite j _ => Nat.eqb i j
  | _ => false
  end.

(** How many times [lines[i]] was assigned. *)
Definition rewrites_at (i : nat) (evs : list Event) : nat :=
  length (List.filter (is_rewrite_at i) evs).

(** The contents handed to the links file, in order, failed attempts
    included. *)
Fixpoint write_attempts (evs : list Event) : list string :=
  match evs with
  | [] => []
  | EvWriteLinks _ content _ :: rest => content :: write_attempts rest
  | _ :: rest => write_attempts rest
  end.

(** Whether a turn of the loop attempts to write the links file: not in
    single-URL mode, and only when the configuration names the file. *)
Definition writes_back (single : bool) (config : Config) : bool :=
  if single then false
  else match get2 "paths" paths "links_file" links_file config with
       | Ok _ => true
       | Raise _ => false
       end.

(** The events [download_audio] can emit. *)
Definition download_event (e : Event) : Prop :=
  match e with
  | EvLog _ _ | EvPrintProgress _ | EvProbe _ | EvWalk _ | EvFetch _ => True
  | _ => False
  end.

Definition is_log (e : Event) : Prop :=
  match e with
  | EvLog _ _ => True
  | _ => False
  end.

Definition is_fetch (e : Event) : Prop :=
  match e with
  | EvFetch _ => True
  | _ => False
  end.

Definition not_links_file_event (e : Event) : Prop :=
  match e with
  | EvReadLinks _ | EvWriteLinks _ _ _ => False
  | _ => True
  end.

(** The events of a run that processes no entry: log records, the logging
    setup and the creation of the output directory. *)
Definition housekeeping_event (e : Event) : Prop :=
  match e with
  | EvLog _ _ | EvLoggingConfigured _ _ _ _ _ | EvMakedirs _ => True
  | _ => False
  end.

(** The summary that ends a complete run. *)
Definition summary_events (s : Stats) : list Event :=
  [EvLog Info LSummary;
   EvLog Info (LTotal (processed_count s));
   EvLog Info (LSuccessful (success_count s));
   EvLog Info (LSkippedExisting (skipped_count s));
   EvLog Info (LErrors (error_count s));
   EvLog Info LFinished].

(** A configuration that supplies every field, with the log file and the
    logging block of the default configuration: what the command-line
    overrides can make of the defaults. *)
Definition complete (config : Config) : Prop :=
  exists c q sr lf od se pui qd,
    config
    = {| audio := Some {| codec := Some c; quality := Some q;
                          sample_rate := Some sr |};
         paths := Some {| links_file := Some lf; output_dir := Some od;
                          log_file := Some "audiodownloader.log" |};
         behavior := Some {| skip_existing := Some se;
                             progress_update_interval := Some pui;
                             quiet_download := Some qd |};
         logging := logging get_default_config |}.

(** The logging module accepts the settings of the default configuration
    and opens its log file. *)
Definition default_logging_works (env : Env) : Prop :=
  set_level_error env "INFO" "INFO" = None
  /\ log_open_error env "audiodownloader.log" = None
  /\ formatter_error env "%(asctime)s - %(levelname)s - %(message)s"
       "%Y-%m-%d %H:%M:%S" = None.

(** The config file cannot be used: it is missing, unreadable or not valid
    JSON. *)
Definition unusable (state : ConfigFile) : Prop :=
  match state with
  | CfJson _ => False
  | _ => True
  end.

(** [file], listed in the directory [root], is the first file of the walk
    [tree] that passes the test of the detector: no file of a directory
    that comes earlier in the walk passes it, and no file listed before
    [file] in [root] does. *)
Definition first_match (title ext : string)
    (tree : list (string * list string)) (root file : string) : Prop :=
  exists before files after earlier later,
    tree = before ++ (root, files) :: after
    /\ files = earlier ++ file :: later
    /\ file_matches title ext file = true
    /\ Forall (fun f => file_matches title ext f = false) earlier
    /\ Forall (fun d => Forall (fun f => file_matches title ext f = false)
                          (snd d)) before.

(** ** Sample environments and inputs

    Concrete surroundings on which the statements below are evaluated. *)

Definition sample_metadata (title : string) : Metadata :=
  {| md_title := Val title;
     md_duration := None;
     md_filesize := None;
     md_filesize_approx := None |}.

(** An info dictionary that holds [None] under [title], as yt-dlp returns
    for an entry without a title. *)
Definition untitled_metadata : Metadata :=
  {| md_title := Null;
     md_duration := None;
     md_filesize := None;
     md_filesize_approx := None |}.

(** No config file, an output directory that exists, and a site that
    knows nothing: the probe finds no metadata and the download returns no
    info. *)
Definition offline_env : Env :=
  {| py_float := fun _ => None;
     config_file := fun _ => CfMissing;
     set_level_error := fun _ _ => None;
     log_open_error := fun _ => None;
     formatter_error := fun _ _ => None;
     path_exists := fun _ => true;
     makedirs_error := fun _ => None;
     links_read := fun _ => LrNotFound;
     probe := fun _ _ _ => Ok None;
     fetch := fun _ _ _ => ([], Ok None);
     walk := fun _ _ => [];
     write_error := fun _ _ _ => None |}.

(** [offline_env] with a links file of the given lines. *)
Definition env_with_links (lines : list string) : Env :=
  {| py_float := py_float offline_env;
     config_file := config_file offline_env;
     set_level_error := set_level_error offline_env;
     log_open_error := log_open_error offline_env;
     formatter_error := formatter_error offline_env;
     path_exists := path_exists offline_env;
     makedirs_error := makedirs_error offline_env;
     links_read := fun _ => LrLines lines;
     probe := probe offline_env;
     fetch := fetch offline_env;
     walk := walk offline_env;
     write_error := write_error offline_env |}.

(** [offline_env] where every download ends as [outcome]. *)
Definition env_with_fetch (outcome : Result (option Metadata)) : Env :=
  {| py_float := py_float offline_env;
     config_file := config_file offline_env;
     set_level_error := set_level_error offline_env;
     log_open_error := log_open_error offline_env;
     formatter_error := formatter_error offline_env;
     path_exists := path_exists offline_env;
     makedirs_error := makedirs_error offline_env;
     links_read := links_read offline_env;
     probe := probe offline_env;
     fetch := fun _ _ _ => ([], outcome);
     walk := walk offline_env;
     write_error := write_error offline_env |}.

(** [offline_env] where the download of [bad_url] fails with the given
    message and every other download succeeds with the title ["Second"]. *)
Definition flaky_env (bad_url msg : string) : Env :=
  {| py_float := py_float offline_env;
     config_file := config_file offline_env;
     set_level_error := set_level_error offline_env;
     log_open_error := log_open_error offline_env;
     formatter_error := formatter_error offline_env;
     path_exists := path_exists offline_env;
     makedirs_error := makedirs_error offline_env;
     links_read := links_read offline_env;
     probe := probe offline_env;
     fetch := fun _ _ url =>
                if String.eqb url bad_url
                then ([], Raise (DownloadError msg))
                else ([], Ok (Some (sample_metadata "Second")));
     walk := walk offline_env;
     write_error := write_error offline_env |}.

(** [offline_env] with an output directory tree as [os.walk] lists it and a
    site whose probe reports the title ["My Song"]. *)
Definition song_env_with (tree : list (string * list string)) : Env :=
  {| py_float := py_float offline_env;
     config_file := config_file offline_env;
     set_level_error := set_level_error offline_env;
     log_open_error := log_open_error offline_env;
     formatter_error := formatter_error offline_env;
     path_exists := path_exists offline_env;
     makedirs_error := makedirs_error offline_env;
     links_read := links_read offline_env;
     probe := fun _ _ _ => Ok (Some (sample_metadata "My Song"));
     fetch := fetch offline_env;
     walk := fun _ _ => tree;
     write_error := write_error offline_env |}.

(** The song is in the output directory itself. *)
Definition song_env : Env :=
  song_env_with [("./audiodownloads", ["notes.txt"; "My Song.mp3"])].

(** The song is in a subdirectory. *)
Definition song_env_live : Env :=
  song_env_with [("./audiodownloads", ["notes.txt"]);
                 ("./audiodownloads/live", ["My Song.mp3"])].

(** [offline_env] with a config file that parses to [config]. *)
Definition env_with_config (config : Config) : Env :=
  {| py_float := py_float offline_env;
     config_file := fun _ => CfJson config;
     set_level_error := set_level_error offline_env;
     log_open_error := log_open_error offline_env;
     formatter_error := formatter_error offline_env;
     path_exists := path_exists offline_env;
     makedirs_error := makedirs_error offline_env;
     links_read := links_read offline_env;
     probe := probe offline_env;
     fetch := fetch offline_env;
     walk := walk offline_env;
     write_error := write_error offline_env |}.

(** [offline_env] with a config file in the given state. *)
Definition env_with_config_file (state : ConfigFile) : Env :=
  {| py_float := py_float offline_env;
     config_file := fun _ => state;
     set_level_error := set_level_error offline_env;
     log_open_error := log_open_error offline_env;
     formatter_error := formatter_error offline_env;
     path_exists := path_exists offline_env;
     makedirs_error := makedirs_error offline_env;
     links_read := links_read offline_env;
     probe := probe offline_env;
     fetch := fetch offline_env;
     walk := walk offline_env;
     write_error := write_error offline_env |}.

(** A reading of unsigned decimal numerals, exact below 2^53: what [float]
    returns on such text. *)
Definition digit_value (c : ascii) : option float :=
  if Ascii.eqb c "0" then Some 0%float
  else if Ascii.eqb c "1" then Some 1%float
  else if Ascii.eqb c "2" then Some 2%float
  else if Ascii.eqb c "3" then Some 3%float
  else if Ascii.eqb c "4" then Some 4%float
  else if Ascii.eqb c "5" then Some 5%float
  else if Ascii.eqb c "6" then Some 6%float
  else if Ascii.eqb c "7" then Some 7%float
  else if Ascii.eqb c "8" then Some 8%float
  else if Ascii.eqb c "9" then Some 9%float
  else None.

Fixpoint digits_value (s : string) (acc : float) : option float :=
  match s with
  | EmptyString => Some acc
  | String c t =>
      match digit_value c with
      | Some d => digits_value t (PrimFloat.add (PrimFloat.mul acc 10%float) d)
      | None => None
      end
  end.

Definition float_of_digits (s : string) : option float :=
  match s with
  | EmptyString => None
  | _ => digits_value s 0%float
  end.

(** [offline_env] with [float_of_digits] for [float]. *)
Definition env_with_float : Env :=
  {| py_float := float_of_digits;
     config_file := config_file offline_env;
     set_level_error := set_level_error offline_env;
     log_open_error := log_open_error offline_env;
     formatter_error := formatter_error offline_env;
     path_exists := path_exists offline_env;
     makedirs_error := makedirs_error offline_env;
     links_read := links_read offline_env;
     probe := probe offline_env;
     fetch := fetch offline_env;
     walk := walk offline_env;
     write_error := write_error offline_env |}.

(** A links file with one URL, and a command line whose [--url] is the
    empty string. *)
Definition one_url_env : Env := env_with_links [("https://example.com/a" ++ nl)%string].

Definition default_args : Args :=
  {| a_config := "config.json";
     a_links := None;
     a_output := None;
     a_skip_existing := false;
     a_url := None |}.

Definition single_url_args (url : string) : Args :=
  {| a_config := "config.json";
     a_links := None;
     a_output := None;
     a_skip_existing := false;
     a_url := Some url |}.

Definition empty_url_args : Args := single_url_args "".

(** A links file as a first run leaves it. *)
Definition annotated_lines : list string :=
  [annotate "https://example.com/a" "First Song";
   annotate "https://example.com/b" "ERROR: DOWNLOAD ERROR";
   annotate "https://example.com/c" "SKIPPED (exists: c.mp3)"].

Definition sample_lines : list string :=
  [("# my list" ++ nl)%string;
   ("https://example.com/a" ++ nl)%string;
   nl;
   ("  http://example.com/b  " ++ nl)%string;
   "ftp://example.com/c"].

(** A links file of [sample_lines] and a site whose downloads report the
    title ["A Title"]. *)
Definition titled_env : Env :=
  {| py_float := py_float offline_env;
     config_file := config_file offline_env;
     set_level_error := set_level_error offline_env;
     log_open_error := log_open_error offline_env;
     formatter_error := formatter_error offline_env;
     path_exists := path_exists offline_env;
     makedirs_error := makedirs_error offline_env;
     links_read := fun _ => LrLines sample_lines;
     probe := probe offline_env;
     fetch := fun _ _ _ => ([], Ok (Some (sample_metadata "A Title")));
     walk := walk offline_env;
     write_error := write_error offline_env |}.

(** The same links file and a site whose downloads report [None] as the
    title. *)
Definition untitled_env : Env :=
  {| py_float := py_float offline_env;
     config_file := config_file offline_env;
     set_level_error := set_level_error offline_env;
     log_open_error := log_open_error offline_env;
     formatter_error := formatter_error offline_env;
     path_exists := path_exists offline_env;
     makedirs_error := makedirs_error offline_env;
     links_read := fun _ => LrLines sample_lines;
     probe := probe offline_env;
     fetch := fun _ _ _ => ([], Ok (Some untitled_metadata));
     walk := walk offline_env;
     write_error := write_error offline_env |}.

(** Four download failures, one of each class the [except DownloadError]
    branch tells apart. *)
Definition sample_error_messages : list string :=
  ["ERROR: unable to download video data: HTTP Error 404: Not Found";
   "ERROR: unable to download video data: HTTP Error 403: Forbidden";
   "ERROR: Unsupported URL: https://example.com/a";
   "ERROR: connection timed out"].

(** The default configuration without its [logging] block: a file that
    supplies the other three blocks in full. *)
Definition config_without_logging : Config :=
  {| audio := audio get_default_config;
     paths := paths get_default_config;
     behavior := behavior get_default_config;
     logging := None |}.

(** The result of one run of the loop over the single line
    [https://example.com/a] when the download succeeds with [title]. *)
Definition run_with_title (title : string) : Result LoopState * list Event :=
  process_lines (env_with_fetch (Ok (Some (sample_metadata title))))
    get_default_config false ["https://example.com/a"] [].

(** Progress dictionaries as yt-dlp passes them. *)
Definition downloading (percent_str : string) : ProgressDict :=
  {| pd_status := "downloading"; pd_percent_str := Some percent_str |}.

Definition finished : ProgressDict :=
  {| pd_status := "finished"; pd_percent_str := None |}.

(** The handler [DownloadProgress(url, config)] builds for an update
    interval. *)
Definition new_handler (url : string) (interval : float) : DownloadProgress :=
  {| dp_url := url; last_progress := 0%float; update_interval := interval |}.

(** The percentages of the worked example, as [_percent_str] carries them. *)
Definition sample_progress : list ProgressDict :=
  map downloading ["1%"; "2%"; "6%"; "6%"; "11%"; "99%"; "100%"] ++ [finished].

(** The configuration [main] works with (lines 248-257): what the config
    file gives, with the overrides of the command line applied. *)
Definition effective_config (env : Env) (args : Args) : M Config :=
  config <- load_config env (a_config args) ;;
  apply_overrides args config.

(** [e] leaves the file [path] alone: it is neither a read nor a write of a
    links file, and it does not make [path] the file that the log records
    are appended to.  A file is identified by the text of its path, as the
    program has it. *)
Definition leaves_alone (path : string) (e : Event) : Prop :=
  match e with
  | EvReadLinks _ | EvWriteLinks _ _ _ => False
  | EvLoggingConfigured file _ _ _ _ => file <> path
  | _ => True
  end.

(** [--url url --links l] *)
Definition url_links_args (url l : string) : Args :=
  {| a_config := "config.json";
     a_links := Some l;
     a_output := None;
     a_skip_existing := false;
     a_url := Some url |}.

(** ** Vocabulary of the further properties *)

(** The trace of the loop over the indices [k, ..., k+n-1], turn by turn:
    [loop_run env config single k n st h evs r] says that the loop, started
    in the state [st] after the history [h], emits [evs] and ends as [r].
    A line that the filter rejects contributes nothing; a line that passes
    contributes its [Processing] record, the events of [download_audio],
    the assignment and the write-back.  The loop ends early, with the
    [AttributeError] of [title.startswith], at a line whose download
    returned [None]. *)
Inductive loop_run (env : Env) (config : Config) (single : bool)
    : nat -> nat -> LoopState -> Trace -> list Event -> Result LoopState
      -> Prop :=
| loop_done k st h :
    loop_run env config single k 0 st h [] (Ok st)
| loop_skip k n st h raw evs r :
    ls_lines st !! k = Some raw ->
    eligible raw = false ->
    loop_run env config single (S k) n st h evs r ->
    loop_run env config single k (S n) st h evs r
| loop_abort k n st h raw evs_d :
    ls_lines st !! k = Some raw ->
    eligible raw = true ->
    download_audio env (PyStr.strip raw) config
      (h ++ [EvLog Info (LProcessing (S (processed_count (ls_stats st)))
                           (PyStr.strip raw))])
    = (Ok None, evs_d) ->
    loop_run env config single k (S n) st h
      (EvLog Info (LProcessing (S (processed_count (ls_stats st)))
                     (PyStr.strip raw))
       :: evs_d)
      (Raise (AttributeError no_startswith))
| loop_turn k n st h raw title evs_d evs_w evs r :
    ls_lines st !! k = Some raw ->
    eligible raw = true ->
    download_audio env (PyStr.strip raw) config
      (h ++ [EvLog Info (LProcessing (S (processed_count (ls_stats st)))
                           (PyStr.strip raw))])
    = (Ok (Some title), evs_d) ->
    (if single then ret tt
     else update_links_file env config
            (<[k := snd (record_outcome (PyStr.strip raw) title
                           (counted (ls_stats st)))]> (ls_lines st)))
      (((h ++ [EvLog Info (LProcessing (S (processed_count (ls_stats st)))
                             (PyStr.strip raw))]) ++ evs_d)
       ++ [EvRewrite k (snd (record_outcome (PyStr.strip raw) title
                               (counted (ls_stats st))))])
    = (Ok tt, evs_w) ->
    loop_run env config single (S k) n
      {| ls_lines := <[k := snd (record_outcome (PyStr.strip raw) title
                                   (counted (ls_stats st)))]> (ls_lines st);
         ls_stats := fst (record_outcome (PyStr.strip raw) title
                            (counted (ls_stats st))) |}
      (h ++ EvLog Info (LProcessing (S (processed_count (ls_stats st)))
                          (PyStr.strip raw))
         :: evs_d
         ++ EvRewrite k (snd (record_outcome (PyStr.strip raw) title
                                (counted (ls_stats st))))
         :: evs_w)
      evs r ->
    loop_run env config single k (S n) st h
      (EvLog Info (LProcessing (S (processed_count (ls_stats st)))
                     (PyStr.strip raw))
       :: evs_d
       ++ EvRewrite k (snd (record_outcome (PyStr.strip raw) title
                              (counted (ls_stats st))))
       :: evs_w ++ evs)
      r.

(** The [Processing n: url] records of a trace, in order. *)
Fixpoint processing_log (evs : list Event) : list (nat * string) :=
  match evs with
  | [] => []
  | EvLog _ (LProcessing n url) :: rest => (n, url) :: processing_log rest
  | _ :: rest => processing_log rest
  end.

(** [urls] numbered from [start]. *)
Fixpoint numbered (start : nat) (urls : list string) : list (nat * string) :=
  match urls with
  | [] => []
  | url :: rest => (start, url) :: numbered (S start) rest
  end.

(** The URLs probed, and the URLs downloaded, in order. *)
Fixpoint probed (evs : list Event) : list string :=
  match evs with
  | [] => []
  | EvProbe url :: rest => url :: probed rest
  | _ :: rest => probed rest
  end.

Fixpoint fetched (evs : list Event) : list string :=
  match evs with
  | [] => []
  | EvFetch url :: rest => url :: fetched rest
  | _ :: rest => fetched rest
  end.

(** The stripped text of the lines the loop processes, in file order. *)
Definition eligible_urls (lines : list string) : list string :=
  map PyStr.strip (List.filter eligible lines).



(** How many events of a trace satisfy [c]. *)
Definition count_if (c : Event -> bool) (evs : list Event) : nat :=
  length (List.filter c evs).

(** [m] emits at most [n] events that satisfy [c], whatever the history. *)
Definition at_most {A} (c : Event -> bool) (n : nat) (m : M A) : Prop :=
  forall h, count_if c (snd (m h)) <= n.

Definition is_probe_b (e : Event) : bool :=
  match e with
  | EvProbe _ => true
  | _ => false
  end.

Definition is_fetch_b (e : Event) : bool :=
  match e with
  | EvFetch _ => true
  | _ => false
  end.

(** What [download_audio url] can emit, seen from the loop: it contacts the
    site for [url] only, it logs no [Processing] record, and it neither
    assigns a line nor touches the links file. *)
Definition contact_event (url : string) (e : Event) : Prop :=
  match e with
  | EvProbe u | EvFetch u => u = url
  | EvLog _ (LProcessing _ _) => False
  | EvLog _ _ | EvPrintProgress _ | EvWalk _ => True
  | _ => False
  end.

(** What the write-back can emit. *)
Definition flush_event (e : Event) : Prop :=
  match e with
  | EvWriteLinks _ _ _ | EvLog _ (LUpdateFailed _) => True
  | _ => False
  end.

Definition walk_event (e : Event) : Prop :=
  match e with
  | EvWalk _ => True
  | _ => False
  end.

(** What the progress hook can emit. *)
Definition notice_event (e : Event) : Prop :=
  match e with
  | EvPrintProgress _
  | EvLog _ (LDownloadCompleted _) | EvLog _ (LDownloadHookError _) => True
  | _ => False
  end.

Definition not_probe (e : Event) : Prop :=
  match e with
  | EvProbe _ => False
  | _ => True
  end.

Definition not_fetch (e : Event) : Prop :=
  match e with
  | EvFetch _ => False
  | _ => True
  end.

(** The names [check_file_exists] looks for: the title of the metadata, when
    there is one, and the last segment of the URL. *)
Definition search_key (url : string) (info_dict : option Metadata)
    (key : string) : Prop :=
  key = PyStr.last_part "/" (PyStr.rstrip_char "/" url)
  \/ exists info,
       info_dict = Some info /\ md_title info = Val key /\ key <> "".

(** The percentages printed, in order. *)
Fixpoint printed (evs : list Event) : list float :=
  match evs with
  | [] => []
  | EvPrintProgress p :: rest => p :: printed rest
  | _ :: rest => printed rest
  end.

(** Each value of [ps] passes the test of the progress hook against the
    value before it, [prev] for the first. *)
Fixpoint spaced (interval prev : float) (ps : list float) : Prop :=
  match ps with
  | [] => True
  | p :: rest =>
      PrimFloat.leb interval (PrimFloat.sub p prev) = true
      /\ spaced interval p rest
  end.

(** Neither a scan of the output directory nor its report. *)
Definition no_scan_event (e : Event) : Prop :=
  match e with
  | EvWalk _ | EvLog _ (LAlreadyExists _) => False
  | _ => True
  end.

(** A config file without [behavior.quiet_download]. *)
Definition config_without_quiet : Config :=
  {| audio := audio get_default_config;
     paths := paths get_default_config;
     behavior := Some {| skip_existing := Some true;
                         progress_update_interval := Some 1%float;
                         quiet_download := None |};
     logging := logging get_default_config |}.

(** The default configuration with the detector switched off. *)
Definition config_without_detector : Config :=
  {| audio := audio get_default_config;
     paths := paths get_default_config;
     behavior := Some {| skip_existing := Some false;
                         progress_update_interval := Some 1%float;
                         quiet_download := Some false |};
     logging := logging get_default_config |}.

(** [m] emits only events that satisfy [P], and every value it returns
    satisfies [Q]. *)
Definition spec {A} (P : Event -> Prop) (Q : A -> Prop) (m : M A) : Prop :=
  emits_only P m /\ returns_only Q m.

(** Whenever [m] raises, it has emitted only events that satisfy [P]. *)
Definition raises_after {A} (P : Event -> Prop) (m : M A) : Prop :=
  forall h e evs, m h = (Raise e, evs) -> Forall P evs.

(** [m] always raises, after events that satisfy [P]. *)
Definition aborts {A} (P : Event -> Prop) (m : M A) : Prop :=
  forall h, exists e evs, m h = (Raise e, evs) /\ Forall P evs.

(** Every access to a links file is to [l]. *)
Definition links_target (l : string) (e : Event) : Prop :=
  match e with
  | EvReadLinks p | EvWriteLinks p _ _ => p = l
  | _ => True
  end.

(** Every directory created or walked is [d]. *)
Definition output_target (d : string) (e : Event) : Prop :=
  match e with
  | EvMakedirs p | EvWalk p => p = d
  | _ => True
  end.

(** Housekeeping, or the attempt to read the links file [l]. *)
Definition prep_event (l : string) (e : Event) : Prop :=
  housekeeping_event e \/ e = EvReadLinks l.

(** [offline_env] where the default log file, and no other file, cannot be
    opened. *)
Definition env_without_log_file : Env :=
  {| py_float := py_float offline_env;
     config_file := config_file offline_env;
     set_level_error := set_level_error offline_env;
     log_open_error := fun file =>
                         if String.eqb file "audiodownloader.log"
                         then Some (OSError "Permission denied")
                         else None;
     formatter_error := formatter_error offline_env;
     path_exists := path_exists offline_env;
     makedirs_error := makedirs_error offline_env;
     links_read := links_read offline_env;
     probe := probe offline_env;
     fetch := fetch offline_env;
     walk := walk offline_env;
     write_error := write_error offline_env |}.

(** [offline_env] with no output directory and no way to create one. *)
Definition env_without_output_dir : Env :=
  {| py_float := py_float offline_env;
     config_file := config_file offline_env;
     set_level_error := set_level_error offline_env;
     log_open_error := log_open_error offline_env;
     formatter_error := formatter_error offline_env;
     path_exists := fun _ => false;
     makedirs_error := fun _ => Some "Permission denied";
     links_read := links_read offline_env;
     probe := probe offline_env;
     fetch := fetch offline_env;
     walk := walk offline_env;
     write_error := write_error offline_env |}.

(** [--links l] *)
Definition links_args (l : string) : Args :=
  {| a_config := "config.json";
     a_links := Some l;
     a_output := None;
     a_skip_existing := false;
     a_url := None |}.

(** [--output d] *)
Definition output_args (d : string) : Args :=
  {| a_config := "config.json";
     a_links := None;
     a_output := Some d;
     a_skip_existing := false;
     a_url := None |}.

(** [--output d --url url] *)
Definition output_url_args (d url : string) : Args :=
  {| a_config := "config.json";
     a_links := None;
     a_output := Some d;
     a_skip_existing := false;
     a_url := Some url |}.

(** * Verification *)

(** ** Reasoning about the monad *)

Section MonadFacts.

Context {A B : Type}.
Implicit Types (P : Event -> Prop) (h : Trace).

Lemma emits_ret P (a : A) : emits_only P (ret a).
Proof. intros h. constructor. Qed.

Lemma emits_raise P (x : Exn) : emits_only P (@raise A x).
Proof. intros h. constructor. Qed.

Lemma emits_lift P (r : Result A) : emits_only P (lift r).
Proof. intros h. constructor. Qed.

Lemma emits_emit P (e : Event) : P e -> emits_only P (emit e).
Proof. intros He h. repeat constructor. exact He. Qed.

Lemma emits_bind P (m : M A) (f : A -> M B) :
  emits_only P m -> (forall a, emits_only P (f a)) -> emits_only P (bind m f).
Proof.
  intros Hm Hf h. unfold bind. specialize (Hm h).
  destruct (m h) as [[a|x] e1]; simpl in *; [|exact Hm].
  specialize (Hf a (h ++ e1)). destruct (f a (h ++ e1)) as [r e2]; simpl in *.
  apply Forall_app; split; assumption.
Qed.

Lemma emits_try P (m : M A) (handler : Exn -> M A) :
  emits_only P m -> (forall x, emits_only P (handler x)) ->
  emits_only P (try_catch m handler).
Proof.
  intros Hm Hf h. unfold try_catch. specialize (Hm h).
  destruct (m h) as [[a|x] e1]; simpl in *; [exact Hm|].
  specialize (Hf x (h ++ e1)). destruct (handler x (h ++ e1)) as [r e2]; simpl in *.
  apply Forall_app; split; assumption.
Qed.

Lemma emits_weaken (P Q : Event -> Prop) (m : M A) :
  (forall e, P e -> Q e) -> emits_only P m -> emits_only Q m.
Proof. intros HPQ Hm h. eapply Forall_impl; [apply Hm|exact HPQ]. Qed.

Lemma no_raise_ret (a : A) : no_raise (ret a).
Proof. intros h. by exists a. Qed.

Lemma no_raise_bind (m : M A) (f : A -> M B) :
  no_raise m -> (forall a, no_raise (f a)) -> no_raise (bind m f).
Proof.
  intros Hm Hf h. unfold bind. destruct (Hm h) as [a Ha].
  destruct (m h) as [r e1]; simpl in Ha; subst r.
  destruct (Hf a (h ++ e1)) as [b Hb].
  destruct (f a (h ++ e1)) as [r e2]; simpl in *. by exists b.
Qed.

Lemma no_raise_try (m : M A) (handler : Exn -> M A) :
  (forall x, no_raise (handler x)) -> no_raise (try_catch m handler).
Proof.
  intros Hf h. unfold try_catch.
  destruct (m h) as [[a|x] e1]; simpl; [by exists a|].
  destruct (Hf x (h ++ e1)) as [b Hb].
  destruct (handler x (h ++ e1)) as [r e2]; simpl in *. by exists b.
Qed.

End MonadFacts.

Lemma no_raise_emit (e : Event) : no_raise (emit e).
Proof. intros h. by exists tt. Qed.

Lemma no_raise_bind_with {A B} (R : A -> Prop) (m : M A) (f : A -> M B) :
  no_raise m -> returns_only R m -> (forall a, R a -> no_raise (f a)) ->
  no_raise (bind m f).
Proof.
  intros Hm Hr Hf h. unfold bind. destruct (Hm h) as [a Ha].
  specialize (Hr h a Ha). destruct (m h) as [r e1]. simpl in Ha. subst r.
  destruct (Hf a Hr (h ++ e1)) as [b Hb].
  destruct (f a (h ++ e1)) as [r e2]. simpl in Hb. subst r. by exists b.
Qed.

Lemma emits_for_each {X S} P (body : X -> S -> M S) (xs : list X) (s : S) :
  (forall x s', emits_only P (body x s')) -> emits_only P (for_each body xs s).
Proof.
  intros Hb. revert s. induction xs as [|x xs IH]; intros s; simpl.
  - apply emits_ret.
  - apply emits_bind; [apply Hb|]. intros s'. apply IH.
Qed.

Lemma no_raise_for_each {X S} (body : X -> S -> M S) (xs : list X) (s : S) :
  (forall x s', no_raise (body x s')) -> no_raise (for_each body xs s).
Proof.
  intros Hb. revert s. induction xs as [|x xs IH]; intros s; simpl.
  - apply no_raise_ret.
  - apply no_raise_bind; [apply Hb|]. intros s'. apply IH.
Qed.

(** Splits a goal [emits_only P m] along the structure of [m]. *)
Ltac emits_step :=
  match goal with
  | |- emits_only _ (ret _) => apply emits_ret
  | |- emits_only _ (raise _) => apply emits_raise
  | |- emits_only _ (lift _) => apply emits_lift
  | |- emits_only _ (log _ _) => apply emits_emit; exact I
  | |- emits_only _ (emit _) => apply emits_emit; exact I
  | |- emits_only _ (bind _ _) => apply emits_bind; [|intros ?]
  | |- emits_only _ (try_catch _ _) => apply emits_try; [|intros ?]
  | |- emits_only _ (for_each _ _ _) => apply emits_for_each; intros ? ?
  | |- emits_only _ (match ?x with _ => _ end) => destruct x
  | |- emits_only _ (if ?b then _ else _) => destruct b
  end.

Ltac emits := repeat emits_step.

Ltac no_raise_step :=
  match goal with
  | |- no_raise (ret _) => apply no_raise_ret
  | |- no_raise (log _ _) => apply no_raise_emit
  | |- no_raise (emit _) => apply no_raise_emit
  | |- no_raise (bind _ _) => apply no_raise_bind; [|intros ?]
  | |- no_raise (try_catch _ _) => apply no_raise_try; intros ?
  | |- no_raise (for_each _ _ _) => apply no_raise_for_each; intros ? ?
  | |- no_raise (match ?x with _ => _ end) => destruct x
  | |- no_raise (if ?b then _ else _) => destruct b
  end.

Ltac no_raise := repeat no_raise_step.

Section ReturnFacts.

Context {A B : Type}.

Lemma returns_ret (Q : A -> Prop) (a : A) : Q a -> returns_only Q (ret a).
Proof. intros Ha h a' E. simpl in E. by injection E as <-. Qed.

Lemma returns_raise (Q : A -> Prop) (x : Exn) : returns_only Q (raise x).
Proof. intros h a E. discriminate. Qed.

Lemma returns_bind (Q : B -> Prop) (m : M A) (f : A -> M B) :
  (forall a, returns_only Q (f a)) -> returns_only Q (bind m f).
Proof.
  intros Hf h b. unfold bind. destruct (m h) as [[a|x] e1]; [|discriminate].
  specialize (Hf a (h ++ e1) b). destruct (f a (h ++ e1)) as [r e2]. exact Hf.
Qed.

Lemma returns_bind_with (R : A -> Prop) (Q : B -> Prop) (m : M A)
    (f : A -> M B) :
  returns_only R m -> (forall a, R a -> returns_only Q (f a)) ->
  returns_only Q (bind m f).
Proof.
  intros Hm Hf h b. unfold bind. specialize (Hm h).
  destruct (m h) as [[a|x] e1]; [|discriminate].
  specialize (Hf a (Hm a eq_refl) (h ++ e1) b).
  destruct (f a (h ++ e1)) as [r e2]. exact Hf.
Qed.

Lemma returns_try (Q : A -> Prop) (m : M A) (handler : Exn -> M A) :
  returns_only Q m -> (forall x, returns_only Q (handler x)) ->
  returns_only Q (try_catch m handler).
Proof.
  intros Hm Hf h a. unfold try_catch. specialize (Hm h).
  destruct (m h) as [[a'|x] e1]; [exact (Hm a)|].
  specialize (Hf x (h ++ e1) a). destruct (handler x (h ++ e1)) as [r e2].
  exact Hf.
Qed.

End ReturnFacts.

Ltac returns_step :=
  match goal with
  | |- returns_only _ (ret _) => apply returns_ret
  | |- returns_only _ (raise _) => apply returns_raise
  | |- returns_only _ (bind _ _) => apply returns_bind; intros ?
  | |- returns_only _ (try_catch _ _) => apply returns_try; [|intros ?]
  | |- returns_only _ (match ?x with _ => _ end) => destruct x
  | |- returns_only _ (if ?b then _ else _) => destruct b
  end.

Lemma emits_bind_returns {A B} (P : Event -> Prop) (Q : A -> Prop)
    (m : M A) (f : A -> M B) :
  emits_only P m -> returns_only Q m ->
  (forall a, Q a -> emits_only P (f a)) ->
  emits_only P (bind m f).
Proof.
  intros Hm Hq Hf h. unfold bind. specialize (Hm h). specialize (Hq h).
  destruct (m h) as [[a|x] e1]; [|exact Hm].
  specialize (Hf a (Hq a eq_refl) (h ++ e1)).
  destruct (f a (h ++ e1)) as [r e2]. simpl in *. by apply Forall_app.
Qed.

Lemma bind_eq_ok {A B} (m : M A) (f : A -> M B) h a e1 :
  m h = (Ok a, e1) ->
  bind m f h = (let '(r, e2) := f a (h ++ e1) in (r, e1 ++ e2)).
Proof. intros E. unfold bind. by rewrite E. Qed.

Lemma bind_eq_raise {A B} (m : M A) (f : A -> M B) h x e1 :
  m h = (Raise x, e1) -> bind m f h = (Raise x, e1).
Proof. intros E. unfold bind. by rewrite E. Qed.

Section TotalFacts.

Context {A B : Type}.

Lemma total_ret (Q : A -> Prop) (a : A) : Q a -> total Q (ret a).
Proof. intros Ha h. by exists a, []. Qed.

Lemma total_lift (Q : A -> Prop) (r : Result A) (a : A) :
  r = Ok a -> Q a -> total Q (lift r).
Proof. intros -> Ha h. by exists a, []. Qed.

Lemma total_bind (P : A -> Prop) (Q : B -> Prop) (m : M A) (f : A -> M B) :
  total P m -> (forall a, P a -> total Q (f a)) -> total Q (bind m f).
Proof.
  intros Hm Hf h. destruct (Hm h) as (a & e1 & Ea & Ha).
  destruct (Hf a Ha (h ++ e1)) as (b & e2 & Eb & Hb).
  exists b, (e1 ++ e2). rewrite (bind_eq_ok _ _ _ _ _ Ea), Eb. done.
Qed.

Lemma total_bind_lift (Q : B -> Prop) (r : Result A) (a : A) (f : A -> M B) :
  r = Ok a -> total Q (f a) -> total Q (bind (lift r) f).
Proof.
  intros -> Hf.
  apply (total_bind (fun x => x = a)); [by apply (total_lift _ _ a)|].
  by intros ? ->.
Qed.

Lemma total_of_no_raise (m : M A) : no_raise m -> total (fun _ => True) m.
Proof.
  intros Hm h. destruct (Hm h) as [a Ha].
  destruct (m h) as [r evs]; simpl in Ha; subst r. by exists a, evs.
Qed.

Lemma total_try (m : M A) (handler : Exn -> M A) :
  (forall x, total (fun _ => True) (handler x)) ->
  total (fun _ => True) (try_catch m handler).
Proof.
  intros Hf h. unfold try_catch. destruct (m h) as [[a|x] e1]; [by exists a, e1|].
  destruct (Hf x (h ++ e1)) as (a & e2 & Ea & _). rewrite Ea. by exists a, (e1 ++ e2).
Qed.

End TotalFacts.

Lemma total_emit (e : Event) : total (fun _ => True) (emit e).
Proof. intros h. by exists tt, [e]. Qed.

(** Steps through a computation whose lookups are all answered. *)
Ltac total_step :=
  match goal with
  | |- total _ (ret _) => apply total_ret; exact I
  | |- total _ (bind (lift _) _) =>
      eapply total_bind_lift; [reflexivity|cbn beta]
  | |- total _ (bind (log _ _) _) =>
      eapply total_bind; [apply total_emit|intros ? _]
  | |- total _ (bind (emit _) _) =>
      eapply total_bind; [apply total_emit|intros ? _]
  | |- total _ (log _ _) => apply total_emit
  | |- total _ (emit _) => apply total_emit
  | |- total _ (try_catch _ _) => apply total_try; intros ?
  | |- total _ (match ?x with _ => _ end) => destruct x
  | |- total _ (if ?b then _ else _) => destruct b
  end.

(** Membership in a list that is written out. *)
Ltac in_list := repeat first [left; reflexivity | right].

Lemma forall_not_in (P : Event -> Prop) (evs : list Event) (e : Event) :
  Forall P evs -> ~ P e -> ~ List.In e evs.
Proof. intros Hall Hne Hin. apply Hne. by apply (proj1 (List.Forall_forall _ _) Hall). Qed.

(** ** Strings *)

Lemma prefix_nil s : String.prefix "" s = true.
Proof. by destruct s. Qed.

Lemma prefix_cons c p s :
  String.prefix (String c p) s = true ->
  exists t, s = String c t /\ String.prefix p t = true.
Proof.
  destruct s as [|d t]; simpl; [discriminate|].
  destruct (ascii_dec c d) as [->|]; [|discriminate]. eauto.
Qed.

Lemma startswith_hash_strip s :
  PyStr.startswith "#" s = true -> PyStr.startswith "#" (PyStr.strip s) = true.
Proof.
  intros H. apply prefix_cons in H as (t & -> & _).
  unfold PyStr.strip. cbn [PyStr.lstrip].
  change (PyStr.isspace "#") with false. cbn [PyStr.rstrip].
  change (PyStr.isspace "#") with false. cbn [andb].
  unfold PyStr.startswith. simpl. apply prefix_nil.
Qed.

Lemma skip_line_comment s :
  PyStr.startswith "#" s = true -> skip_line (PyStr.strip s) = true.
Proof.
  intros H. unfold skip_line. rewrite (startswith_hash_strip _ H).
  by rewrite orb_true_r.
Qed.

Lemma startswith_weaken c p s :
  PyStr.startswith (String c p) s = true ->
  PyStr.startswith (String c EmptyString) s = true.
Proof.
  intros H. apply prefix_cons in H as (t & -> & _).
  unfold PyStr.startswith. simpl.
  destruct (ascii_dec c c); [apply prefix_nil|congruence].
Qed.

Lemma annotate_starts url summary :
  PyStr.startswith "# " (annotate url summary) = true.
Proof.
  unfold annotate, PyStr.startswith. simpl. apply prefix_nil.
Qed.

Lemma annotated_not_eligible url summary :
  eligible (annotate url summary) = false.
Proof.
  unfold eligible. rewrite skip_line_comment; [done|].
  apply (startswith_weaken _ " "), annotate_starts.
Qed.

(** The filter of the loop, spelled out: a line is processed when, once
    stripped, it is not empty, does not start with [#], and starts with
    [https://] or [http://]. *)
Lemma eligible_spec raw :
  eligible raw = true <->
  PyStr.strip raw <> ""
  /\ PyStr.startswith "#" (PyStr.strip raw) = false
  /\ (PyStr.startswith "https://" (PyStr.strip raw) = true
      \/ PyStr.startswith "http://" (PyStr.strip raw) = true).
Proof.
  unfold eligible, skip_line.
  rewrite negb_true_iff, !orb_false_iff, negb_false_iff, orb_true_iff.
  rewrite String.eqb_neq. tauto.
Qed.

(** ** What [download_audio] can and cannot do *)

Section DownloadFacts.

Variable env : Env.

Lemma progress_hook_emits self d :
  emits_only download_event (progress_hook env self d).
Proof. unfold progress_hook. emits. Qed.

Lemma check_file_exists_emits url info config :
  emits_only download_event (check_file_exists env url info config).
Proof.
  unfold check_file_exists. emits; try (intros h; repeat constructor).
Qed.

Lemma extract_info_download_emits opts url handler :
  emits_only download_event (extract_info_download env opts url handler).
Proof.
  intros h. unfold extract_info_download.
  destruct (fetch env h opts url) as [dicts r].
  revert h. change (emits_only download_event
    (emit (EvFetch url) ;; run_hooks env dicts handler ;; lift r)).
  unfold run_hooks. emits. apply progress_hook_emits.
Qed.

Lemma download_audio_emits url config :
  emits_only download_event (download_audio env url config).
Proof.
  unfold download_audio, download_audio_body, download_audio_except,
    create_ydl_opts, DownloadProgress_init.
  emits;
    try apply check_file_exists_emits;
    try apply extract_info_download_emits;
    try (intros h; repeat constructor).
Qed.

(** Every exception is handled inside [download_audio]: it always returns
    a title. *)
Lemma download_audio_no_raise url config :
  no_raise (download_audio env url config).
Proof. unfold download_audio, download_audio_except. no_raise. Qed.

Lemma download_audio_returns url config h :
  exists title evs,
    download_audio env url config h = (Ok title, evs)
    /\ Forall download_event evs.
Proof.
  destruct (download_audio_no_raise url config h) as [title Ht].
  pose proof (download_audio_emits url config h) as He.
  destruct (download_audio env url config h) as [r evs]; simpl in *; subst r.
  by exists title, evs.
Qed.

Lemma extract_info_download_titled opts url handler :
  titled env ->
  returns_only (fun info => forall i, info = Some i -> md_title i <> Null)
    (extract_info_download env opts url handler).
Proof.
  intros Ht h r. unfold extract_info_download.
  destruct (fetch env h opts url) as [dicts res] eqn:Hf.
  unfold bind at 1. cbn [emit]. unfold bind at 1.
  destruct (run_hooks env dicts handler _) as [[handler'|x] e1]; [|done].
  unfold lift. simpl. intros E i ->. rewrite E in Hf. by eapply Ht.
Qed.

(** [download_audio] returns [None] only when the download reported [None]
    as the title. *)
Lemma download_audio_titled url config :
  titled env ->
  returns_only (fun title => title <> None) (download_audio env url config).
Proof.
  intros Ht. unfold download_audio. apply returns_try.
  - unfold download_audio_body. apply returns_bind. intros opts.
    apply returns_bind. intros [title|]; [by apply returns_ret|].
    apply returns_bind. intros handler. apply returns_bind. intros _.
    eapply returns_bind_with; [by apply extract_info_download_titled|].
    intros [info|] Hinfo.
    + repeat (apply returns_bind; intros ?). apply returns_ret.
      specialize (Hinfo info eq_refl). by destruct (md_title info).
    + apply returns_bind. intros _. by apply returns_ret.
  - intros e. unfold download_audio_except.
    destruct e; apply returns_bind; intros _; by apply returns_ret.
Qed.

Lemma download_audio_returns_title url config h :
  titled env ->
  exists title evs,
    download_audio env url config h = (Ok (Some title), evs)
    /\ Forall download_event evs.
Proof.
  intros Ht. destruct (download_audio_returns url config h)
    as ([title|] & evs & Hd & Hev).
  - by exists title, evs.
  - pose proof (download_audio_titled url config Ht h None) as Hn.
    rewrite Hd in Hn. by destruct (Hn eq_refl).
Qed.

End DownloadFacts.

Lemma create_ydl_opts_pure config h :
  snd (create_ydl_opts config h) = [].
Proof.
  assert (emits_only (fun _ => False) (create_ydl_opts config)) as H.
  { unfold create_ydl_opts. emits. }
  specialize (H h). by destruct H.
Qed.

(** ** Counting events *)

Lemma rewrites_at_app i evs1 evs2 :
  rewrites_at i (evs1 ++ evs2) = rewrites_at i evs1 + rewrites_at i evs2.
Proof. unfold rewrites_at. by rewrite List.filter_app, length_app. Qed.

Lemma write_attempts_app evs1 evs2 :
  write_attempts (evs1 ++ evs2) = write_attempts evs1 ++ write_attempts evs2.
Proof.
  induction evs1 as [|e evs1 IH]; [done|].
  destruct e; simpl; by rewrite ?IH.
Qed.

Lemma download_events_no_rewrite i evs :
  Forall download_event evs -> rewrites_at i evs = 0.
Proof.
  induction 1 as [|e evs He _ IH]; [done|].
  unfold rewrites_at in *. by destruct e.
Qed.

Lemma download_events_no_write evs :
  Forall download_event evs -> write_attempts evs = [].
Proof.
  induction 1 as [|e evs He _ IH]; [done|]. by destruct e.
Qed.

Lemma count_eligible_drop lines k raw :
  lines !! k = Some raw ->
  count_eligible (drop k lines)
  = (if eligible raw then 1 else 0) + count_eligible (drop (S k) lines).
Proof.
  intros Hk. rewrite (drop_S _ _ _ Hk). unfold count_eligible. simpl.
  by destruct (eligible raw).
Qed.

(** ** One turn of the loop *)

Lemma record_outcome_line url title s :
  exists summary, snd (record_outcome url title s) = annotate url summary.
Proof.
  unfold record_outcome.
  destruct (PyStr.startswith "SKIPPED" title); [by eexists|].
  destruct (negb _); by eexists.
Qed.

Lemma record_outcome_counts url title s :
  let s' := fst (record_outcome url title s) in
  processed_count s' = processed_count s
  /\ success_count s' + error_count s' + skipped_count s'
     = S (success_count s + error_count s + skipped_count s).
Proof.
  unfold record_outcome.
  destruct (PyStr.startswith "SKIPPED" title); [simpl; lia|].
  destruct (negb _); simpl; lia.
Qed.

Section LoopFacts.

Variable env : Env.
Variables (config : Config) (single : bool).

Lemma loop_body_skip i st raw h :
  ls_lines st !! i = Some raw -> eligible raw = false ->
  loop_body env config single i st h = (Ok st, []).
Proof.
  intros Hi He. unfold loop_body. rewrite Hi.
  unfold eligible in He. apply negb_false_iff in He. by rewrite He.
Qed.

Lemma loop_body_out_of_range i st h :
  ls_lines st !! i = None ->
  loop_body env config single i st h = (Ok st, []).
Proof. intros Hi. unfold loop_body. by rewrite Hi. Qed.

Lemma for_each_skip (idx : list nat) st h :
  Forall (fun l => eligible l = false) (ls_lines st) ->
  for_each (loop_body env config single) idx st h = (Ok st, []).
Proof.
  intros Hall. revert h. induction idx as [|i idx IH]; intros h; [done|].
  simpl. unfold bind.
  assert (loop_body env config single i st h = (Ok st, [])) as ->.
  { destruct (ls_lines st !! i) as [raw|] eqn:Hi.
    - eapply loop_body_skip; [done|].
      eapply (proj1 (Forall_lookup _ _) Hall); done.
    - by apply loop_body_out_of_range. }
  cbn. by rewrite IH.
Qed.

End LoopFacts.

Section TurnFacts.

Variable env : Env.
Variable config : Config.

(** The write-back never raises; it attempts one write when the
    configuration names the links file. *)
Lemma update_links_file_spec lines h :
  exists evs,
    update_links_file env config lines h = (Ok tt, evs)
    /\ (forall i, rewrites_at i evs = 0)
    /\ write_attempts evs
       = match get2 "paths" paths "links_file" links_file config with
         | Ok _ => [PyStr.join lines]
         | Raise _ => []
         end.
Proof.
  unfold update_links_file, try_catch, bind, lift, write_links.
  destruct (get2 "paths" paths "links_file" links_file config) as [path|e];
    [|by eexists].
  destruct (write_error env _ path _) as [msg|]; by eexists.
Qed.

Lemma update_links_file_no_raise lines :
  no_raise (update_links_file env config lines).
Proof. unfold update_links_file. no_raise. Qed.

(** A turn on a line that passes the filter: the download returns a title,
    and the turn ends with the [AttributeError] of [title.startswith] when
    the title is [None], with the line annotated otherwise. *)
Lemma loop_body_eligible single i st raw h :
  ls_lines st !! i = Some raw -> eligible raw = true ->
  exists title evs_d,
    let url := PyStr.strip raw in
    download_audio env url config
      (h ++ [EvLog Info (LProcessing (S (processed_count (ls_stats st))) url)])
    = (Ok title, evs_d)
    /\ Forall download_event evs_d
    /\ match title with
       | None =>
           loop_body env config single i st h
           = (Raise (AttributeError no_startswith),
              EvLog Info (LProcessing (S (processed_count (ls_stats st))) url)
                :: evs_d)
       | Some title =>
           exists evs_w,
             let out := record_outcome url title (counted (ls_stats st)) in
             let lines' := <[i := snd out]> (ls_lines st) in
             loop_body env config single i st h
             = (Ok {| ls_lines := lines'; ls_stats := fst out |},
                EvLog Info (LProcessing (S (processed_count (ls_stats st))) url)
                  :: evs_d ++ EvRewrite i (snd out) :: evs_w)
             /\ (forall j, rewrites_at j evs_w = 0)
             /\ write_attempts evs_w
                = if writes_back single config then [PyStr.join lines'] else []
       end.
Proof.
  intros Hi He.
  destruct (download_audio_returns env (PyStr.strip raw) config
              (h ++ [EvLog Info (LProcessing (S (processed_count (ls_stats st)))
                                   (PyStr.strip raw))]))
    as (title & evs_d & Hd & Hev).
  exists title, evs_d. cbn zeta. split; [exact Hd|]. split; [exact Hev|].
  unfold eligible in He. apply negb_true_iff in He.
  destruct title as [title|]; unfold loop_body; rewrite Hi, He;
    unfold bind at 1; cbn [log emit];
    change (processed_count (counted (ls_stats st)))
      with (S (processed_count (ls_stats st)));
    unfold bind at 1; rewrite Hd; [|cbn; by rewrite app_nil_r].
  destruct (record_outcome (PyStr.strip raw) title (counted (ls_stats st)))
    as [stats' line] eqn:Hout.
  cbn [fst snd].
  destruct single.
  - exists []. unfold bind, emit, ret. cbn. done.
  - unfold bind at 1. cbn [emit]. unfold bind at 1.
    match goal with
    | |- context [update_links_file env config ?l ?k] =>
        destruct (update_links_file_spec l k) as (evs_w & Hw & Hrw & Hwa)
    end.
    exists evs_w. rewrite Hw. cbn. rewrite app_nil_r.
    repeat split; try done. rewrite Hwa. unfold writes_back.
    by destruct (get2 "paths" paths "links_file" links_file config).
Qed.

End TurnFacts.

(** ** The whole loop *)

Section LoopSpec.

Variable env : Env.
Variables (config : Config) (single : bool).

(** The loop over the indices [k, k+1, ..., k+n-1], started from [st] with
    [k + n] the length of the list: the state in which it ends when it
    returns, and the one exception with which it can end otherwise. *)
Lemma loop_invariant n : forall k st h,
  k + n = length (ls_lines st) ->
  match for_each (loop_body env config single) (seq k n) st h with
  | (Raise e, evs) => e = AttributeError no_startswith
  | (Ok st', evs) =>
      length (ls_lines st') = length (ls_lines st)
      /\ (forall i, i < k ->
            ls_lines st' !! i = ls_lines st !! i /\ rewrites_at i evs = 0)
      /\ (forall i raw, k <= i -> ls_lines st !! i = Some raw ->
            if eligible raw
            then (exists summary,
                    ls_lines st' !! i
                    = Some (annotate (PyStr.strip raw) summary))
                 /\ rewrites_at i evs = 1
            else ls_lines st' !! i = Some raw /\ rewrites_at i evs = 0)
      /\ processed_count (ls_stats st')
         = processed_count (ls_stats st)
           + count_eligible (drop k (ls_lines st))
      /\ success_count (ls_stats st') + error_count (ls_stats st')
           + skipped_count (ls_stats st') + processed_count (ls_stats st)
         = success_count (ls_stats st) + error_count (ls_stats st)
           + skipped_count (ls_stats st) + processed_count (ls_stats st')
      /\ length (write_attempts evs)
         = (if writes_back single config
            then count_eligible (drop k (ls_lines st)) else 0)
      /\ (write_attempts evs <> [] ->
          last (write_attempts evs) = Some (PyStr.join (ls_lines st')))
      /\ (count_eligible (drop k (ls_lines st)) = 0 -> st' = st /\ evs = [])
  end.
Proof.
  induction n as [|n IH]; intros k st h Hlen.
  { simpl. rewrite drop_ge by lia.
    repeat split; try done; try lia.
    - intros i raw Hi Hraw. apply lookup_lt_Some in Hraw. lia.
    - by destruct (writes_back single config). }
  destruct (lookup_lt_is_Some_2 (ls_lines st) k ltac:(lia)) as [raw Hk].
  cbn [seq for_each]. unfold bind at 1.
  destruct (eligible raw) eqn:He.
  - (* the line is processed *)
    destruct (loop_body_eligible env config single k st raw h Hk He)
      as (title & evs_d & _ & Hevd & Hturn).
    destruct title as [title|]; [|by rewrite Hturn].
    destruct Hturn as (evs_w & Hbody & Hrw & Hwa).
    cbn zeta in Hbody, Hwa.
    set (out := record_outcome (PyStr.strip raw) title (counted (ls_stats st))) in *.
    set (lines1 := <[k := snd out]> (ls_lines st)) in *.
    set (st1 := {| ls_lines := lines1; ls_stats := fst out |}) in *.
    rewrite Hbody.
    assert (length lines1 = length (ls_lines st)) as Hl1
      by (subst lines1; apply length_insert).
    match goal with
    | |- context [for_each _ _ st1 ?h1] =>
        specialize (IH (S k) st1 h1 ltac:(simpl; lia));
        destruct (for_each (loop_body env config single) (seq (S k) n) st1 h1)
          as [[st'|e] evs]; [|exact IH]
    end.
    destruct IH as (Hlen' & Hbefore & Hafter & Hproc & Hsum & Hwl & Hlast
                    & Hnone).
    assert (drop (S k) lines1 = drop (S k) (ls_lines st)) as Hdrop
      by (subst lines1; apply drop_insert_lt; lia).
    destruct (record_outcome_line (PyStr.strip raw) title (counted (ls_stats st)))
      as [summary Hsummary]. fold out in Hsummary.
    destruct (record_outcome_counts (PyStr.strip raw) title (counted (ls_stats st)))
      as [Hc1 Hc2]. fold out in Hc1, Hc2.
    simpl in Hlen', Hbefore, Hafter, Hproc, Hsum, Hwl, Hnone.
    assert (forall i, rewrites_at i
              (EvLog Info (LProcessing (S (processed_count (ls_stats st)))
                             (PyStr.strip raw))
               :: evs_d ++ EvRewrite k (snd out) :: evs_w)
            = if Nat.eqb i k then 1 else 0) as Hrb.
    { intros i. change (EvLog ?l ?m :: ?t) with ([EvLog l m] ++ t).
      change (EvRewrite ?a ?b :: ?t) with ([EvRewrite a b] ++ t).
      rewrite !rewrites_at_app, Hrw, (download_events_no_rewrite _ _ Hevd).
      unfold rewrites_at. simpl. destruct (Nat.eqb i k); done. }
    repeat split.
    + congruence.
    + destruct (Hbefore i ltac:(lia)) as [-> _]. subst lines1.
      apply list_lookup_insert_ne. lia.
    + rewrite rewrites_at_app, Hrb.
      destruct (Hbefore i ltac:(lia)) as [_ ->].
      destruct (Nat.eqb_spec i k); lia.
    + intros i raw' Hi Hraw'. rewrite rewrites_at_app, Hrb.
      destruct (Nat.eqb_spec i k) as [->|Hne].
      * rewrite Hk in Hraw'. injection Hraw' as <-. rewrite He.
        destruct (Hbefore k ltac:(lia)) as [-> ->]. split; [|done].
        exists summary. subst lines1.
        rewrite list_lookup_insert_eq by lia. by rewrite Hsummary.
      * assert (lines1 !! i = Some raw') as Hi1.
        { subst lines1. rewrite list_lookup_insert_ne by lia. done. }
        specialize (Hafter i raw' ltac:(lia) Hi1).
        destruct (eligible raw'); destruct Hafter as [? ->]; done.
    + rewrite Hproc, Hc1, Hdrop, (count_eligible_drop _ _ _ Hk), He. simpl. lia.
    + simpl in Hc1, Hc2. lia.
    + change (EvLog ?l ?m :: ?t) with ([EvLog l m] ++ t).
      change (EvRewrite ?a ?b :: ?t) with ([EvRewrite a b] ++ t).
      rewrite !write_attempts_app, (download_events_no_write _ Hevd), Hwa.
      rewrite !length_app, Hwl, Hdrop, (count_eligible_drop _ _ _ Hk), He.
      destruct (writes_back single config); done.
    + intros Hne. rewrite write_attempts_app in Hne |- *. rewrite last_app.
      destruct (last (write_attempts evs)) as [w|] eqn:Hw.
      * apply Hlast. intros E. by rewrite E in Hw.
      * apply last_None in Hw. rewrite Hw in Hwl, Hne. simpl in Hwl.
        rewrite app_nil_r in Hne.
        change (EvLog ?l ?m :: ?t) with ([EvLog l m] ++ t) in Hne |- *.
        change (EvRewrite ?a ?b :: ?t) with ([EvRewrite a b] ++ t) in Hne |- *.
        rewrite !write_attempts_app, (download_events_no_write _ Hevd), Hwa
          in Hne |- *.
        destruct (writes_back single config); [|done]. simpl.
        destruct (Hnone ltac:(lia)) as [-> _]. done.
    + rewrite (count_eligible_drop _ _ _ Hk), He in H. simpl in H. lia.
    + rewrite (count_eligible_drop _ _ _ Hk), He in H. simpl in H. lia.
  - (* the line is passed over *)
    rewrite (loop_body_skip env config single k st raw h Hk He).
    specialize (IH (S k) st (h ++ []) ltac:(lia)).
    destruct (for_each (loop_body env config single) (seq (S k) n) st (h ++ []))
      as [[st'|e] evs]; [|exact IH].
    destruct IH as (Hlen' & Hbefore & Hafter & Hproc & Hsum & Hwl & Hlast
                    & Hnone).
    rewrite (count_eligible_drop _ _ _ Hk), He. simpl.
    repeat split; try done.
    + by apply Hbefore; lia.
    + by apply Hbefore; lia.
    + intros i raw' Hi Hraw'.
      destruct (decide (i = k)) as [->|Hne].
      * rewrite Hk in Hraw'. injection Hraw' as <-. rewrite He.
        destruct (Hbefore k ltac:(lia)) as [-> ->]. done.
      * apply Hafter; [lia|done].
    + by apply Hnone.
    + by apply Hnone.
Qed.

(** When no download reports [None] as the title, the loop returns. *)
Lemma loop_completes (idx : list nat) st :
  titled env -> no_raise (for_each (loop_body env config single) idx st).
Proof.
  intros Ht. apply no_raise_for_each. intros i st'. unfold loop_body.
  destruct (ls_lines st' !! i) as [raw|]; [|apply no_raise_ret].
  destruct (skip_line (PyStr.strip raw)); [apply no_raise_ret|].
  apply no_raise_bind; [apply no_raise_emit|]. intros _.
  apply (no_raise_bind_with (fun title => title <> None));
    [apply download_audio_no_raise|by apply download_audio_titled|].
  intros [title|] Hsome; [|done].
  destruct (record_outcome (PyStr.strip raw) title (counted (ls_stats st')))
    as [stats' line].
  no_raise. apply update_links_file_no_raise.
Qed.

End LoopSpec.

Lemma process_lines_skip env config single lines h :
  Forall (fun l => eligible l = false) lines ->
  process_lines env config single lines h
    = (Ok {| ls_lines := lines; ls_stats := zero_stats |}, []).
Proof. intros Hall. unfold process_lines. by apply for_each_skip. Qed.

Lemma main_after_startup env args h config lines evs0 st evs1 :
  startup env args h = (Ok (Some (config, lines)), evs0) ->
  process_lines env config (truthy_arg (a_url args)) lines (h ++ evs0) = (Ok st, evs1) ->
  main env args h = (Ok tt, evs0 ++ evs1 ++ summary_events (ls_stats st)).
Proof.
  intros Hs Hp. unfold main, bind at 1. rewrite Hs.
  unfold bind at 1. rewrite Hp. reflexivity.
Qed.

Lemma main_by_startup env args h :
  match startup env args h with
  | (Ok (Some (config, lines)), evs0) =>
      main env args h
      = (let '(r, evs1) :=
           (st <- process_lines env config (truthy_arg (a_url args)) lines ;;
            emit (EvLog Info LSummary) ;;
            emit (EvLog Info (LTotal (processed_count (ls_stats st)))) ;;
            emit (EvLog Info (LSuccessful (success_count (ls_stats st)))) ;;
            emit (EvLog Info (LSkippedExisting (skipped_count (ls_stats st)))) ;;
            emit (EvLog Info (LErrors (error_count (ls_stats st)))) ;;
            emit (EvLog Info LFinished)) (h ++ evs0) in
         (r, evs0 ++ evs1))
  | (Ok None, evs0) => main env args h = (Ok tt, evs0)
  | (Raise e, evs0) => main env args h = (Raise e, evs0)
  end.
Proof.
  destruct (startup env args h) as [[[[config lines]|]|e] evs0] eqn:Hs;
    unfold main; unfold bind at 1; rewrite Hs; try done.
  simpl. by rewrite ?app_nil_r.
Qed.

(** ** The links file after a run *)


(** A failed download in the middle of a file: the later line is still
    processed and both are annotated. *)
Example failure_does_not_stop_the_loop :
  fst (process_lines (flaky_env "https://example.com/a" "HTTP Error 404: Not Found")
         get_default_config false sample_lines [])
  = Ok {| ls_lines :=
            [("# my list" ++ nl)%string;
             annotate "https://example.com/a" "ERROR: DOWNLOAD ERROR";
             nl;
             annotate "http://example.com/b" "Second";
             "ftp://example.com/c"];
          ls_stats := {| processed_count := 2; success_count := 1;
                         error_count := 1; skipped_count := 0 |} |}.
Proof. vm_compute. reflexivity. Qed.

(** After a pass of the loop no line of the list passes the filter any
    more, so a second pass over the same list, in any surroundings, leaves
    it as it is and processes nothing. *)
Lemma second_pass_processes_nothing env config (lines : list string) h st evs :
  process_lines env config false lines h = (Ok st, evs) ->
  Forall (fun l => eligible l = false) (ls_lines st)
  /\ forall env' config' single h',
       process_lines env' config' single (ls_lines st) h'
       = (Ok {| ls_lines := ls_lines st; ls_stats := zero_stats |}, []).
Proof.
  intros Hrun.
  pose proof (loop_invariant env config false (length lines) 0
                {| ls_lines := lines; ls_stats := zero_stats |} h eq_refl)
    as Hinv.
  unfold process_lines in Hrun. rewrite Hrun in Hinv.
  destruct Hinv as (Hlen & _ & Hafter & _). simpl in Hlen, Hafter.
  assert (Forall (fun l => eligible l = false) (ls_lines st)) as Hall.
  { apply Forall_lookup. intros i l Hl.
    destruct (lookup_lt_is_Some_2 lines i) as [raw Hraw].
    { rewrite <- Hlen. by eapply lookup_lt_Some. }
    specialize (Hafter i raw ltac:(lia) Hraw).
    destruct (eligible raw) eqn:He.
    - destruct Hafter as [[summary Hs] _]. rewrite Hl in Hs.
      injection Hs as ->. apply annotated_not_eligible.
    - destruct Hafter as [Hs _]. rewrite Hl in Hs. by injection Hs as ->. }
  split; [done|]. intros env' config' single h'. by apply process_lines_skip.
Qed.

(** C2. Second run on a fully annotated links file: when every line starts
    with the marker ["# "], the loop leaves the lines as they are, leaves
    the four counters at zero and emits nothing (no probe, no download, no
    assignment to a line, no write of the links file); a run whose startup
    read such a file ends with the summary of zeros. *)
Theorem annotated_file_processes_nothing env config single lines h :
  Forall (fun l => PyStr.startswith "# " l = true) lines ->
  process_lines env config single lines h
    = (Ok {| ls_lines := lines; ls_stats := zero_stats |}, [])
  /\ forall args h0 evs0,
       startup env args h0 = (Ok (Some (config, lines)), evs0) ->
       main env args h0 = (Ok tt, evs0 ++ summary_events zero_stats).
Proof.
  intros Hall.
  assert (forall s k, process_lines env config s lines k
            = (Ok {| ls_lines := lines; ls_stats := zero_stats |}, [])) as Hloop.
  { intros s k. unfold process_lines. apply for_each_skip. simpl.
    eapply Forall_impl; [exact Hall|]. intros l Hl. unfold eligible.
    rewrite skip_line_comment; [done|]. by apply (startswith_weaken _ " "). }
  split; [apply Hloop|].
  intros args h0 evs0 Hs.
  by rewrite (main_after_startup _ _ _ _ _ _ _ _ Hs (Hloop _ _)).
Qed.

Lemma annotated_file_processes_nothing_witness :
  Forall (fun l => PyStr.startswith "# " l = true) annotated_lines
  /\ process_lines offline_env get_default_config false annotated_lines []
     = (Ok {| ls_lines := annotated_lines; ls_stats := zero_stats |}, []).
Proof.
  split; [repeat constructor|].
  apply (annotated_file_processes_nothing
           offline_env get_default_config false annotated_lines []).
  repeat constructor.
Defined.

(** ** The progress throttle *)

Section Throttle.

Variable env : Env.

Lemma progress_hook_downloading self d progress h :
  pd_status d = "downloading" ->
  py_float env (PyStr.remove_char "%" (default "0%" (pd_percent_str d)))
    = Some progress ->
  progress_hook env self d h
  = if PrimFloat.leb (update_interval self)
         (PrimFloat.sub progress (last_progress self))
    then (Ok {| dp_url := dp_url self;
                last_progress := progress;
                update_interval := update_interval self |},
          [EvPrintProgress progress])
    else (Ok self, []).
Proof.
  intros Hs Hp. unfold progress_hook. rewrite Hs, Hp. cbn [String.eqb].
  change ("downloading" =? "downloading")%string with true. cbn iota.
  by destruct (PrimFloat.leb _ _).
Qed.

Lemma progress_hook_unparsable self d h :
  pd_status d = "downloading" ->
  py_float env (PyStr.remove_char "%" (default "0%" (pd_percent_str d))) = None ->
  progress_hook env self d h = (Ok self, []).
Proof.
  intros Hs Hp. unfold progress_hook. rewrite Hs, Hp.
  by change ("downloading" =? "downloading")%string with true.
Qed.

Lemma progress_hook_finished self d h :
  pd_status d = "finished" ->
  progress_hook env self d h
  = (Ok self, [EvLog Info (LDownloadCompleted (dp_url self))]).
Proof. intros Hs. unfold progress_hook. by rewrite Hs. Qed.

Lemma run_hooks_cons d dicts self h self' evs :
  progress_hook env self d h = (Ok self', evs) ->
  run_hooks env (d :: dicts) self h
  = (let '(r, evs') := run_hooks env dicts self' (h ++ evs) in (r, evs ++ evs')).
Proof. intros E. unfold run_hooks. cbn [for_each]. by rewrite (bind_eq_ok _ _ _ _ _ E). Qed.

End Throttle.

(** One [downloading] event of a run of the hook, its percentage parsed by
    [Hp]; the comparison of floats is evaluated. *)
Ltac hook_step Hp :=
  match goal with
  | |- context [run_hooks ?e (?d :: ?ds) ?self ?h] =>
      let E := fresh "E" in
      let E' := fresh "E" in
      pose proof (progress_hook_downloading e self d _ h eq_refl Hp) as E;
      match type of E with
      | ?lhs = ?rhs =>
          let v := eval vm_compute in rhs in
          assert (lhs = v) as E' by exact E
      end;
      rewrite (run_hooks_cons e d ds self h _ _ E'); clear E E'; cbn [app]
  end.

(** C3. The throttle built with an update interval of 5.0 starts from a
    last emitted value of 0; fed the percentages 1, 2, 6, 6, 11, 99, 100 and
    then a [finished] event, it prints progress for 6, 11 and 99, in that
    order, and logs one completion record.  In general, on a [downloading]
    event whose percentage parses, the hook prints exactly when the new
    percentage minus the last emitted one is at least the interval, and it
    moves the last emitted value exactly when it prints; a [finished] event
    is logged whatever the percentages were. *)
Theorem progress_throttle_emits_on_threshold env url h :
  py_float env "1" = Some 1%float ->
  py_float env "2" = Some 2%float ->
  py_float env "6" = Some 6%float ->
  py_float env "11" = Some 11%float ->
  py_float env "99" = Some 99%float ->
  py_float env "100" = Some 100%float ->
  run_hooks env sample_progress (new_handler url 5%float) h
  = (Ok {| dp_url := url; last_progress := 99%float; update_interval := 5%float |},
     [EvPrintProgress 6%float; EvPrintProgress 11%float; EvPrintProgress 99%float;
      EvLog Info (LDownloadCompleted url)])
  /\ (forall self d progress h',
        pd_status d = "downloading" ->
        py_float env (PyStr.remove_char "%" (default "0%" (pd_percent_str d)))
          = Some progress ->
        progress_hook env self d h'
        = if PrimFloat.leb (update_interval self)
               (PrimFloat.sub progress (last_progress self))
          then (Ok {| dp_url := dp_url self;
                      last_progress := progress;
                      update_interval := update_interval self |},
                [EvPrintProgress progress])
          else (Ok self, []))
  /\ (forall self d h',
        pd_status d = "finished" ->
        progress_hook env self d h'
        = (Ok self, [EvLog Info (LDownloadCompleted (dp_url self))])).
Proof.
  intros H1 H2 H6 H11 H99 H100.
  split; [|split; [apply progress_hook_downloading|apply progress_hook_finished]].
  unfold sample_progress, new_handler. cbn [map app].
  hook_step H1. hook_step H2. hook_step H6. hook_step H6.
  hook_step H11. hook_step H99. hook_step H100.
  rewrite (run_hooks_cons env _ _ _ _ _ _
             (progress_hook_finished env _ finished _ eq_refl)).
  reflexivity.
Qed.

Lemma progress_throttle_emits_on_threshold_witness :
  run_hooks env_with_float sample_progress
    (new_handler "https://example.com/a" 5%float) []
  = (Ok {| dp_url := "https://example.com/a";
           last_progress := 99%float;
           update_interval := 5%float |},
     [EvPrintProgress 6%float; EvPrintProgress 11%float; EvPrintProgress 99%float;
      EvLog Info (LDownloadCompleted "https://example.com/a")]).
Proof.
  apply (progress_throttle_emits_on_threshold env_with_float
           "https://example.com/a" []); reflexivity.
Defined.

(** ** The existing-file detector *)

Lemma scan_tree_finds title ext tree root files file :
  List.In (root, files) tree -> List.In file files ->
  file_matches title ext file = true ->
  exists root' files' file',
    scan_tree title ext tree = Some (PyStr.path_join root' file')
    /\ List.In (root', files') tree /\ List.In file' files'
    /\ file_matches title ext file' = true.
Proof.
  induction tree as [|[r fs] rest IH]; intros Hin Hfile Hm; [done|].
  simpl. destruct (List.find (file_matches title ext) fs) as [f|] eqn:Hfind.
  - apply List.find_some in Hfind as [Hf1 Hf2].
    exists r, fs, f. repeat split; [by left|done|done].
  - destruct Hin as [E|Hin].
    + injection E as -> ->.
      pose proof (List.find_none _ _ Hfind file Hfile). congruence.
    + destruct (IH Hin Hfile Hm) as (r' & fs' & f' & Hs & Hin' & Hf' & Hm').
      exists r', fs', f'. repeat split; [done|by right|done|done].
Qed.

Lemma find_first {A} (p : A -> bool) (l : list A) x :
  List.find p l = Some x ->
  exists earlier later,
    l = earlier ++ x :: later /\ p x = true
    /\ Forall (fun y => p y = false) earlier.
Proof.
  induction l as [|y l IH]; [done|]. simpl.
  destruct (p y) eqn:Hy.
  - intros [= <-]. by exists [], l.
  - intros Hf. destruct (IH Hf) as (earlier & later & -> & Hx & Hall).
    exists (y :: earlier), later. repeat split; [done|by constructor].
Qed.

Lemma find_nothing {A} (p : A -> bool) (l : list A) :
  List.find p l = None -> Forall (fun y => p y = false) l.
Proof.
  intros Hf. apply List.Forall_forall. intros y Hy.
  exact (List.find_none _ _ Hf y Hy).
Qed.

(** What [scan_tree] returns is the first match of the walk. *)
Lemma scan_tree_first title ext tree path :
  scan_tree title ext tree = Some path ->
  exists root file,
    first_match title ext tree root file
    /\ path = PyStr.path_join root file.
Proof.
  induction tree as [|[r fs] rest IH]; [done|]. simpl.
  destruct (List.find (file_matches title ext) fs) as [f|] eqn:Hfind.
  - intros [= <-]. destruct (find_first _ _ _ Hfind)
      as (earlier & later & -> & Hm & Hall).
    exists r, f. split; [|done].
    by exists [], (earlier ++ f :: later), rest, earlier, later.
  - intros Hs. destruct (IH Hs) as (root & file & Hfirst & ->).
    exists root, file. split; [|done].
    destruct Hfirst as (before & files & after & earlier & later
                        & -> & -> & Hm & Hall & Hbefore).
    exists ((r, fs) :: before), (earlier ++ file :: later), after, earlier,
      later.
    repeat split; try done. constructor; [|done]. by apply find_nothing.
Qed.

(** C4, amended. A URL whose probe returns metadata with a non-empty title,
    with the detector enabled ([skip_existing] true) and an output tree that
    contains a file whose name ends with ["." ++ codec] and contains the
    title, case ignored: [download_audio] returns
    [SKIPPED (exists: <base name>)] for the first such file in the order of
    the walk (no file of an earlier directory matches, and no file listed
    before it in its own directory), it logs the matched path, the main
    loop counts the outcome as skipped, and no download is started.  The
    outcome carries the base name of the matched path, not the path. *)
Theorem existing_file_skips_download
    env config h url opts info title dir ext root files file :
  fst (create_ydl_opts config h) = Ok opts ->
  probe env h (set_quiet opts) url = Ok (Some info) ->
  md_title info = Val title -> title <> "" ->
  get2 "behavior" behavior "skip_existing" skip_existing config = Ok true ->
  get2 "paths" paths "output_dir" output_dir config = Ok dir ->
  get2 "audio" audio "codec" codec config = Ok ext ->
  List.In (root, files) (walk env (h ++ [EvProbe url]) dir) ->
  List.In file files ->
  file_matches title ext file = true ->
  exists root' file',
    let path := PyStr.path_join root' file' in
    let outcome := ("SKIPPED (exists: " ++ PyStr.basename path ++ ")")%string in
    first_match title ext (walk env (h ++ [EvProbe url]) dir) root' file'
    /\ download_audio env url config h
       = (Ok (Some outcome),
          [EvProbe url; EvWalk dir; EvLog Info (LAlreadyExists (Some path))])
    /\ Forall (fun e => ~ is_fetch e) (snd (download_audio env url config h))
    /\ forall s, record_outcome url outcome s
                 = ({| processed_count := processed_count s;
                       success_count := success_count s;
                       error_count := error_count s;
                       skipped_count := S (skipped_count s) |},
                    ("# " ++ url ++ " # " ++ outcome ++ nl)%string).
Proof.
  intros Hopts Hprobe Htitle Hne Hskip Hdir Hext Hin Hfile Hm.
  destruct (scan_tree_finds title ext _ root files file Hin Hfile Hm)
    as (root0 & files0 & file0 & Hscan & _).
  destruct (scan_tree_first _ _ _ _ Hscan) as (root' & file' & Hfirst & Hpath).
  rewrite Hpath in Hscan.
  exists root', file'. cbn zeta.
  assert (download_audio env url config h
          = (Ok (Some ("SKIPPED (exists: "
                       ++ PyStr.basename (PyStr.path_join root' file')
                       ++ ")")%string),
             [EvProbe url; EvWalk dir;
              EvLog Info (LAlreadyExists (Some (PyStr.path_join root' file')))])) as Hrun.
  { unfold download_audio, download_audio_body, try_catch at 1, bind at 1.
    pose proof (create_ydl_opts_pure config h) as Hpure.
    destruct (create_ydl_opts config h) as [r evs0]. simpl in Hopts, Hpure.
    subst r evs0. rewrite app_nil_r.
    unfold bind at 1, try_catch at 1, bind at 1, extract_info_probe.
    rewrite Hprobe. unfold bind at 1, check_file_exists.
    unfold bind at 1, lift at 1. rewrite Hskip. cbn [negb].
    unfold bind at 1. rewrite Htitle. cbn [dict_get].
    destruct (String.eqb_spec title "") as [|_]; [done|]. cbn [negb].
    unfold bind at 1, lift at 1. rewrite Hdir.
    unfold bind at 1, lift at 1. rewrite Hext.
    unfold bind at 1, os_walk. rewrite !app_nil_r.
    cbn [ret]. rewrite Hscan. reflexivity. }
  split; [done|]. split; [done|]. split.
  - rewrite Hrun. simpl. repeat constructor; tauto.
  - intros s. unfold record_outcome. reflexivity.
Qed.

Lemma existing_file_skips_download_witness :
  exists root' file',
    first_match "My Song" "mp3"
      [("./audiodownloads", ["notes.txt"; "My Song.mp3"])] root' file'
    /\ download_audio song_env "https://example.com/watch" get_default_config []
       = (Ok (Some ("SKIPPED (exists: "
                    ++ PyStr.basename (PyStr.path_join root' file') ++ ")")%string),
          [EvProbe "https://example.com/watch"; EvWalk "./audiodownloads";
           EvLog Info (LAlreadyExists (Some (PyStr.path_join root' file')))]).
Proof.
  destruct (existing_file_skips_download song_env get_default_config []
              "https://example.com/watch"
              {| yo_outtmpl := "./audiodownloads/%(title)s.%(ext)s";
                 yo_quiet := false;
                 yo_preferredcodec := "mp3";
                 yo_preferredquality := "320";
                 yo_sample_rate := "48000";
                 yo_progress_hooks := false |}
              (sample_metadata "My Song") "My Song" "./audiodownloads" "mp3"
              "./audiodownloads" ["notes.txt"; "My Song.mp3"] "My Song.mp3"
              eq_refl eq_refl eq_refl ltac:(discriminate) eq_refl eq_refl eq_refl
              ltac:(left; reflexivity) ltac:(right; left; reflexivity) eq_refl)
    as (root' & file' & Hm & Hrun & _).
  exists root', file'. split; [exact Hm|exact Hrun].
Defined.

(** C4, as stated, fails: the matched path is
    [./audiodownloads/My Song.mp3], the outcome names [My Song.mp3] only and
    does not contain the path; a match in another directory leaves the same
    outcome, so the outcome does not determine the matched path. *)
Lemma skipped_outcome_carries_base_name_only :
  download_audio song_env "https://example.com/watch" get_default_config []
  = (Ok (Some "SKIPPED (exists: My Song.mp3)"),
     [EvProbe "https://example.com/watch"; EvWalk "./audiodownloads";
      EvLog Info (LAlreadyExists (Some "./audiodownloads/My Song.mp3"))])
  /\ PyStr.contains "./audiodownloads/My Song.mp3" "SKIPPED (exists: My Song.mp3)"
     = false
  /\ download_audio song_env_live "https://example.com/watch" get_default_config []
     = (Ok (Some "SKIPPED (exists: My Song.mp3)"),
        [EvProbe "https://example.com/watch"; EvWalk "./audiodownloads";
         EvLog Info (LAlreadyExists (Some "./audiodownloads/live/My Song.mp3"))]).
Proof. repeat split; vm_compute; reflexivity. Qed.

(** ** Download failures *)

(** C5, amended. When the [try] block of [download_audio] ends with a
    [DownloadError], the message is classified by substring, first match
    first (404, then 403, then unsupported URL, else generic), and the class
    selects the logged record only: the returned outcome is
    ["DOWNLOAD ERROR"] for every class, and the main loop records it as
    [ERROR: DOWNLOAD ERROR]. *)
Theorem download_error_class_selects_the_log_record env config url h msg evs :
  download_audio_body env url config h = (Raise (DownloadError msg), evs) ->
  download_audio env url config h
  = (Ok (Some "DOWNLOAD ERROR"), evs ++ [EvLog Error (download_error_log url msg)])
  /\ (forall s, record_outcome url "DOWNLOAD ERROR" s
                = ({| processed_count := processed_count s;
                      success_count := success_count s;
                      error_count := S (error_count s);
                      skipped_count := skipped_count s |},
                   annotate url "ERROR: DOWNLOAD ERROR"))
  /\ (PyStr.contains "HTTP Error 404" msg = true ->
      download_error_log url msg = LNotFound404 url)
  /\ (PyStr.contains "HTTP Error 404" msg = false ->
      PyStr.contains "HTTP Error 403" msg = true ->
      download_error_log url msg = LForbidden403 url)
  /\ (PyStr.contains "HTTP Error 404" msg = false ->
      PyStr.contains "HTTP Error 403" msg = false ->
      PyStr.contains "Unsupported URL" msg = true ->
      download_error_log url msg = LUnsupportedUrl url)
  /\ (PyStr.contains "HTTP Error 404" msg = false ->
      PyStr.contains "HTTP Error 403" msg = false ->
      PyStr.contains "Unsupported URL" msg = false ->
      download_error_log url msg = LDownloadError url msg).
Proof.
  intros Hbody. split.
  { unfold download_audio, try_catch. rewrite Hbody. reflexivity. }
  split; [done|].
  unfold download_error_log.
  repeat split; intros; repeat match goal with H : _ = _ |- _ => rewrite H end;
    reflexivity.
Qed.

Lemma download_error_class_selects_the_log_record_witness :
  download_audio
    (env_with_fetch (Raise (DownloadError "HTTP Error 403: Forbidden")))
    "https://example.com/a" get_default_config []
  = (Ok (Some "DOWNLOAD ERROR"),
     [EvProbe "https://example.com/a";
      EvLog Info (LStarting "https://example.com/a");
      EvFetch "https://example.com/a";
      EvLog Error (LForbidden403 "https://example.com/a")]).
Proof.
  apply (download_error_class_selects_the_log_record
           (env_with_fetch (Raise (DownloadError "HTTP Error 403: Forbidden")))
           get_default_config "https://example.com/a" []
           "HTTP Error 403: Forbidden"
           [EvProbe "https://example.com/a";
            EvLog Info (LStarting "https://example.com/a");
            EvFetch "https://example.com/a"]).
  reflexivity.
Defined.

(** C5, as stated, fails: the four classes of message leave the same
    outcome and the same line, so the recorded outcomes do not tell the
    classes apart. *)
Lemma download_error_classes_share_one_outcome :
  map (fun msg =>
         fst (process_lines (env_with_fetch (Raise (DownloadError msg)))
                get_default_config false ["https://example.com/a"] []))
      sample_error_messages
  = map (fun _ =>
           Ok {| ls_lines := [annotate "https://example.com/a" "ERROR: DOWNLOAD ERROR"];
                 ls_stats := {| processed_count := 1; success_count := 0;
                                error_count := 1; skipped_count := 0 |} |})
        sample_error_messages
  /\ map (fun msg =>
            fst (download_audio (env_with_fetch (Raise (DownloadError msg)))
                   "https://example.com/a" get_default_config []))
         sample_error_messages
     = [Ok (Some "DOWNLOAD ERROR"); Ok (Some "DOWNLOAD ERROR"); Ok (Some "DOWNLOAD ERROR");
        Ok (Some "DOWNLOAD ERROR")]
  /\ map (download_error_log "https://example.com/a") sample_error_messages
     = [LNotFound404 "https://example.com/a";
        LForbidden403 "https://example.com/a";
        LUnsupportedUrl "https://example.com/a";
        LDownloadError "https://example.com/a" "ERROR: connection timed out"].
Proof. repeat split; vm_compute; reflexivity. Qed.

(** ** Configuration *)

Section ConfigFacts.

Variable env : Env.

Lemma load_config_valid file config h :
  config_file env file = CfJson config ->
  load_config env file h = (Ok config, [EvLog Info (LConfigLoaded file)]).
Proof. intros E. unfold load_config, try_catch. by rewrite E. Qed.

Lemma load_config_fallback file :
  unusable (config_file env file) ->
  total (fun config => config = get_default_config) (load_config env file)
  /\ emits_only is_log (load_config env file).
Proof.
  intros Hun. unfold load_config. split.
  - intros h. unfold try_catch.
    destruct (config_file env file); [by eexists _, _..|done].
  - emits.
Qed.

Lemma apply_overrides_spec args config h :
  (exists key, apply_overrides args config h = (Raise (KeyError key), []))
  \/ (exists config',
        apply_overrides args config h = (Ok config', [])
        /\ logging config' = logging config
        /\ (paths config = None -> paths config' = None)).
Proof.
  unfold apply_overrides, set_links_file, set_output_dir, set_skip_existing.
  destruct config as [a p b l].
  destruct (truthy_arg (a_links args)), (truthy_arg (a_output args)),
    (a_skip_existing args), p as [p|], b as [b|]; cbn; eauto.
  all: right; eexists; repeat split; done.
Qed.

Lemma setup_logging_missing config h :
  paths config = None \/ logging config = None ->
  exists key, setup_logging env config h = (Raise (KeyError key), []).
Proof.
  unfold setup_logging. destruct config as [a p b l]. simpl.
  intros [->| ->]; [by eexists|].
  destruct p as [[lf od [logf|]]|]; cbn; by eexists.
Qed.

Lemma apply_overrides_default args :
  total complete (apply_overrides args get_default_config).
Proof.
  unfold apply_overrides, set_links_file, set_output_dir, set_skip_existing.
  intros h.
  destruct (truthy_arg (a_links args)), (truthy_arg (a_output args)),
    (a_skip_existing args); cbn; eexists _, _; (split; [reflexivity|]);
    unfold complete; repeat eexists.
Qed.

Lemma setup_logging_total config :
  complete config ->
  default_logging_works env ->
  total (fun _ => True) (setup_logging env config).
Proof.
  intros (c & q & sr & lf & od & se & pui & qd & ->) (Hlevel & Hlog & Hfmt).
  unfold setup_logging. intros h. cbn. rewrite Hlevel, Hlog. cbn.
  rewrite Hfmt. by eexists _, _.
Qed.

(** Once the lines are there, the run returns when no download reports
    [None] as the title. *)
Lemma process_lines_no_raise config single lines :
  titled env -> no_raise (process_lines env config single lines).
Proof. intros Ht. unfold process_lines. by apply loop_completes. Qed.

(** After a fallback to the defaults, with a logging setup that goes
    through and downloads that report a title, the run returns normally. *)
Lemma main_after_fallback_returns args :
  unusable (config_file env (a_config args)) ->
  default_logging_works env ->
  titled env ->
  total (fun _ => True) (main env args).
Proof.
  intros Hun Hlog Ht. unfold main.
  eapply total_bind with (P := fun _ => True).
  - unfold startup.
    eapply total_bind; [apply (load_config_fallback _ Hun)|intros ? ->].
    eapply total_bind; [apply apply_overrides_default|intros config Hc].
    eapply total_bind; [by apply setup_logging_total|intros _ _].
    destruct Hc as (c & q & sr & lf & od & se & pui & qd & ->).
    repeat total_step.
    eapply total_bind with (P := fun _ => True).
    { apply total_of_no_raise. unfold ensure_output_directory. no_raise. }
    intros ok _. repeat total_step; exact I.
  - intros [[config lines]|] _; [|by apply total_ret].
    eapply total_bind with (P := fun _ => True).
    { by apply total_of_no_raise, process_lines_no_raise. }
    intros st _. repeat total_step.
Qed.

End ConfigFacts.

(** C6, amended. A config file that parses is used as it is: [load_config]
    returns the parsed configuration, no default is filled in for a field
    the file omits, and a run whose configuration lacks the [paths] block or
    the [logging] block is aborted by a [KeyError] before any URL is
    processed. *)
Theorem valid_config_is_used_as_parsed env file config h :
  config_file env file = CfJson config ->
  load_config env file h = (Ok config, [EvLog Info (LConfigLoaded file)])
  /\ forall args,
       a_config args = file ->
       paths config = None \/ logging config = None ->
       exists key,
         main env args h
         = (Raise (KeyError key), [EvLog Info (LConfigLoaded file)]).
Proof.
  intros Hfile. pose proof (load_config_valid env file config h Hfile) as Hload.
  split; [done|]. intros args <- Hmissing.
  assert (exists key, startup env args h
                      = (Raise (KeyError key),
                         [EvLog Info (LConfigLoaded (a_config args))])) as [key Hs].
  { unfold startup. rewrite (bind_eq_ok _ _ _ _ _ Hload).
    destruct (apply_overrides_spec args config
                (h ++ [EvLog Info (LConfigLoaded (a_config args))]))
      as [[key Ho]|(config' & Ho & Hl & Hp)].
    - exists key. by rewrite (bind_eq_raise _ _ _ _ _ Ho).
    - rewrite (bind_eq_ok _ _ _ _ _ Ho).
      destruct (setup_logging_missing env config'
                  ((h ++ [EvLog Info (LConfigLoaded (a_config args))]) ++ []))
        as [key Hk].
      { destruct Hmissing as [Hm|Hm]; [left; auto|right; congruence]. }
      exists key. by rewrite (bind_eq_raise _ _ _ _ _ Hk). }
  exists key. unfold main. by rewrite (bind_eq_raise _ _ _ _ _ Hs).
Qed.

Lemma valid_config_is_used_as_parsed_witness :
  load_config (env_with_config config_without_logging) "config.json" []
  = (Ok config_without_logging, [EvLog Info (LConfigLoaded "config.json")]).
Proof.
  apply (valid_config_is_used_as_parsed (env_with_config config_without_logging)
           "config.json" config_without_logging [] eq_refl).
Defined.

(** C6, as stated, fails: for a config file that supplies everything but
    the [logging] block, the missing block is not replaced by its default
    and the run ends with [KeyError('logging')]. *)
Lemma missing_logging_block_aborts_the_run :
  fst (load_config (env_with_config config_without_logging) "config.json" [])
    = Ok config_without_logging
  /\ logging config_without_logging = None
  /\ logging get_default_config <> None
  /\ main (env_with_config config_without_logging) default_args []
     = (Raise (KeyError "logging"), [EvLog Info (LConfigLoaded "config.json")]).
Proof. repeat split; try (vm_compute; reflexivity). discriminate. Qed.

(** C7. A config file that is missing, unreadable or not valid JSON:
    [load_config] returns normally with the default configuration, having
    only logged, so the condition does not abort the run; the defaults are
    the documented values.  The run that follows returns normally too, for
    every command line, provided the logging module accepts the default
    settings and opens the default log file and no download reports [None]
    as the title: the two ways in which a run with the defaults can still
    end with an exception, neither of which has to do with the config
    file. *)
Theorem unusable_config_file_falls_back_to_defaults env file h :
  unusable (config_file env file) ->
  (exists evs,
     load_config env file h = (Ok get_default_config, evs) /\ Forall is_log evs)
  /\ (get2 "audio" audio "codec" codec get_default_config = Ok "mp3"
      /\ get2 "audio" audio "quality" quality get_default_config = Ok "320"
      /\ get2 "audio" audio "sample_rate" sample_rate get_default_config = Ok "48000"
      /\ get2 "paths" paths "links_file" links_file get_default_config = Ok "links.txt"
      /\ get2 "paths" paths "output_dir" output_dir get_default_config
         = Ok "./audiodownloads"
      /\ get2 "paths" paths "log_file" log_file get_default_config
         = Ok "audiodownloader.log"
      /\ get2 "behavior" behavior "skip_existing" skip_existing get_default_config
         = Ok true
      /\ get2 "behavior" behavior "progress_update_interval"
           progress_update_interval get_default_config = Ok 1%float
      /\ get2 "behavior" behavior "quiet_download" quiet_download get_default_config
         = Ok false
      /\ get2 "logging" logging "level" level get_default_config = Ok "INFO"
      /\ get2 "logging" logging "console_level" console_level get_default_config
         = Ok "INFO")
  /\ (default_logging_works env -> titled env ->
      forall args, a_config args = file ->
        exists evs, main env args h = (Ok tt, evs)).
Proof.
  intros Hun. split; [|split].
  - destruct (load_config_fallback env file Hun) as [Ht He].
    destruct (Ht h) as (config & evs & E & ->). specialize (He h).
    rewrite E in He. by exists evs.
  - repeat split.
  - intros Hlog Htitled args <-.
    destruct (main_after_fallback_returns env args Hun Hlog Htitled h)
      as ([] & evs & E & _).
    by exists evs.
Qed.

Lemma unusable_config_file_falls_back_to_defaults_witness :
  exists evs,
    load_config (env_with_config_file (CfInvalidJson "Expecting value"))
      "config.json" []
    = (Ok get_default_config, evs)
    /\ Forall is_log evs.
Proof.
  apply (unusable_config_file_falls_back_to_defaults
           (env_with_config_file (CfInvalidJson "Expecting value"))
           "config.json" [] I).
Defined.

(** ** Single-URL mode *)

Section SingleUrl.

Variable env : Env.
Variable args : Args.
Hypothesis Hsingle : truthy_arg (a_url args) = true.

Lemma startup_single_emits :
  emits_only housekeeping_event (startup env args).
Proof using Hsingle.
  unfold startup. rewrite Hsingle.
  unfold load_config, apply_overrides, set_links_file, set_output_dir,
    set_skip_existing, setup_logging, ensure_output_directory.
  emits.
Qed.

Lemma startup_single_lines :
  returns_only
    (fun r => forall config lines,
                r = Some (config, lines) -> lines = [default "" (a_url args)])
    (startup env args).
Proof using Hsingle.
  unfold startup. rewrite Hsingle.
  repeat returns_step; intros config' lines' E; by simplify_eq.
Qed.

Lemma loop_body_single_emits config i st :
  emits_only not_links_file_event (loop_body env config true i st).
Proof.
  unfold loop_body. emits.
  eapply emits_weaken; [|apply download_audio_emits]. by intros [].
Qed.

End SingleUrl.

Lemma load_config_logs env P file :
  (forall lv msg, P (EvLog lv msg)) -> emits_only P (load_config env file).
Proof.
  intros HP. apply (emits_weaken is_log); [|unfold load_config; emits].
  intros [] He; done || apply HP.
Qed.

Lemma apply_overrides_silent P args config :
  emits_only P (apply_overrides args config).
Proof.
  unfold apply_overrides, set_links_file, set_output_dir, set_skip_existing.
  emits.
Qed.

Lemma load_config_static env file h h' :
  fst (load_config env file h) = fst (load_config env file h').
Proof.
  unfold load_config, try_catch. by destruct (config_file env file).
Qed.

Lemma apply_overrides_static args config h h' :
  apply_overrides args config h = apply_overrides args config h'.
Proof.
  unfold apply_overrides, set_links_file, set_output_dir, set_skip_existing.
  destruct config as [a p b l].
  by destruct (truthy_arg (a_links args)), (truthy_arg (a_output args)),
    (a_skip_existing args), p as [p|], b as [b|].
Qed.

(** [startup] goes on with the configuration in force. *)
Lemma load_config_returns env args h :
  returns_only (fun c0 => fst (load_config env (a_config args) h) = Ok c0)
    (load_config env (a_config args)).
Proof. intros h0 c0 E. by rewrite (load_config_static _ _ h h0). Qed.

Lemma apply_overrides_returns env args h config c0 :
  fst (effective_config env args h) = Ok config ->
  fst (load_config env (a_config args) h) = Ok c0 ->
  returns_only (fun c => c = config) (apply_overrides args c0).
Proof.
  intros Heff Hc0 h1 c E. unfold effective_config, bind in Heff.
  destruct (load_config env (a_config args) h) as [r0 e0].
  simpl in Hc0. subst r0.
  rewrite (apply_overrides_static args c0 _ h1) in Heff.
  destruct (apply_overrides args c0 h1) as [r1 e1]. simpl in *.
  congruence.
Qed.

(** The log file that [setup_logging] opens is the one the configuration
    names. *)
Lemma setup_logging_opens env config :
  emits_only
    (fun e => match e with
              | EvLoggingConfigured file _ _ _ _ =>
                  get2 "paths" paths "log_file" log_file config = Ok file
              | _ => False
              end)
    (setup_logging env config).
Proof.
  intros h. unfold setup_logging, bind, lift.
  destruct (get2 "paths" paths "log_file" log_file config) as [file|e];
    [|constructor].
  destruct (get2 "logging" logging "level" level config) as [lvl|e];
    [|constructor].
  destruct (get2 "logging" logging "console_level" console_level config)
    as [console|e]; [|constructor].
  simpl. destruct (set_level_error env lvl console); [constructor|].
  destruct (log_open_error env file); [constructor|].
  destruct (get2 "logging" logging "format" format config) as [fmt|e];
    [|constructor].
  destruct (get2 "logging" logging "date_format" date_format config)
    as [datefmt|e]; [|constructor].
  simpl. destruct (formatter_error env fmt datefmt); by repeat constructor.
Qed.

(** C8, amended. Single-URL mode is the branch [if args.url:], which the
    code takes when [--url] is given a non-empty string.  In that mode,
    whatever the surroundings do and however the run ends, its events
    contain no write of a links file, and no read of one either.  The one
    file the program itself writes is the log file: the log records are
    appended to the file that [paths.log_file] names, so the file that
    [paths.links_file] names is left alone when the configuration in force
    names another file as the log file.  (What yt-dlp stores under the
    output directory is not part of the statement.) *)
Theorem single_url_mode_never_writes_links_file env args h :
  truthy_arg (a_url args) = true ->
  ((forall path content err,
      ~ List.In (EvWriteLinks path content err) (snd (main env args h)))
   /\ (forall path, ~ List.In (EvReadLinks path) (snd (main env args h))))
  /\ (forall config lf,
        fst (effective_config env args h) = Ok config ->
        get2 "paths" paths "links_file" links_file config = Ok lf ->
        get2 "paths" paths "log_file" log_file config <> Ok lf ->
        Forall (leaves_alone lf) (snd (main env args h))).
Proof.
  intros Hsingle. split.
  { assert (emits_only not_links_file_event (main env args)) as Hmain.
    { unfold main. apply emits_bind.
      - eapply emits_weaken; [|by apply startup_single_emits]. by intros [].
      - intros [[config lines]|]; [|apply emits_ret].
        rewrite Hsingle. unfold process_lines. emits.
        apply loop_body_single_emits. }
    split; intros; (eapply forall_not_in; [apply Hmain|]); simpl; tauto. }
  intros config lf Heff Hlf Hlog.
  assert (emits_only (leaves_alone lf) (main env args)) as Hmain; [|apply Hmain].
  unfold main. apply emits_bind.
  - unfold startup.
    apply (emits_bind_returns _
             (fun c0 => fst (load_config env (a_config args) h) = Ok c0)).
    { apply load_config_logs. by intros. }
    { intros h0 c0 E. by rewrite (load_config_static _ _ h h0). }
    intros c0 Hc0.
    apply (emits_bind_returns _ (fun c => c = config)).
    { apply apply_overrides_silent. }
    { intros h1 c E. unfold effective_config, bind in Heff.
      destruct (load_config env (a_config args) h) as [r0 e0].
      simpl in Hc0. subst r0.
      rewrite (apply_overrides_static args c0 _ h1) in Heff.
      destruct (apply_overrides args c0 h1) as [r1 e1]. simpl in *.
      congruence. }
    intros ? ->. apply emits_bind.
    { eapply emits_weaken; [|apply setup_logging_opens].
      intros [] He; try done. simpl. congruence. }
    intros _. rewrite Hsingle. unfold ensure_output_directory. emits.
  - intros [[config' lines]|]; [|apply emits_ret].
    rewrite Hsingle. unfold process_lines, loop_body. emits.
    eapply emits_weaken; [|apply download_audio_emits]. by intros [].
Qed.

Lemma single_url_mode_never_writes_links_file_witness :
  truthy_arg (a_url (single_url_args "https://example.com/a")) = true
  /\ (forall path content err,
        ~ List.In (EvWriteLinks path content err)
            (snd (main (env_with_fetch (Ok (Some (sample_metadata "First Song"))))
                    (single_url_args "https://example.com/a") [])))
  /\ Forall (leaves_alone "links.txt")
       (snd (main (env_with_fetch (Ok (Some (sample_metadata "First Song"))))
               (single_url_args "https://example.com/a") [])).
Proof.
  split; [reflexivity|].
  destruct (single_url_mode_never_writes_links_file
              (env_with_fetch (Ok (Some (sample_metadata "First Song"))))
              (single_url_args "https://example.com/a") [] eq_refl)
    as [[Hwrite _] Halone].
  split; [exact Hwrite|].
  apply (Halone get_default_config "links.txt" eq_refl eq_refl).
  discriminate.
Defined.

(** The proviso is needed: with [--links] naming the log file, the run in
    single-URL mode appends its log records to the file that
    [paths.links_file] names. *)
Example log_file_can_be_the_links_file :
  let args := url_links_args "https://example.com/a" "audiodownloader.log" in
  let config := {| audio := audio get_default_config;
                   paths := Some {| links_file := Some "audiodownloader.log";
                                    output_dir := Some "./audiodownloads";
                                    log_file := Some "audiodownloader.log" |};
                   behavior := behavior get_default_config;
                   logging := logging get_default_config |} in
  fst (effective_config offline_env args []) = Ok config
  /\ List.In
       (EvLoggingConfigured "audiodownloader.log" "INFO" "INFO"
          "%(asctime)s - %(levelname)s - %(message)s" "%Y-%m-%d %H:%M:%S")
       (snd (main offline_env args [])).
Proof. split; [reflexivity|]. vm_compute. in_list. Qed.

(** C8, as stated, fails: a command line that gives [--url] the empty
    string gives the flag; the empty string is false for [if args.url:], so
    the run is in links-file mode and writes the links file. *)
Lemma empty_url_argument_writes_the_links_file :
  a_url empty_url_args = Some ""
  /\ List.In
       (EvWriteLinks "links.txt"
          (annotate "https://example.com/a" "ERROR: NO INFO EXTRACTED") None)
       (snd (main one_url_env empty_url_args [])).
Proof. split; [reflexivity|]. vm_compute. in_list. Qed.

(** ** Classification by the text of the title *)

(** C9. The main loop classifies by the text of the returned title.  A
    download that succeeds (the record [Successfully downloaded] is logged)
    with a title equal to one of the four error texts is counted as an error
    and its line is annotated with [ERROR:]; a download that succeeds with a
    title that starts with [SKIPPED] is counted as skipped.  In general the
    counters and the new line depend on the title alone. *)
Theorem outcome_is_classified_by_title_text :
  Forall (fun title =>
            fst (run_with_title title)
            = Ok {| ls_lines := [annotate "https://example.com/a"
                                   ("ERROR: " ++ title)%string];
                    ls_stats := {| processed_count := 1; success_count := 0;
                                   error_count := 1; skipped_count := 0 |} |}
            /\ List.In (EvFetch "https://example.com/a") (snd (run_with_title title))
            /\ List.In (EvLog Info (LDownloaded title)) (snd (run_with_title title)))
         error_titles
  /\ (fst (run_with_title "SKIPPED Tracks Vol. 1")
      = Ok {| ls_lines := [annotate "https://example.com/a" "SKIPPED Tracks Vol. 1"];
              ls_stats := {| processed_count := 1; success_count := 0;
                             error_count := 0; skipped_count := 1 |} |}
      /\ List.In (EvFetch "https://example.com/a")
           (snd (run_with_title "SKIPPED Tracks Vol. 1"))
      /\ List.In (EvLog Info (LDownloaded "SKIPPED Tracks Vol. 1"))
           (snd (run_with_title "SKIPPED Tracks Vol. 1")))
  /\ (forall url title s,
        List.In title error_titles ->
        record_outcome url title s
        = ({| processed_count := processed_count s;
              success_count := success_count s;
              error_count := S (error_count s);
              skipped_count := skipped_count s |},
           annotate url ("ERROR: " ++ title)%string))
  /\ (forall url title s,
        PyStr.startswith "SKIPPED" title = true ->
        record_outcome url title s
        = ({| processed_count := processed_count s;
              success_count := success_count s;
              error_count := error_count s;
              skipped_count := S (skipped_count s) |},
           annotate url title)).
Proof.
  split.
  { unfold error_titles.
    repeat (apply List.Forall_cons;
            [split; [vm_compute; reflexivity|split; vm_compute; in_list]|]).
    apply List.Forall_nil. }
  split.
  { split; [vm_compute; reflexivity|split; vm_compute; in_list]. }
  split.
  - intros url title s Hin. simpl in Hin.
    destruct Hin as [<-|[<-|[<-|[<-|[]]]]]; reflexivity.
  - intros url title s Hs. unfold record_outcome. by rewrite Hs.
Qed.

(** ** The filter in single-URL mode *)

(** C10, amended. Single-URL mode, which the code enters for a non-empty
    [--url] only, with a URL that the filter of the loop rejects (stripped,
    it is empty, or starts with [#], or starts with neither [https://] nor
    [http://]): the run emits nothing but log records, the logging setup
    and the creation of the output directory, so there is no probe and no
    download; and it ends as its startup ends: after a startup that reaches
    the loop, the run returns normally with the summary of four zeros. *)
Theorem single_url_mode_filters_the_url env args h url :
  a_url args = Some url -> url <> "" ->
  (PyStr.strip url = ""
   \/ PyStr.startswith "#" (PyStr.strip url) = true
   \/ (PyStr.startswith "https://" (PyStr.strip url) = false
       /\ PyStr.startswith "http://" (PyStr.strip url) = false)) ->
  Forall housekeeping_event (snd (main env args h))
  /\ match startup env args h with
     | (Ok (Some _), evs0) =>
         main env args h = (Ok tt, evs0 ++ summary_events zero_stats)
     | (Ok None, evs0) => main env args h = (Ok tt, evs0)
     | (Raise e, evs0) => main env args h = (Raise e, evs0)
     end.
Proof.
  intros Hurl Hne Hfilter.
  assert (truthy_arg (a_url args) = true) as Hsingle.
  { rewrite Hurl. simpl. by destruct (String.eqb_spec url ""). }
  assert (eligible url = false) as Hskip.
  { unfold eligible, skip_line. apply negb_false_iff.
    destruct Hfilter as [->|[->|[-> ->]]]; [done| |]; by rewrite ?orb_true_r. }
  pose proof (startup_single_emits env args Hsingle h) as Hev.
  pose proof (startup_single_lines env args Hsingle h) as Hlines.
  pose proof (main_by_startup env args h) as Hmain.
  destruct (startup env args h) as [[[[config lines]|]|e] evs0];
    simpl in Hev, Hlines; [|by rewrite Hmain..].
  rewrite (Hlines _ eq_refl config lines eq_refl), Hurl in Hmain.
  change (default "" (Some url)) with url in Hmain.
  unfold bind at 1 in Hmain.
  rewrite (process_lines_skip env config (truthy_arg (Some url)) [url]
             (h ++ evs0) ltac:(by repeat constructor)) in Hmain.
  rewrite Hmain. split; [|done].
  simpl. apply Forall_app. split; [done|]. repeat constructor.
Qed.

Lemma single_url_mode_filters_the_url_witness :
  Forall housekeeping_event
    (snd (main offline_env (single_url_args "ftp://example.com/c") []))
  /\ main offline_env (single_url_args "ftp://example.com/c") []
     = (Ok tt,
        snd (startup offline_env (single_url_args "ftp://example.com/c") [])
          ++ summary_events zero_stats).
Proof.
  pose proof (single_url_mode_filters_the_url offline_env
                (single_url_args "ftp://example.com/c") [] "ftp://example.com/c"
                eq_refl ltac:(discriminate)
                ltac:(right; right; split; reflexivity)) as H.
  vm_compute in H. vm_compute. exact H.
Defined.

(** C10, as stated, fails: an empty argument of [--url] is empty after
    trimming, yet the run reads the links file and processes its entry: one
    probe, one download, and a summary that counts one processed entry. *)
Lemma empty_url_argument_processes_the_links_file :
  a_url empty_url_args = Some ""
  /\ PyStr.strip "" = ""
  /\ List.In (EvReadLinks "links.txt") (snd (main one_url_env empty_url_args []))
  /\ List.In (EvProbe "https://example.com/a")
       (snd (main one_url_env empty_url_args []))
  /\ List.In (EvFetch "https://example.com/a")
       (snd (main one_url_env empty_url_args []))
  /\ List.In (EvLog Info (LTotal 1)) (snd (main one_url_env empty_url_args [])).
Proof. repeat split; vm_compute; in_list. Qed.

(** * Further properties of the code *)

(** ** The trace of the loop *)

Section LoopRun.

Variable env : Env.
Variables (config : Config) (single : bool).

Lemma loop_body_turn i st raw h :
  ls_lines st !! i = Some raw -> eligible raw = true ->
  exists title evs_d,
    download_audio env (PyStr.strip raw) config
      (h ++ [EvLog Info (LProcessing (S (processed_count (ls_stats st)))
                           (PyStr.strip raw))])
    = (Ok title, evs_d)
    /\ match title with
       | None =>
           loop_body env config single i st h
           = (Raise (AttributeError no_startswith),
              EvLog Info (LProcessing (S (processed_count (ls_stats st)))
                            (PyStr.strip raw))
              :: evs_d)
       | Some title =>
           exists evs_w,
             (if single then ret tt
              else update_links_file env config
                     (<[i := snd (record_outcome (PyStr.strip raw) title
                                    (counted (ls_stats st)))]> (ls_lines st)))
               (((h ++ [EvLog Info (LProcessing
                                      (S (processed_count (ls_stats st)))
                                      (PyStr.strip raw))]) ++ evs_d)
                ++ [EvRewrite i (snd (record_outcome (PyStr.strip raw) title
                                        (counted (ls_stats st))))])
             = (Ok tt, evs_w)
             /\ loop_body env config single i st h
                = (Ok {| ls_lines :=
                           <[i := snd (record_outcome (PyStr.strip raw) title
                                         (counted (ls_stats st)))]>
                             (ls_lines st);
                         ls_stats := fst (record_outcome (PyStr.strip raw)
                                            title (counted (ls_stats st))) |},
                   EvLog Info (LProcessing (S (processed_count (ls_stats st)))
                                 (PyStr.strip raw))
                   :: evs_d
                   ++ EvRewrite i (snd (record_outcome (PyStr.strip raw) title
                                          (counted (ls_stats st))))
                   :: evs_w)
       end.
Proof.
  intros Hi He.
  destruct (download_audio_returns env (PyStr.strip raw) config
              (h ++ [EvLog Info (LProcessing (S (processed_count (ls_stats st)))
                                   (PyStr.strip raw))]))
    as (title & evs_d & Hd & _).
  exists title, evs_d. split; [exact Hd|].
  unfold eligible in He. apply negb_true_iff in He.
  destruct title as [title|]; unfold loop_body; rewrite Hi, He;
    unfold bind at 1; cbn [log emit];
    change (processed_count (counted (ls_stats st)))
      with (S (processed_count (ls_stats st)));
    unfold bind at 1; rewrite Hd; [|cbn; by rewrite app_nil_r].
  destruct (record_outcome (PyStr.strip raw) title (counted (ls_stats st)))
    as [stats' line] eqn:Hout.
  cbn [fst snd].
  unfold bind at 1. cbn [emit]. unfold bind at 1.
  assert (exists evs_w,
            (if single then ret tt
             else update_links_file env config (<[i:=line]> (ls_lines st)))
              (((h ++ [EvLog Info (LProcessing (S (processed_count (ls_stats st)))
                                     (PyStr.strip raw))]) ++ evs_d)
               ++ [EvRewrite i line])
            = (Ok tt, evs_w)) as [evs_w Hw].
  { destruct single; [by eexists|].
    match goal with
    | |- context [update_links_file env config ?l ?k] =>
        destruct (update_links_file_spec env config l k) as (evs_w & Hw & _)
    end.
    by exists evs_w. }
  exists evs_w. rewrite Hw. cbn. by rewrite app_nil_r.
Qed.

(** Every pass of the loop is a [loop_run]. *)
Lemma loop_run_exists n : forall k st h,
  k + n = length (ls_lines st) ->
  loop_run env config single k n st h
    (snd (for_each (loop_body env config single) (seq k n) st h))
    (fst (for_each (loop_body env config single) (seq k n) st h)).
Proof.
  induction n as [|n IH]; intros k st h Hlen; [constructor|].
  destruct (lookup_lt_is_Some_2 (ls_lines st) k ltac:(lia)) as [raw Hk].
  cbn [seq for_each]. unfold bind at 1 2.
  destruct (eligible raw) eqn:He.
  - destruct (loop_body_turn k st raw h Hk He)
      as (title & evs_d & Hd & Hturn).
    destruct title as [title|].
    + destruct Hturn as (evs_w & Hw & Hbody). rewrite Hbody.
      match goal with
      | |- context [for_each _ _ ?st1 ?h1] =>
          specialize (IH (S k) st1 h1 ltac:(simpl; rewrite length_insert; lia));
          destruct (for_each (loop_body env config single) (seq (S k) n)
                      st1 h1) as [r evs]
      end.
      cbn [fst snd] in *. cbn [app]. rewrite <- app_assoc. cbn [app].
      eapply loop_turn; eauto.
    + rewrite Hturn. cbn [fst snd]. by eapply loop_abort.
  - rewrite (loop_body_skip env config single k st raw h Hk He).
    specialize (IH (S k) st (h ++ []) ltac:(lia)).
    destruct (for_each (loop_body env config single) (seq (S k) n) st
                (h ++ [])) as [r evs].
    cbn [fst snd app] in *. rewrite app_nil_r in IH. eapply loop_skip; eauto.
Qed.

End LoopRun.

Lemma process_lines_run env config single lines h :
  loop_run env config single 0 (length lines)
    {| ls_lines := lines; ls_stats := zero_stats |} h
    (snd (process_lines env config single lines h))
    (fst (process_lines env config single lines h)).
Proof. unfold process_lines. by apply loop_run_exists. Qed.

(** ** Counting the contacts of one download *)

Section AtMostFacts.

Context {A B : Type}.
Implicit Types (c : Event -> bool).

Lemma at_most_zero c (m : M A) :
  emits_only (fun e => c e = false) m -> at_most c 0 m.
Proof.
  intros Hm h. specialize (Hm h). unfold count_if.
  induction Hm as [|e evs He _ IH]; [done|]. simpl. by rewrite He.
Qed.

Lemma at_most_le c n n' (m : M A) : n <= n' -> at_most c n m -> at_most c n' m.
Proof. intros Hle Hm h. specialize (Hm h). lia. Qed.

Lemma at_most_bind c a b (m : M A) (f : A -> M B) :
  at_most c a m -> (forall x, at_most c b (f x)) -> at_most c (a + b) (bind m f).
Proof.
  intros Hm Hf h. unfold bind. specialize (Hm h).
  destruct (m h) as [[x|e] e1]; simpl in *; [|lia].
  specialize (Hf x (h ++ e1)). destruct (f x (h ++ e1)) as [r e2]; simpl in *.
  unfold count_if in *. rewrite List.filter_app, length_app. lia.
Qed.

Lemma at_most_try c a b (m : M A) (handler : Exn -> M A) :
  at_most c a m -> (forall x, at_most c b (handler x)) ->
  at_most c (a + b) (try_catch m handler).
Proof.
  intros Hm Hf h. unfold try_catch. specialize (Hm h).
  destruct (m h) as [[x|e] e1]; simpl in *; [lia|].
  specialize (Hf e (h ++ e1)). destruct (handler e (h ++ e1)) as [r e2]; simpl in *.
  unfold count_if in *. rewrite List.filter_app, length_app. lia.
Qed.

End AtMostFacts.

Section ContactFacts.

Variable env : Env.

Lemma check_file_exists_emits_walks url info config :
  emits_only walk_event (check_file_exists env url info config).
Proof.
  unfold check_file_exists. emits; try (intros h; repeat constructor).
Qed.

Lemma progress_hook_emits_notices self d :
  emits_only notice_event (progress_hook env self d).
Proof. unfold progress_hook. emits. Qed.

Lemma extract_info_download_contact opts url handler :
  emits_only (contact_event url) (extract_info_download env opts url handler).
Proof.
  intros h. unfold extract_info_download.
  destruct (fetch env h opts url) as [dicts r].
  revert h. change (emits_only (contact_event url)
    (emit (EvFetch url) ;; run_hooks env dicts handler ;; lift r)).
  unfold run_hooks. emits; [by apply emits_emit|].
  eapply emits_weaken; [|apply progress_hook_emits_notices].
  by intros [[] []| | | | | | | | |].
Qed.

(** [download_audio url] contacts the site for [url] only. *)
Lemma download_audio_contact url config :
  emits_only (contact_event url) (download_audio env url config).
Proof.
  unfold download_audio, download_audio_body, download_audio_except,
    create_ydl_opts, DownloadProgress_init.
  emits;
    try apply extract_info_download_contact;
    try (eapply emits_weaken; [|apply check_file_exists_emits_walks];
         by intros []);
    try (intros h; repeat constructor; done).
  apply emits_emit. simpl. unfold download_error_log.
  repeat match goal with |- context [if ?b then _ else _] => destruct b end;
    exact I.
Qed.

End ContactFacts.

Lemma at_most_none {A} (c : Event -> bool) (P : Event -> Prop) (m : M A) :
  (forall e, P e -> c e = false) -> emits_only P m -> at_most c 0 m.
Proof.
  intros HP Hm. apply at_most_zero. eapply emits_weaken; [exact HP|exact Hm].
Qed.

Section OnceFacts.

Variable env : Env.

(** A download starts with its [Fetch] event; the rest is what the progress
    hook emits. *)
Lemma extract_info_download_shape opts url handler h :
  exists notices,
    snd (extract_info_download env opts url handler h) = EvFetch url :: notices
    /\ Forall notice_event notices.
Proof.
  unfold extract_info_download. destruct (fetch env h opts url) as [dicts r].
  unfold bind at 1. cbn [emit].
  assert (emits_only notice_event (run_hooks env dicts handler ;; lift r)) as He.
  { unfold run_hooks. emits. apply progress_hook_emits_notices. }
  specialize (He (h ++ [EvFetch url])).
  destruct ((run_hooks env dicts handler ;; lift r) (h ++ [EvFetch url]))
    as [r' evs]. by exists evs.
Qed.

Lemma extract_info_download_no_probe opts url handler :
  emits_only not_probe (extract_info_download env opts url handler).
Proof.
  intros h. destruct (extract_info_download_shape opts url handler h)
    as (notices & -> & Hn).
  constructor; [exact I|]. eapply Forall_impl; [exact Hn|]. by intros [[] []| | | | | | | | |].
Qed.

Lemma extract_info_download_one_fetch opts url handler :
  at_most is_fetch_b 1 (extract_info_download env opts url handler).
Proof.
  intros h. destruct (extract_info_download_shape opts url handler h)
    as (notices & -> & Hn).
  unfold count_if. simpl. apply le_n_S.
  induction Hn as [|e evs He _ IH]; [done|].
  simpl. by destruct e as [[] []| | | | | | | | |].
Qed.

Lemma probe_phase_no_fetch url config opts :
  emits_only not_fetch
    (try_catch
       (info_dict <- extract_info_probe env opts url ;;
        match info_dict with
        | Some _ =>
            r <- check_file_exists env url info_dict config ;;
            match r with
            | (true, existing_file) =>
                log Info (LAlreadyExists existing_file) ;;
                match existing_file with
                | Some path =>
                    ret (Some ("SKIPPED (exists: "
                               ++ PyStr.basename path ++ ")")%string)
                | None => raise (TypeError "basename")
                end
            | (false, _) => ret None
            end
        | None => ret None
        end)
       (fun _ => ret None)).
Proof.
  emits;
    try (eapply emits_weaken; [|apply check_file_exists_emits_walks];
         by intros []).
  intros h. repeat constructor.
Qed.

Lemma probe_phase_one_probe url config opts :
  at_most is_probe_b 1
    (try_catch
       (info_dict <- extract_info_probe env opts url ;;
        match info_dict with
        | Some _ =>
            r <- check_file_exists env url info_dict config ;;
            match r with
            | (true, existing_file) =>
                log Info (LAlreadyExists existing_file) ;;
                match existing_file with
                | Some path =>
                    ret (Some ("SKIPPED (exists: "
                               ++ PyStr.basename path ++ ")")%string)
                | None => raise (TypeError "basename")
                end
            | (false, _) => ret None
            end
        | None => ret None
        end)
       (fun _ => ret None)).
Proof.
  apply (at_most_try _ 1 0).
  - apply (at_most_bind _ 1 0); [intros h; simpl; done|].
    intros info. apply (at_most_none _ not_probe); [by intros []|].
    emits. eapply emits_weaken; [|apply check_file_exists_emits_walks].
    by intros [].
  - intros x. apply (at_most_none _ not_probe); [by intros []|]. emits.
Qed.

(** No retries: one call of [download_audio] probes at most once and
    downloads at most once. *)
Lemma download_audio_probes_once url config :
  at_most is_probe_b 1 (download_audio env url config).
Proof.
  unfold download_audio. apply (at_most_try _ 1 0).
  - unfold download_audio_body. apply (at_most_bind _ 0 1).
    { apply (at_most_none _ not_probe); [by intros []|].
      unfold create_ydl_opts. emits. }
    intros opts. apply (at_most_bind _ 1 0); [apply probe_phase_one_probe|].
    intros early. apply (at_most_none _ not_probe); [by intros []|].
    unfold DownloadProgress_init. emits. apply extract_info_download_no_probe.
  - intros x. apply (at_most_none _ not_probe); [by intros []|].
    unfold download_audio_except. emits.
Qed.

Lemma download_audio_fetches_once url config :
  at_most is_fetch_b 1 (download_audio env url config).
Proof.
  unfold download_audio. apply (at_most_try _ 1 0).
  - unfold download_audio_body. apply (at_most_bind _ 0 1).
    { apply (at_most_none _ not_fetch); [by intros []|].
      unfold create_ydl_opts. emits. }
    intros opts. apply (at_most_bind _ 0 1).
    { apply (at_most_none _ not_fetch); [by intros []|].
      apply probe_phase_no_fetch. }
    intros [title|].
    { apply (at_most_le _ 0); [lia|].
      apply (at_most_none _ not_fetch); [by intros []|]. emits. }
    apply (at_most_bind _ 0 1).
    { apply (at_most_none _ not_fetch); [by intros []|].
      unfold DownloadProgress_init. emits. }
    intros handler. apply (at_most_bind _ 0 1).
    { apply (at_most_none _ not_fetch); [by intros []|]. emits. }
    intros _. apply (at_most_bind _ 1 0); [apply extract_info_download_one_fetch|].
    intros info. apply (at_most_none _ not_fetch); [by intros []|]. emits.
  - intros x. apply (at_most_none _ not_fetch); [by intros []|].
    unfold download_audio_except. emits.
Qed.

End OnceFacts.

(** ** What a run does, read off its trace *)

Lemma processing_log_app a b :
  processing_log (a ++ b) = processing_log a ++ processing_log b.
Proof.
  induction a as [|e a IH]; [done|].
  destruct e as [lv []| | | | | | | | |]; simpl; by rewrite ?IH.
Qed.

Lemma fetched_app a b : fetched (a ++ b) = fetched a ++ fetched b.
Proof. induction a as [|[] a IH]; simpl; by rewrite ?IH. Qed.

Lemma probed_app a b : probed (a ++ b) = probed a ++ probed b.
Proof. induction a as [|[] a IH]; simpl; by rewrite ?IH. Qed.

Lemma contact_no_processing url evs :
  Forall (contact_event url) evs -> processing_log evs = [].
Proof.
  induction 1 as [|e evs He _ IH]; [done|].
  by destruct e as [lv []| | | | | | | | |].
Qed.

Lemma contact_no_write url evs :
  Forall (contact_event url) evs -> write_attempts evs = [].
Proof.
  induction 1 as [|e evs He _ IH]; [done|].
  by destruct e as [lv []| | | | | | | | |].
Qed.

Lemma contact_fetched url evs :
  Forall (contact_event url) evs ->
  fetched evs = repeat url (count_if is_fetch_b evs).
Proof.
  unfold count_if. induction 1 as [|e evs He _ IH]; [done|].
  destruct e as [lv []| | | | | | | | |]; simpl in *; try done.
  by rewrite He, IH.
Qed.

Lemma contact_probed url evs :
  Forall (contact_event url) evs ->
  probed evs = repeat url (count_if is_probe_b evs).
Proof.
  unfold count_if. induction 1 as [|e evs He _ IH]; [done|].
  destruct e as [lv []| | | | | | | | |]; simpl in *; try done.
  by rewrite He, IH.
Qed.

Lemma flush_silent evs :
  Forall flush_event evs ->
  processing_log evs = [] /\ fetched evs = [] /\ probed evs = [].
Proof.
  induction 1 as [|e evs He _ IH]; [done|].
  by destruct e as [lv []| | | | | | | | |].
Qed.

Lemma at_most_one_sublist url n (rest : list string) :
  n <= 1 -> repeat url n ++ rest `sublist_of` url :: rest.
Proof.
  intros Hn. destruct n as [|[|n]]; [|done|lia].
  simpl. by apply sublist_cons_r; left.
Qed.

Section RunFacts.

Variable env : Env.
Variables (config : Config) (single : bool).

Lemma flush_emits_flush lines :
  emits_only flush_event
    (if single then ret tt else update_links_file env config lines).
Proof.
  destruct single; [emits|]. unfold update_links_file. emits.
  intros h. unfold write_links.
  destruct (write_error env h _ _); by repeat constructor.
Qed.

Lemma eligible_urls_turn k (lines : list string) raw :
  lines !! k = Some raw ->
  eligible_urls (drop k lines)
  = (if eligible raw then [PyStr.strip raw] else [])
      ++ eligible_urls (drop (S k) lines).
Proof.
  intros Hk. rewrite (drop_S _ _ _ Hk). unfold eligible_urls. simpl.
  by destruct (eligible raw).
Qed.

Lemma at_most_one_of url n (rest : list string) :
  n <= 1 -> repeat url n `sublist_of` url :: rest.
Proof.
  intros Hn. destruct n as [|[|n]]; [apply sublist_nil_l| |lia].
  simpl. apply sublist_skip, sublist_nil_l.
Qed.

(** What one call of [download_audio] from the loop contributes. *)
Lemma download_contribution url h title evs_d :
  download_audio env url config h = (Ok title, evs_d) ->
  processing_log evs_d = []
  /\ write_attempts evs_d = []
  /\ (exists n, n <= 1 /\ fetched evs_d = repeat url n)
  /\ (exists n, n <= 1 /\ probed evs_d = repeat url n).
Proof.
  intros Hd.
  pose proof (download_audio_contact env url config h) as Hc.
  pose proof (download_audio_fetches_once env url config h) as Hf1.
  pose proof (download_audio_probes_once env url config h) as Hp1.
  rewrite Hd in Hc, Hf1, Hp1. simpl in Hc, Hf1, Hp1.
  split; [by eapply contact_no_processing|].
  split; [by eapply contact_no_write|].
  split.
  - exists (count_if is_fetch_b evs_d). split; [done|by apply contact_fetched].
  - exists (count_if is_probe_b evs_d). split; [done|by apply contact_probed].
Qed.

(** The records, probes and downloads of the turns [k, ..., k+n-1]. *)
Lemma loop_run_contacts k n st h evs r :
  loop_run env config single k n st h evs r ->
  k + n = length (ls_lines st) ->
  processing_log evs
    `prefix_of` numbered (S (processed_count (ls_stats st)))
                  (eligible_urls (drop k (ls_lines st)))
  /\ (forall st', r = Ok st' ->
        processing_log evs
        = numbered (S (processed_count (ls_stats st)))
            (eligible_urls (drop k (ls_lines st))))
  /\ fetched evs `sublist_of` eligible_urls (drop k (ls_lines st))
  /\ probed evs `sublist_of` eligible_urls (drop k (ls_lines st)).
Proof.
  induction 1 as [k st h
                 |k n st h raw evs r Hk Hel _ IH
                 |k n st h raw evs_d Hk Hel Hd
                 |k n st h raw title evs_d evs_w evs r Hk Hel Hd Hw _ IH];
    intros Hlen.
  - rewrite drop_ge by lia. by repeat split.
  - rewrite (eligible_urls_turn _ _ _ Hk), Hel. apply IH. lia.
  - rewrite (eligible_urls_turn _ _ _ Hk), Hel.
    destruct (download_contribution _ _ _ _ Hd)
      as (Hp & _ & (nf & Hnf & Hf) & (np & Hnp & Ho)).
    cbn [processing_log fetched probed app numbered]. rewrite Hp, Hf, Ho.
    repeat split; [by eexists|done
                  |by apply at_most_one_of|by apply at_most_one_of].
  - rewrite (eligible_urls_turn _ _ _ Hk), Hel.
    set (url := PyStr.strip raw) in *.
    set (out := record_outcome url title (counted (ls_stats st))) in *.
    assert (k < length (ls_lines st)) as Hlt by (by eapply lookup_lt_Some).
    simpl in IH. rewrite length_insert in IH. specialize (IH ltac:(lia)).
    rewrite drop_insert_lt in IH by lia.
    destruct (record_outcome_counts url title (counted (ls_stats st)))
      as [Hpc _].
    fold out in Hpc. rewrite Hpc in IH. simpl in IH.
    destruct IH as (IHp & IHe & IHf & IHo).
    destruct (download_contribution _ _ _ _ Hd)
      as (Hp & _ & (nf & Hnf & Hf) & (np & Hnp & Ho)).
    pose proof (flush_emits_flush (<[k := snd out]> (ls_lines st))
                  (((h ++ [EvLog Info (LProcessing
                                         (S (processed_count (ls_stats st)))
                                         url)]) ++ evs_d)
                   ++ [EvRewrite k (snd out)])) as Hfl.
    rewrite Hw in Hfl.
    simpl in Hfl. apply flush_silent in Hfl as (Hwp & Hwf & Hwo).
    assert (processing_log
              (EvLog Info (LProcessing (S (processed_count (ls_stats st))) url)
               :: evs_d ++ EvRewrite k (snd out) :: evs_w ++ evs)
            = (S (processed_count (ls_stats st)), url) :: processing_log evs)
      as ->.
    { simpl. rewrite processing_log_app. simpl. rewrite processing_log_app.
      by rewrite Hp, Hwp. }
    repeat split.
    + destruct IHp as [rest Hrest]. exists rest. simpl. by rewrite Hrest.
    + intros st' ->. simpl. f_equal. by eapply IHe.
    + simpl. rewrite fetched_app. simpl. rewrite fetched_app, Hwf, Hf. simpl.
      etrans; [apply sublist_app; [reflexivity|exact IHf]|].
      by apply at_most_one_sublist.
    + simpl. rewrite probed_app. simpl. rewrite probed_app, Hwo, Ho. simpl.
      etrans; [apply sublist_app; [reflexivity|exact IHo]|].
      by apply at_most_one_sublist.
Qed.

End RunFacts.




Section WriteFacts.

Variable env : Env.
Variables (config : Config) (single : bool).



End WriteFacts.

(** X1. Processing order.  In a pass of the loop, in either mode and in any
    surroundings, the [Processing n: url] records follow the lines that
    pass the filter: they are numbered from 1 without gaps, in the order of
    the file, each with the stripped text of its line as the URL, and no
    line is passed over or taken twice.  A pass that returns has logged one
    record for every such line; a pass that ends early has logged them for
    an initial part of these lines. *)
Theorem entries_are_processed_in_file_order env config single
    (lines : list string) h :
  processing_log (snd (process_lines env config single lines h))
    `prefix_of` numbered 1 (eligible_urls lines)
  /\ forall st,
       fst (process_lines env config single lines h) = Ok st ->
       processing_log (snd (process_lines env config single lines h))
       = numbered 1 (eligible_urls lines).
Proof.
  destruct (loop_run_contacts _ _ _ _ _ _ _ _ _
              (process_lines_run env config single lines h) eq_refl)
    as (Hp & He & _).
  split; [exact Hp|]. intros st Hst. by eapply He.
Qed.

(** X2. No retries, no stray contacts.  In a pass of the loop, however it
    ends, the URLs downloaded, in order, form a sublist of the stripped
    eligible lines, and so do the URLs probed: a line leads to at most one
    probe and at most one download, both for its own URL, and nothing else
    is contacted. *)
Theorem each_entry_is_contacted_at_most_once env config single
    (lines : list string) h :
  fetched (snd (process_lines env config single lines h))
    `sublist_of` eligible_urls lines
  /\ probed (snd (process_lines env config single lines h))
       `sublist_of` eligible_urls lines.
Proof.
  by destruct (loop_run_contacts _ _ _ _ _ _ _ _ _
                 (process_lines_run env config single lines h) eq_refl)
    as (_ & _ & Hf).
Qed.


(** X4. A second pass is idle.  After a pass of the loop that returned, in
    either mode, no line of the list passes the filter any more: a further
    pass over the resulting list, in any surroundings and with any
    configuration, emits nothing, counts nothing and leaves the list as it
    is. *)
Theorem rerun_processes_nothing env config single (lines : list string) h
    st evs :
  process_lines env config single lines h = (Ok st, evs) ->
  forall env' config' single' h',
    process_lines env' config' single' (ls_lines st) h'
    = (Ok {| ls_lines := ls_lines st; ls_stats := zero_stats |}, []).
Proof.
  intros Hrun.
  pose proof (loop_invariant env config single (length lines) 0
                {| ls_lines := lines; ls_stats := zero_stats |} h eq_refl)
    as Hinv.
  unfold process_lines in Hrun. rewrite Hrun in Hinv.
  destruct Hinv as (Hlen & _ & Hafter & _).
  simpl in Hlen, Hafter. intros env' config' single' h'.
  apply process_lines_skip. apply Forall_lookup. intros i l Hl.
  assert (i < length lines) as Hi
    by (rewrite <- Hlen; by eapply lookup_lt_Some).
  destruct (lookup_lt_is_Some_2 lines i Hi) as [raw Hraw].
  specialize (Hafter i raw ltac:(lia) Hraw).
  destruct (eligible raw) eqn:Hel.
  - destruct Hafter as [[summary Hs] _]. rewrite Hl in Hs. injection Hs as ->.
    apply annotated_not_eligible.
  - destruct Hafter as [Hs _]. rewrite Hl in Hs. by injection Hs as ->.
Qed.

Lemma rerun_processes_nothing_witness :
  exists st,
    fst (process_lines
           (flaky_env "https://example.com/a" "HTTP Error 404: Not Found")
           get_default_config false sample_lines [])
    = Ok st
    /\ process_lines offline_env get_default_config false (ls_lines st) []
       = (Ok {| ls_lines := ls_lines st; ls_stats := zero_stats |}, []).
Proof.
  eexists. split; [vm_compute; reflexivity|].
  eapply (rerun_processes_nothing
            (flaky_env "https://example.com/a" "HTTP Error 404: Not Found")
            get_default_config false sample_lines []).
  vm_compute. reflexivity.
Defined.

(** ** One download, case by case *)

Lemma scan_tree_sound title ext tree path :
  scan_tree title ext tree = Some path ->
  exists root files file,
    List.In (root, files) tree /\ List.In file files
    /\ file_matches title ext file = true
    /\ path = PyStr.path_join root file.
Proof.
  induction tree as [|[r fs] rest IH]; [done|]. simpl.
  destruct (List.find (file_matches title ext) fs) as [f|] eqn:Hfind.
  - intros [= <-]. destruct (List.find_some _ _ Hfind) as [Hin Hm].
    exists r, fs, f. repeat split; [by left|done|done].
  - intros Hs. destruct (IH Hs) as (root & files & file & Hin & Hf & Hm & ->).
    exists root, files, file. repeat split; [by right|done|done].
Qed.

Lemma get2_result {B A} block (pb : Config -> option B) field
    (pf : B -> option A) config :
  (exists a, get2 block pb field pf config = Ok a)
  \/ (exists key, get2 block pb field pf config = Raise (KeyError key)).
Proof.
  unfold get2, getitem. destruct (pb config) as [b|]; [|by right; eexists].
  destruct (pf b); [left|right]; by eexists.
Qed.

Lemma create_ydl_opts_result config h :
  (exists opts, create_ydl_opts config h = (Ok opts, []))
  \/ (exists key, create_ydl_opts config h = (Raise (KeyError key), [])).
Proof.
  unfold create_ydl_opts, bind, lift, ret.
  destruct (get2_result "paths" paths "output_dir" output_dir config)
    as [[? ->]|[? ->]]; [|by right; eexists].
  destruct (get2_result "behavior" behavior "quiet_download" quiet_download config)
    as [[? ->]|[? ->]]; [|by right; eexists].
  destruct (get2_result "audio" audio "codec" codec config)
    as [[? ->]|[? ->]]; [|by right; eexists].
  destruct (get2_result "audio" audio "quality" quality config)
    as [[? ->]|[? ->]]; [|by right; eexists].
  destruct (get2_result "audio" audio "sample_rate" sample_rate config)
    as [[? ->]|[? ->]]; [|by right; eexists].
  left. by eexists.
Qed.

Lemma DownloadProgress_init_result url config h :
  (exists handler, DownloadProgress_init url config h = (Ok handler, []))
  \/ (exists key,
        DownloadProgress_init url config h = (Raise (KeyError key), [])).
Proof.
  unfold DownloadProgress_init, bind, lift, ret.
  destruct (get2_result "behavior" behavior "progress_update_interval"
              progress_update_interval config)
    as [[? ->]|[? ->]]; [left|right]; by eexists.
Qed.

Section DetectorFacts.

Variable env : Env.

(** What [check_file_exists] reports is a file of the walk that passes its
    test. *)
Lemma check_file_exists_sound url info_dict config h found path evs :
  check_file_exists env url info_dict config h = (Ok (found, path), evs) ->
  if found then
    get2 "behavior" behavior "skip_existing" skip_existing config = Ok true
    /\ exists dir ext key root files file h',
         get2 "paths" paths "output_dir" output_dir config = Ok dir
         /\ get2 "audio" audio "codec" codec config = Ok ext
         /\ search_key url info_dict key
         /\ List.In (root, files) (walk env h' dir)
         /\ List.In file files
         /\ file_matches key ext file = true
         /\ path = Some (PyStr.path_join root file)
  else path = None.
Proof.
  unfold check_file_exists, bind, lift, ret, os_walk.
  destruct (get2 "behavior" behavior "skip_existing" skip_existing config)
    as [[|]|e]; simpl; [|by intros [= <- <- <-]|done].
  destruct (get2 "paths" paths "output_dir" output_dir config) as [dir|e];
    destruct (get2 "audio" audio "codec" codec config) as [ext|e'];
    destruct info_dict as [[[| |title] d fs fa]|]; simpl;
    try destruct (negb (title =? "")%string) eqn:Hne; simpl; try done.
  all: repeat match goal with
         | |- context [scan_tree ?t ?e ?tr] =>
             let Hs := fresh "Hs" in
             destruct (scan_tree t e tr) eqn:Hs; simpl
         end.
  all: intros [= <- <- <-]; try done.
  all: split; [done|].
  all: match goal with
       | Hs : scan_tree ?key _ (walk _ ?h' _) = Some _ |- _ =>
           destruct (scan_tree_sound _ _ _ _ Hs)
             as (root & files & file & Hin & Hf & Hm & ->);
           exists dir, ext, key, root, files, file, h'
       end.
  all: repeat split; try done.
  all: try (by left).
  right. eexists. repeat split. simpl.
  apply negb_true_iff, String.eqb_neq in Hne. done.
Qed.

Lemma check_file_exists_names_the_file url info_dict config :
  returns_only (fun r => fst r = true -> exists path, snd r = Some path)
    (check_file_exists env url info_dict config).
Proof.
  intros h [found path] Hr. simpl. intros ->.
  destruct (check_file_exists env url info_dict config h) as [r evs] eqn:Hc.
  simpl in Hr. subst r.
  destruct (check_file_exists_sound _ _ _ _ _ _ _ Hc)
    as (_ & dir & ext & key & root & files & file & h' & _ & _ & _ & _ & _ & _
        & ->).
  by eexists.
Qed.

Lemma check_file_exists_off url info_dict config :
  get2 "behavior" behavior "skip_existing" skip_existing config <> Ok true ->
  emits_only (fun _ => False) (check_file_exists env url info_dict config)
  /\ returns_only (fun r => fst r = false)
       (check_file_exists env url info_dict config).
Proof.
  intros Hoff. unfold check_file_exists, bind, lift, ret.
  destruct (get2 "behavior" behavior "skip_existing" skip_existing config)
    as [[|]|e]; [done| |]; split; intros h; simpl; try done.
  by intros a [= <-].
Qed.

End DetectorFacts.

Lemma walks_not_fetched evs : Forall walk_event evs -> fetched evs = [].
Proof. induction 1 as [|[] ? ? ? IH]; simpl; done. Qed.

Section OutcomeFacts.

Variable env : Env.

(** The first call of [extract_info] and the check for an existing file:
    never an exception, never a download; it ends the processing of the URL
    only with the [SKIPPED] outcome of a file that was reported. *)
Lemma probe_phase_result url config opts h :
  exists early evs,
    try_catch
      (info_dict <- extract_info_probe env opts url ;;
       match info_dict with
       | Some _ =>
           r <- check_file_exists env url info_dict config ;;
           match r with
           | (true, existing_file) =>
               log Info (LAlreadyExists existing_file) ;;
               match existing_file with
               | Some path =>
                   ret (Some ("SKIPPED (exists: "
                              ++ PyStr.basename path ++ ")")%string)
               | None => raise (TypeError "basename")
               end
           | (false, _) => ret None
           end
       | None => ret None
       end)
      (fun _ => ret None) h
    = (Ok early, evs)
    /\ fetched evs = []
    /\ forall title, early = Some title ->
         exists path,
           title = ("SKIPPED (exists: " ++ PyStr.basename path ++ ")")%string
           /\ List.In (EvLog Info (LAlreadyExists (Some path))) evs.
Proof.
  unfold try_catch, extract_info_probe. unfold bind at 1.
  destruct (probe env h opts url) as [[info|]|e]; simpl;
    [|by eexists _, _|by eexists _, _].
  unfold bind at 1.
  pose proof (check_file_exists_emits_walks env url (Some info) config
                (h ++ [EvProbe url])) as Hwalks.
  pose proof (check_file_exists_names_the_file env url (Some info) config
                (h ++ [EvProbe url])) as Hnamed.
  destruct (check_file_exists env url (Some info) config (h ++ [EvProbe url]))
    as [[[[|] path]|e] evs_c]; simpl in *.
  - destruct (Hnamed _ eq_refl eq_refl) as [p Hp]. simpl in Hp. subst path.
    eexists _, _. split; [reflexivity|]. split.
    + cbn [fetched]. rewrite !fetched_app, (walks_not_fetched _ Hwalks). done.
    + intros title [= <-]. exists p. split; [done|].
      right. apply in_or_app. right. by left.
  - eexists _, _. split; [reflexivity|]. split; [|done].
    cbn [fetched]. by rewrite !fetched_app, (walks_not_fetched _ Hwalks).
  - eexists _, _. split; [reflexivity|]. split; [|done].
    cbn [fetched]. by rewrite !fetched_app, (walks_not_fetched _ Hwalks).
Qed.

Lemma notices_not_fetched evs : Forall notice_event evs -> fetched evs = [].
Proof. induction 1 as [|[? []| | | | | | | | |] ? ? ? IH]; simpl; done. Qed.

Lemma download_phase_fetches url opts handler h :
  exists r evs,
    (log Info (LStarting url) ;;
     info_dict <- extract_info_download env opts url handler ;;
     match info_dict with
     | Some info =>
         let title := dict_get (md_title info) "Unknown Title" in
         let duration := default 0%float (md_duration info) in
         let filesize :=
           if truthy_float (default 0%float (md_filesize info))
           then default 0%float (md_filesize info)
           else default 0%float (md_filesize_approx info) in
         log Info (LDownloaded (str_of title)) ;;
         (if truthy_float duration then log Info (LDuration duration)
          else ret tt) ;;
         (if truthy_float filesize
          then log Info (LFileSize (PrimFloat.div filesize 1048576%float))
          else ret tt) ;;
         ret title
     | None => log Error (LNoInfo url) ;; ret (Some "NO INFO EXTRACTED")
     end) h
    = (r, evs)
    /\ fetched evs = [url].
Proof.
  unfold bind at 1. unfold log at 1, emit at 1. unfold bind at 1.
  destruct (extract_info_download_shape env opts url handler
              (h ++ [EvLog Info (LStarting url)])) as (notices & Hev & Hn).
  destruct (extract_info_download env opts url handler
              (h ++ [EvLog Info (LStarting url)])) as [[info|e] evs_f];
    simpl in Hev; subst evs_f.
  - match goal with
    | |- context [let '(r, e2) := ?m ?hh in _] =>
        assert (emits_only is_log m) as Hlogs
          by (destruct info as [info|]; emits);
        specialize (Hlogs hh); destruct (m hh) as [r evs_l]
    end.
    simpl in Hlogs. eexists _, _. split; [reflexivity|].
    simpl. rewrite fetched_app, (notices_not_fetched _ Hn). simpl.
    f_equal. clear -Hlogs. induction Hlogs as [|[] ? ? ? IH]; simpl; done.
  - eexists _, _. split; [reflexivity|]. simpl.
    by rewrite (notices_not_fetched _ Hn).
Qed.

End OutcomeFacts.

Lemma download_audio_except_result url e h :
  exists title msg,
    download_audio_except url e h = (Ok title, [EvLog Error msg]).
Proof. destruct e; by eexists _, _. Qed.

(** X5. One download per URL, or a stated reason.  [download_audio] never
    raises, in any surroundings and with any configuration, and exactly one
    of three things happens: the download of the URL is started, once (also
    when the probe raised or found nothing); or nothing is downloaded and
    the outcome is [SKIPPED (exists: <base name>)] for a file that was
    reported as existing; or nothing is downloaded because the
    configuration lacks a setting, the [KeyError] is logged and the outcome
    is [UNEXPECTED ERROR]. *)
Theorem one_download_unless_skipped_or_misconfigured env url config h :
  exists title evs,
    download_audio env url config h = (Ok title, evs)
    /\ (fetched evs = [url]
        \/ (fetched evs = []
            /\ exists path,
                 title = Some ("SKIPPED (exists: " ++ PyStr.basename path
                               ++ ")")%string
                 /\ List.In (EvLog Info (LAlreadyExists (Some path))) evs)
        \/ (fetched evs = []
            /\ title = Some "UNEXPECTED ERROR"
            /\ exists key,
                 List.In (EvLog Error (LUnexpectedError url (KeyError key))) evs)).
Proof.
  unfold download_audio. unfold try_catch at 1. unfold download_audio_body.
  unfold bind at 1.
  destruct (create_ydl_opts_result config h) as [[opts ->]|[key ->]].
  2:{ eexists _, _. split; [reflexivity|]. right; right.
      repeat split. exists key. by left. }
  unfold bind at 1.
  match goal with
  | |- context [try_catch ?m ?f ?hh] =>
      destruct (probe_phase_result env url config (set_quiet opts) hh)
        as (early & evs1 & -> & Hf1 & Hsk)
  end.
  destruct early as [title|].
  { destruct (Hsk title eq_refl) as (path & -> & Hin).
    eexists _, _. split; [reflexivity|]. right; left.
    simpl. rewrite app_nil_r. split; [done|]. by exists path. }
  clear Hsk. unfold bind at 1.
  match goal with
  | |- context [DownloadProgress_init url config ?hh] =>
      destruct (DownloadProgress_init_result url config hh)
        as [[handler ->]|[key ->]]
  end.
  2:{ eexists _, _. split; [reflexivity|]. right; right. simpl.
      rewrite app_nil_r, fetched_app, Hf1. repeat split.
      exists key. apply in_or_app. right. by left. }
  match goal with
  | |- context [let '(r, e2) := ?m ?hh in _] =>
      change m with
        (log Info (LStarting url) ;;
         info_dict <- extract_info_download env (set_progress_hooks opts) url
                        handler ;;
         match info_dict with
         | Some info =>
             let title := dict_get (md_title info) "Unknown Title" in
             let duration := default 0%float (md_duration info) in
             let filesize :=
               if truthy_float (default 0%float (md_filesize info))
               then default 0%float (md_filesize info)
               else default 0%float (md_filesize_approx info) in
             log Info (LDownloaded (str_of title)) ;;
             (if truthy_float duration then log Info (LDuration duration)
              else ret tt) ;;
             (if truthy_float filesize
              then log Info (LFileSize (PrimFloat.div filesize 1048576%float))
              else ret tt) ;;
             ret title
         | None => log Error (LNoInfo url) ;; ret (Some "NO INFO EXTRACTED")
         end);
      destruct (download_phase_fetches env url (set_progress_hooks opts)
                  handler hh) as (r & evs2 & -> & Hf2)
  end.
  destruct r as [title|e].
  - eexists _, _. split; [reflexivity|]. left. simpl.
    by rewrite fetched_app, Hf1, Hf2.
  - match goal with
    | |- context [download_audio_except url e ?hh] =>
        destruct (download_audio_except_result url e hh)
          as (title & msg & ->)
    end.
    eexists _, _. split; [reflexivity|]. left. simpl.
    by rewrite !fetched_app, Hf1, Hf2.
Qed.

(** X6. The detector reports only files that are there.  When
    [check_file_exists] answers that a file exists, the detector is enabled
    and the path it names is [os.path.join root file] for a file that
    [os.walk] of the configured output directory listed, whose name ends
    with ["." ++ codec] and contains, case ignored, the title of the
    metadata or the last segment of the URL; when it answers that no file
    exists it names no path.  In particular it never answers
    [(True, None)]. *)
Theorem detector_reports_a_listed_match
    env url info_dict config h found path evs :
  check_file_exists env url info_dict config h = (Ok (found, path), evs) ->
  if found then
    get2 "behavior" behavior "skip_existing" skip_existing config = Ok true
    /\ exists dir ext key root files file h',
         get2 "paths" paths "output_dir" output_dir config = Ok dir
         /\ get2 "audio" audio "codec" codec config = Ok ext
         /\ search_key url info_dict key
         /\ List.In (root, files) (walk env h' dir)
         /\ List.In file files
         /\ file_matches key ext file = true
         /\ path = Some (PyStr.path_join root file)
  else path = None.
Proof. apply check_file_exists_sound. Qed.

Lemma detector_reports_a_listed_match_witness :
  get2 "behavior" behavior "skip_existing" skip_existing get_default_config
  = Ok true
  /\ exists dir ext key root files file h',
       get2 "paths" paths "output_dir" output_dir get_default_config = Ok dir
       /\ get2 "audio" audio "codec" codec get_default_config = Ok ext
       /\ search_key "https://example.com/watch"
            (Some (sample_metadata "My Song")) key
       /\ List.In (root, files) (walk song_env_live h' dir)
       /\ List.In file files
       /\ file_matches key ext file = true
       /\ Some "./audiodownloads/live/My Song.mp3"
          = Some (PyStr.path_join root file).
Proof.
  exact (detector_reports_a_listed_match song_env_live
           "https://example.com/watch" (Some (sample_metadata "My Song"))
           get_default_config [] true
           (Some "./audiodownloads/live/My Song.mp3")
           [EvWalk "./audiodownloads"] eq_refl).
Defined.

(** X7. A detector that is switched off scans nothing.  Unless the
    configuration has [behavior.skip_existing] set to true,
    [download_audio] never walks the output directory and never logs that
    a file already exists. *)
Theorem disabled_detector_never_scans env url config :
  get2 "behavior" behavior "skip_existing" skip_existing config <> Ok true ->
  emits_only no_scan_event (download_audio env url config).
Proof.
  intros Hoff. unfold download_audio. apply emits_try.
  2:{ intros e. unfold download_audio_except, download_error_log. emits.
      apply emits_emit. by repeat case_match. }
  unfold download_audio_body. apply emits_bind.
  { unfold create_ydl_opts. emits. }
  intros opts. apply emits_bind.
  - apply emits_try; [|intros; emits]. apply emits_bind.
    { intros h. by repeat constructor. }
    intros [info|]; [|emits].
    destruct (check_file_exists_off env url (Some info) config Hoff)
      as [Hquiet Hfalse].
    eapply emits_bind_returns.
    + eapply emits_weaken; [|exact Hquiet]. done.
    + exact Hfalse.
    + intros [found path] Hfound. simpl in Hfound. subst found. emits.
  - intros [title|]; [emits|]. apply emits_bind.
    { unfold DownloadProgress_init. emits. }
    intros handler. apply emits_bind; [emits|]. intros _. apply emits_bind.
    + intros h.
      destruct (extract_info_download_shape env (set_progress_hooks opts) url
                  handler h) as (notices & -> & Hn).
      constructor; [exact I|]. eapply Forall_impl; [exact Hn|].
      by intros [? []| | | | | | | | |].
    + intros [info|]; emits.
Qed.

Lemma disabled_detector_never_scans_witness :
  Forall no_scan_event
    (snd (download_audio song_env "https://example.com/watch"
            config_without_detector [])).
Proof.
  apply (disabled_detector_never_scans song_env "https://example.com/watch"
           config_without_detector).
  discriminate.
Defined.

(** X8. A configuration that lacks a download setting turns the entry into
    an error.  When [create_ydl_opts] raises for the configuration (one of
    [paths.output_dir], [behavior.quiet_download], [audio.codec],
    [audio.quality], [audio.sample_rate] is missing), [download_audio]
    contacts nothing: it logs the exception as an unexpected error and
    returns [UNEXPECTED ERROR], which the loop counts as an error and
    writes into the line as [ERROR: UNEXPECTED ERROR]. *)
Theorem missing_download_setting_marks_the_entry env url config e h0 :
  fst (create_ydl_opts config h0) = Raise e ->
  forall h,
    download_audio env url config h
    = (Ok (Some "UNEXPECTED ERROR"), [EvLog Error (LUnexpectedError url e)])
    /\ forall s,
         record_outcome url "UNEXPECTED ERROR" s
         = ({| processed_count := processed_count s;
               success_count := success_count s;
               error_count := S (error_count s);
               skipped_count := skipped_count s |},
            annotate url "ERROR: UNEXPECTED ERROR").
Proof.
  intros Hopts h. split; [|done].
  unfold download_audio, try_catch, download_audio_body. unfold bind at 1.
  assert (create_ydl_opts config h = create_ydl_opts config h0) as -> by done.
  destruct (create_ydl_opts_result config h0) as [[opts Hr]|[key Hr]];
    rewrite Hr in *; simpl in Hopts; [done|].
  by injection Hopts as <-.
Qed.

Lemma missing_download_setting_marks_the_entry_witness :
  download_audio offline_env "https://example.com/a" config_without_quiet []
  = (Ok (Some "UNEXPECTED ERROR"),
     [EvLog Error (LUnexpectedError "https://example.com/a"
                     (KeyError "quiet_download"))])
  /\ forall s,
       record_outcome "https://example.com/a" "UNEXPECTED ERROR" s
       = ({| processed_count := processed_count s;
             success_count := success_count s;
             error_count := S (error_count s);
             skipped_count := skipped_count s |},
          annotate "https://example.com/a" "ERROR: UNEXPECTED ERROR").
Proof.
  exact (missing_download_setting_marks_the_entry offline_env
           "https://example.com/a" config_without_quiet
           (KeyError "quiet_download") [] eq_refl []).
Defined.

(** ** The progress lines of one download *)

Lemma printed_app a b : printed (a ++ b) = printed a ++ printed b.
Proof. induction a as [|[] a IH]; simpl; by rewrite ?IH. Qed.

Lemma spaced_app interval prev ps qs :
  spaced interval prev ps ->
  spaced interval (default prev (last ps)) qs ->
  spaced interval prev (ps ++ qs).
Proof.
  revert prev. induction ps as [|p ps IH]; intros prev; [done|].
  cbn [spaced app]. intros [Hp Hps] Hqs. split; [done|]. apply IH; [done|].
  destruct ps as [|p' ps']; [exact Hqs|]. rewrite last_cons_cons in Hqs.
  destruct (last (p' :: ps')) eqn:Hl; [exact Hqs|].
  by apply last_None in Hl.
Qed.

Section HookFacts.

Variable env : Env.

(** One call of the hook: it prints at most one line, and only a value that
    passes the test against the last value printed. *)
Lemma progress_hook_once self d h :
  exists self' evs,
    progress_hook env self d h = (Ok self', evs)
    /\ dp_url self' = dp_url self
    /\ update_interval self' = update_interval self
    /\ spaced (update_interval self) (last_progress self) (printed evs)
    /\ last_progress self' = default (last_progress self) (last (printed evs)).
Proof.
  unfold progress_hook.
  destruct (String.eqb (pd_status d) "downloading").
  - destruct (py_float env _) as [p|]; [|by eexists _, _].
    destruct (PrimFloat.leb _ _) eqn:Hle; by eexists _, _.
  - destruct (String.eqb (pd_status d) "finished"); [by eexists _, _|].
    destruct (String.eqb (pd_status d) "error"); by eexists _, _.
Qed.

End HookFacts.

(** X9. Progress lines keep their distance.  For any sequence of progress
    dictionaries that yt-dlp hands to the hook during one download, and any
    reading of the percentages: the hook never raises; every percentage it
    prints passed the test [value - previous >= update_interval] against the
    percentage printed before it (against the initial [last_progress] for
    the first); the handler ends with [last_progress] equal to the last
    percentage printed, and its URL and interval are never changed. *)
Theorem progress_lines_keep_their_distance env dicts self h :
  exists self' evs,
    run_hooks env dicts self h = (Ok self', evs)
    /\ dp_url self' = dp_url self
    /\ update_interval self' = update_interval self
    /\ spaced (update_interval self) (last_progress self) (printed evs)
    /\ last_progress self' = default (last_progress self) (last (printed evs)).
Proof.
  unfold run_hooks. revert self h.
  induction dicts as [|d dicts IH]; intros self h.
  - by eexists _, _.
  - cbn [for_each]. unfold bind at 1.
    destruct (progress_hook_once env self d h)
      as (self1 & evs1 & -> & Hu1 & Hi1 & Hs1 & Hl1).
    destruct (IH self1 (h ++ evs1)) as (self2 & evs2 & -> & Hu2 & Hi2 & Hs2 & Hl2).
    exists self2, (evs1 ++ evs2). split; [done|].
    rewrite printed_app. rewrite Hi1, Hl1 in Hs2.
    repeat split; [congruence|congruence|by apply spaced_app|].
    rewrite Hl2, Hl1. destruct (printed evs2) as [|q qs] eqn:Hq using rev_ind.
    + by rewrite app_nil_r.
    + by rewrite app_assoc, !last_snoc.
Qed.

(** ** Reasoning about events and results together *)

Section SpecFacts.

Context {A B : Type}.

Lemma spec_ret P (Q : A -> Prop) (a : A) : Q a -> spec P Q (ret a).
Proof. intros Hq. split; [apply emits_ret|by apply returns_ret]. Qed.

Lemma spec_raise P (Q : A -> Prop) (x : Exn) : spec P Q (raise x).
Proof. split; [apply emits_raise|apply returns_raise]. Qed.

Lemma spec_bind P (R : A -> Prop) (Q : B -> Prop) (m : M A) (f : A -> M B) :
  spec P R m -> (forall a, R a -> spec P Q (f a)) -> spec P Q (bind m f).
Proof.
  intros [Hm Hr] Hf. split.
  - eapply emits_bind_returns; [exact Hm|exact Hr|]. intros a Ha.
    by destruct (Hf a Ha).
  - intros h b. unfold bind. specialize (Hr h).
    destruct (m h) as [[a|x] e1]; [|done].
    destruct (Hf a (Hr a eq_refl)) as [_ Hq]. specialize (Hq (h ++ e1) b).
    by destruct (f a (h ++ e1)).
Qed.

Lemma spec_bind_lift P (Q : B -> Prop) (r : Result A) (f : A -> M B) :
  (forall a, r = Ok a -> spec P Q (f a)) -> spec P Q (bind (lift r) f).
Proof.
  intros Hf. apply (spec_bind P (fun a => r = Ok a)); [|exact Hf].
  split; [apply emits_lift|]. by intros h a.
Qed.

Lemma spec_try P (Q : A -> Prop) (m : M A) (handler : Exn -> M A) :
  spec P Q m -> (forall x, spec P Q (handler x)) ->
  spec P Q (try_catch m handler).
Proof.
  intros [Hm Hq] Hh. split.
  - apply emits_try; [exact Hm|]. intros x. by destruct (Hh x).
  - apply returns_try; [exact Hq|]. intros x. by destruct (Hh x).
Qed.

Lemma spec_any P (m : M A) : emits_only P m -> spec P (fun _ => True) m.
Proof. intros Hm. by split. Qed.

End SpecFacts.

Lemma spec_bind_emit {B} P (Q : B -> Prop) (e : Event) (f : unit -> M B) :
  P e -> spec P Q (f tt) -> spec P Q (bind (emit e) f).
Proof.
  intros He Hf. apply (spec_bind P (fun _ => True)).
  - split; [by apply emits_emit|done].
  - by intros [] _.
Qed.

Ltac spec_step :=
  match goal with
  | |- spec _ _ (ret _) => apply spec_ret
  | |- spec _ _ (raise _) => apply spec_raise
  | |- spec _ _ (bind (lift _) _) => apply spec_bind_lift; intros ? ?
  | |- spec _ _ (bind (log _ _) _) =>
      unfold log at 1; apply spec_bind_emit; [first [exact I|left; exact I]|]
  | |- spec _ _ (try_catch _ _) => apply spec_try; [|intros ?]
  end.

Section AbortFacts.

Context {A B : Type}.

Lemma raises_after_bind P (m : M A) (f : A -> M B) :
  emits_only P m -> (forall a, raises_after P (f a)) ->
  raises_after P (bind m f).
Proof.
  intros Hm Hf h e evs. unfold bind. specialize (Hm h).
  destruct (m h) as [[a|x] e1]; [|by intros [= <- <-]].
  specialize (Hf a (h ++ e1)). destruct (f a (h ++ e1)) as [r e2].
  intros [= -> <-]. apply Forall_app. split; [done|]. by eapply Hf.
Qed.

Lemma raises_after_settled P (m : M A) (f : A -> M B) :
  raises_after P m -> (forall a, no_raise (f a)) -> raises_after P (bind m f).
Proof.
  intros Hm Hf h e evs. unfold bind. specialize (Hm h).
  destruct (m h) as [[a|x] e1]; [|intros [= <- <-]; by eapply Hm].
  destruct (Hf a (h ++ e1)) as [b Hb]. destruct (f a (h ++ e1)) as [r e2].
  simpl in Hb. subst r. done.
Qed.

Lemma raises_after_no_raise P (m : M A) : no_raise m -> raises_after P m.
Proof.
  intros Hm h e evs Hr. destruct (Hm h) as [a Ha]. rewrite Hr in Ha. done.
Qed.

Lemma aborts_now P (m : M A) (f : A -> M B) :
  aborts P m -> aborts P (bind m f).
Proof.
  intros Hm h. destruct (Hm h) as (e & evs & Hr & He).
  exists e, evs. unfold bind. by rewrite Hr.
Qed.

Lemma aborts_later P (m : M A) (f : A -> M B) :
  emits_only P m -> (forall a, aborts P (f a)) -> aborts P (bind m f).
Proof.
  intros Hm Hf h. unfold bind. specialize (Hm h).
  destruct (m h) as [[a|x] e1]; [|by exists x, e1].
  destruct (Hf a (h ++ e1)) as (e & e2 & -> & He).
  exists e, (e1 ++ e2). split; [done|]. by apply Forall_app.
Qed.

Lemma aborts_later_with P (R : A -> Prop) (m : M A) (f : A -> M B) :
  emits_only P m -> returns_only R m -> (forall a, R a -> aborts P (f a)) ->
  aborts P (bind m f).
Proof.
  intros Hm Hr Hf h. unfold bind. specialize (Hm h). specialize (Hr h).
  destruct (m h) as [[a|x] e1]; [|by exists x, e1].
  destruct (Hf a (Hr a eq_refl) (h ++ e1)) as (e & e2 & -> & He).
  exists e, (e1 ++ e2). split; [done|]. by apply Forall_app.
Qed.

End AbortFacts.

(** ** Before the loop *)

Lemma truthy_arg_given (a : option string) s :
  a = Some s -> s <> "" -> truthy_arg a = true.
Proof.
  intros -> Hs. simpl. apply negb_true_iff. by apply String.eqb_neq.
Qed.

Lemma apply_overrides_links args config l :
  a_links args = Some l -> l <> "" ->
  returns_only
    (fun c => get2 "paths" paths "links_file" links_file c = Ok l)
    (apply_overrides args config).
Proof.
  intros Hl Hne h c. unfold apply_overrides.
  rewrite (truthy_arg_given _ _ Hl Hne), Hl.
  unfold set_links_file, set_output_dir, set_skip_existing.
  destruct config as [a [p|] b lg]; [|done].
  destruct (truthy_arg (a_output args)), (a_skip_existing args),
    b as [b|]; cbn; intros [= <-]; done.
Qed.

Lemma apply_overrides_output args config d :
  a_output args = Some d -> d <> "" ->
  returns_only
    (fun c => get2 "paths" paths "output_dir" output_dir c = Ok d)
    (apply_overrides args config).
Proof.
  intros Hd Hne h c. unfold apply_overrides.
  rewrite (truthy_arg_given _ _ Hd Hne), Hd.
  unfold set_links_file, set_output_dir, set_skip_existing.
  destruct config as [a [p|] b lg];
    destruct (truthy_arg (a_links args)), (a_skip_existing args),
      b as [b|]; cbn; intros [= <-]; done.
Qed.

Section StartupFacts.

Variable env : Env.

Lemma setup_logging_emits config :
  emits_only housekeeping_event (setup_logging env config).
Proof. unfold setup_logging. emits. Qed.

Lemma setup_logging_configures P config :
  (forall file lvl console fmt datefmt,
     P (EvLoggingConfigured file lvl console fmt datefmt)) ->
  emits_only P (setup_logging env config).
Proof.
  intros HP. unfold setup_logging. emits. apply emits_emit, HP.
Qed.

Lemma ensure_output_directory_emits dir :
  emits_only (fun e => housekeeping_event e /\ output_target dir e)
    (ensure_output_directory env dir).
Proof.
  unfold ensure_output_directory. emits; by apply emits_emit.
Qed.

Lemma ensure_output_directory_no_raise dir :
  no_raise (ensure_output_directory env dir).
Proof. unfold ensure_output_directory. no_raise. Qed.

(** The part of [main] before the loop touches nothing but the log, the
    output directory and, for reading, the links file. *)
Lemma startup_emits args :
  emits_only (fun e => housekeeping_event e \/ exists l, e = EvReadLinks l)
    (startup env args).
Proof.
  unfold startup.
  apply emits_bind; [by apply load_config_logs; left|]. intros c0.
  apply emits_bind; [apply apply_overrides_silent|]. intros config.
  apply emits_bind.
  { eapply emits_weaken; [|apply setup_logging_emits]. by left. }
  intros _.
  repeat (apply emits_bind; [first [apply emits_lift|by apply emits_emit; left]
                            |intros ?]).
  apply emits_bind.
  { eapply emits_weaken; [|apply ensure_output_directory_emits].
    intros e [He _]. by left. }
  intros ok. destruct (negb ok).
  { apply emits_bind; [by apply emits_emit; left|]. intros _. apply emits_ret. }
  destruct (truthy_arg (a_url args)).
  { apply emits_bind; [by apply emits_emit; left|]. intros _. apply emits_ret. }
  apply emits_try.
  - apply emits_bind; [apply emits_lift|]. intros path.
    apply emits_bind.
    { intros h. unfold read_links.
      destruct (links_read env path); simpl;
        (apply List.Forall_cons; [right; by eexists|constructor]). }
    intros lines. apply emits_bind; [apply emits_lift|]. intros path'.
    apply emits_bind; [by apply emits_emit; left|]. intros _. apply emits_ret.
  - intros e. apply emits_bind; [apply emits_lift|]. intros path.
    destruct e;
      (apply emits_bind; [by apply emits_emit; left|]);
      intros _; apply emits_ret.
Qed.

(** Once the links file has been read, nothing raises any more: an
    exception leaves [startup] only after housekeeping events. *)
Lemma startup_raises_early args :
  raises_after housekeeping_event (startup env args).
Proof.
  unfold startup.
  apply raises_after_bind; [by apply load_config_logs|]. intros c0.
  apply raises_after_bind; [apply apply_overrides_silent|]. intros config.
  apply raises_after_bind; [apply setup_logging_emits|]. intros _.
  repeat (apply raises_after_bind;
          [first [apply emits_lift|by apply emits_emit]|intros ?]).
  apply raises_after_bind.
  { eapply emits_weaken; [|apply ensure_output_directory_emits].
    by intros e [He _]. }
  intros ok. destruct (negb ok).
  { apply raises_after_no_raise. no_raise. }
  destruct (truthy_arg (a_url args)).
  { apply raises_after_no_raise. no_raise. }
  intros h e evs. unfold try_catch, bind, lift, read_links.
  destruct (get2 "paths" paths "links_file" links_file config) as [path|x];
    simpl.
  - destruct (links_read env path); simpl; done.
  - intros [= <- <-]. constructor.
Qed.

End StartupFacts.

(** X10. An exception leaves [main] before the loop, or it is the
    [AttributeError] of a title that is [None].  Whatever the surroundings
    and the arguments, when [main] ends with an exception, then either it
    has emitted nothing but log records, the logging setup and the creation
    of the output directory (the links file has not been read, no URL has
    been contacted and nothing has been written), or the exception is the
    [AttributeError] that [title.startswith] raises in the loop.  So when
    no download reports [None] as the title, an exception leaves [main]
    only before the loop. *)
Theorem main_raises_before_the_loop_or_on_a_missing_title
    env args h e evs :
  main env args h = (Raise e, evs) ->
  (Forall housekeeping_event evs \/ e = AttributeError no_startswith)
  /\ (titled env -> Forall housekeeping_event evs).
Proof.
  intros Hmain. pose proof (main_by_startup env args h) as Hby.
  pose proof (startup_raises_early env args h) as Hearly.
  destruct (startup env args h) as [[[[config lines]|]|x] evs0].
  - clear Hearly. rewrite Hby in Hmain. clear Hby. unfold bind at 1 in Hmain.
    pose proof (loop_invariant env config (truthy_arg (a_url args))
                  (length lines) 0
                  {| ls_lines := lines; ls_stats := zero_stats |}
                  (h ++ evs0) eq_refl) as Hinv.
    pose proof (fun Ht => process_lines_no_raise env config
                            (truthy_arg (a_url args)) lines Ht (h ++ evs0))
      as Hret.
    unfold process_lines in Hmain, Hret.
    destruct (for_each _ _ _ (h ++ evs0)) as [[st|x] evs1].
    + cbn in Hmain. discriminate.
    + injection Hmain as <- <-. subst x. split; [by right|].
      intros Ht. by destruct (Hret Ht).
  - congruence.
  - rewrite Hby in Hmain. injection Hmain as <- <-.
    split; [left|intros _]; by eapply Hearly.
Qed.

Lemma main_raises_before_the_loop_or_on_a_missing_title_witness :
  Forall housekeeping_event [EvLog Info (LConfigLoaded "config.json")]
  \/ KeyError "logging" = AttributeError no_startswith.
Proof.
  exact (proj1 (main_raises_before_the_loop_or_on_a_missing_title
                  (env_with_config config_without_logging) default_args []
                  (KeyError "logging")
                  [EvLog Info (LConfigLoaded "config.json")] eq_refl)).
Defined.

(** The second case happens: a download that reports [None] as the title
    ends the run with the [AttributeError], after the links file was read
    and the URL downloaded, and before the line is rewritten. *)
Example missing_title_ends_the_run :
  main untitled_env default_args []
  = (Raise (AttributeError no_startswith),
     [EvLog Warning (LConfigNotFound "config.json");
      EvLoggingConfigured "audiodownloader.log" "INFO" "INFO"
        "%(asctime)s - %(levelname)s - %(message)s" "%Y-%m-%d %H:%M:%S";
      EvLog Info LStarted; EvLog Info (LConfigFile "config.json");
      EvLog Info (LLinksFile "links.txt");
      EvLog Info (LOutputDir "./audiodownloads");
      EvLog Info (LSkipExisting true);
      EvLog Info (LAudioFormat "mp3" "320" "48000");
      EvReadLinks "links.txt"; EvLog Info (LFoundLines 5 "links.txt");
      EvLog Info (LProcessing 1 "https://example.com/a");
      EvProbe "https://example.com/a";
      EvLog Info (LStarting "https://example.com/a");
      EvFetch "https://example.com/a";
      EvLog Info (LDownloaded "None")]).
Proof. vm_compute. reflexivity. Qed.

(** X11. A log file that cannot be opened stops the run.  When the file
    that the configuration in force names as the log file cannot be opened,
    [main] ends with an exception after log records only: no directory is
    created, the links file is not read, and nothing is downloaded. *)
Theorem unopenable_log_file_stops_the_run env args h config file x :
  fst (effective_config env args h) = Ok config ->
  get2 "paths" paths "log_file" log_file config = Ok file ->
  log_open_error env file = Some x ->
  exists e evs,
    main env args h = (Raise e, evs) /\ Forall is_log evs.
Proof.
  intros Heff Hfile Hlog.
  assert (aborts is_log (main env args)) as Hmain; [|apply Hmain].
  unfold main. apply aborts_now. unfold startup.
  eapply aborts_later_with;
    [by apply load_config_logs|apply (load_config_returns env args h)|].
  intros c0 Hc0.
  eapply aborts_later_with;
    [apply apply_overrides_silent
    |by apply (apply_overrides_returns env args h config c0)|].
  intros ? ->. apply aborts_now. intros h0.
  unfold setup_logging, bind, lift. rewrite Hfile.
  destruct (get2 "logging" logging "level" level config) as [lvl|x1];
    [|by eexists _, _].
  destruct (get2 "logging" logging "console_level" console_level config)
    as [console|x2]; [|by eexists _, _].
  simpl. destruct (set_level_error env lvl console); [by eexists _, _|].
  rewrite Hlog. by eexists _, _.
Qed.

Lemma unopenable_log_file_stops_the_run_witness :
  exists e evs,
    main env_without_log_file default_args [] = (Raise e, evs)
    /\ Forall is_log evs.
Proof.
  exact (unopenable_log_file_stops_the_run env_without_log_file default_args
           [] get_default_config "audiodownloader.log"
           (OSError "Permission denied") eq_refl eq_refl eq_refl).
Defined.

(** X12. The summary adds up.  When the part before the loop hands over a
    configuration and a list of lines and no download reports [None] as
    the title, [main] returns normally and its trace ends with the six
    summary records; the total they report is the number of lines that
    pass the filter, and it is the sum of the successful, skipped and
    failed entries. *)
Theorem the_summary_adds_up env args h config lines evs0 :
  startup env args h = (Ok (Some (config, lines)), evs0) ->
  titled env ->
  exists st evs1,
    main env args h = (Ok tt, evs0 ++ evs1 ++ summary_events (ls_stats st))
    /\ processed_count (ls_stats st) = count_eligible lines
    /\ success_count (ls_stats st) + skipped_count (ls_stats st)
         + error_count (ls_stats st)
       = processed_count (ls_stats st).
Proof.
  intros Hs Ht.
  pose proof (loop_invariant env config (truthy_arg (a_url args))
                (length lines) 0
                {| ls_lines := lines; ls_stats := zero_stats |}
                (h ++ evs0) eq_refl) as Hinv.
  destruct (process_lines_no_raise env config (truthy_arg (a_url args))
              lines Ht (h ++ evs0)) as [st Hst].
  unfold process_lines in Hst.
  destruct (for_each _ _ _ (h ++ evs0)) as [r evs1] eqn:Hrun.
  simpl in Hst. subst r.
  destruct Hinv as (_ & _ & _ & Hproc & Hsum & _).
  exists st, evs1. simpl in Hproc, Hsum. split; [|split; [exact Hproc|lia]].
  eapply main_after_startup; [exact Hs|exact Hrun].
Qed.

Lemma the_summary_adds_up_witness :
  exists evs0 st evs1,
    startup titled_env default_args []
    = (Ok (Some (get_default_config, sample_lines)), evs0)
    /\ main titled_env default_args []
       = (Ok tt, evs0 ++ evs1 ++ summary_events (ls_stats st))
    /\ processed_count (ls_stats st) = 2.
Proof.
  eexists.
  destruct (the_summary_adds_up titled_env default_args []
              get_default_config sample_lines _ eq_refl)
    as (st & evs1 & Hmain & Hproc & _).
  { intros h opts url dicts info [= _ <-]. discriminate. }
  exists st, evs1. split; [reflexivity|]. split; [exact Hmain|exact Hproc].
Defined.

(** ** Where a run reads and writes *)

(** The part of [startup] up to the check of the output directory: the
    configuration it goes on with satisfies what [apply_overrides]
    guarantees. *)
Ltac startup_prefix Rc HRc :=
  unfold startup;
  apply (spec_bind _ (fun _ => True));
    [apply spec_any, load_config_logs; intros; first [exact I|left; exact I]|];
  intros ? _;
  apply (spec_bind _ Rc); [split; [apply apply_overrides_silent|apply HRc]|];
  intros config Hconfig;
  apply (spec_bind _ (fun _ => True));
    [apply spec_any, setup_logging_configures; intros;
     first [exact I|left; exact I]|];
  intros _ _;
  repeat spec_step.

Section TargetFacts.

Variable env : Env.

Lemma read_links_emits P path :
  P (EvReadLinks path) -> emits_only P (read_links env path).
Proof.
  intros HP h. unfold read_links.
  destruct (links_read env path); simpl; by repeat constructor.
Qed.

Lemma update_links_file_target config lines l :
  get2 "paths" paths "links_file" links_file config = Ok l ->
  emits_only (links_target l) (update_links_file env config lines).
Proof.
  intros Hl h. unfold update_links_file, try_catch, bind, lift, write_links.
  rewrite Hl. destruct (write_error env _ l _); simpl; by repeat constructor.
Qed.

Lemma process_lines_links_target config single lines l :
  get2 "paths" paths "links_file" links_file config = Ok l ->
  emits_only (links_target l) (process_lines env config single lines).
Proof.
  intros Hl. unfold process_lines. apply emits_for_each. intros i st.
  unfold loop_body. emits.
  - eapply emits_weaken; [|apply download_audio_emits]. by intros [].
  - by apply update_links_file_target.
Qed.

Lemma extract_info_download_notices P opts url handler :
  P (EvFetch url) -> (forall e, notice_event e -> P e) ->
  emits_only P (extract_info_download env opts url handler).
Proof.
  intros Hf Hn h.
  destruct (extract_info_download_shape env opts url handler h)
    as (notices & -> & Hnotices).
  constructor; [exact Hf|]. eapply Forall_impl; [exact Hnotices|exact Hn].
Qed.

Lemma check_file_exists_output_target url info_dict config d :
  get2 "paths" paths "output_dir" output_dir config = Ok d ->
  emits_only (output_target d) (check_file_exists env url info_dict config).
Proof.
  intros Hd h. unfold check_file_exists, bind, lift, ret, os_walk.
  rewrite !Hd.
  destruct (get2 "behavior" behavior "skip_existing" skip_existing config)
    as [[|]|e]; simpl; [|constructor..].
  destruct (get2 "audio" audio "codec" codec config) as [ext|e'];
    destruct info_dict as [[[| |title] dur fs fa]|]; simpl;
    try destruct (negb (title =? "")%string); simpl;
    repeat match goal with
      | |- context [scan_tree ?t ?e ?tr] => destruct (scan_tree t e tr); simpl
      end;
    by repeat constructor.
Qed.

Lemma download_audio_output_target url config d :
  get2 "paths" paths "output_dir" output_dir config = Ok d ->
  emits_only (output_target d) (download_audio env url config).
Proof.
  intros Hd.
  unfold download_audio, download_audio_body, download_audio_except,
    create_ydl_opts, DownloadProgress_init.
  emits;
    try (by apply check_file_exists_output_target);
    try (apply extract_info_download_notices;
         [exact I|by intros [? []| | | | | | | | |]]);
    try (intros h; by repeat constructor).
Qed.

Lemma process_lines_output_target config single lines d :
  get2 "paths" paths "output_dir" output_dir config = Ok d ->
  emits_only (output_target d) (process_lines env config single lines).
Proof.
  intros Hd. unfold process_lines. apply emits_for_each. intros i st.
  unfold loop_body. emits.
  - by apply download_audio_output_target.
  - eapply emits_weaken; [|apply (flush_emits_flush env config false)].
    by intros [? []| | | | | | | | |].
Qed.

Lemma blocked_directory_startup args dir msg :
  a_output args = Some dir -> dir <> "" ->
  path_exists env dir = false -> makedirs_error env dir = Some msg ->
  spec housekeeping_event (fun r => r = None) (startup env args).
Proof.
  intros Hout Hne Hpe Hmk.
  startup_prefix
    (fun c => get2 "paths" paths "output_dir" output_dir c = Ok dir)
    (fun c0 => apply_overrides_output args c0 dir Hout Hne).
  repeat match goal with
    | H : get2 "paths" paths "output_dir" output_dir config = Ok ?x |- _ =>
        rewrite Hconfig in H; injection H as <-
    end.
  apply (spec_bind _ (fun ok => ok = false)).
  { unfold ensure_output_directory. rewrite Hpe, Hmk.
    split; intros h; simpl; [by repeat constructor|by intros ok [= <-]]. }
  intros ok ->. simpl. spec_step. by apply spec_ret.
Qed.

Lemma missing_links_startup args l :
  truthy_arg (a_url args) = false ->
  a_links args = Some l -> l <> "" ->
  (forall lines, links_read env l <> LrLines lines) ->
  spec (prep_event l) (fun r => r = None) (startup env args).
Proof.
  intros Hurl Hl Hne Hmissing.
  startup_prefix
    (fun c => get2 "paths" paths "links_file" links_file c = Ok l)
    (fun c0 => apply_overrides_links args c0 l Hl Hne).
  apply (spec_bind _ (fun _ => True)).
  { apply spec_any. eapply emits_weaken; [|apply ensure_output_directory_emits].
    intros e [He _]. by left. }
  intros ok _. destruct (negb ok); [spec_step; by apply spec_ret|].
  rewrite Hurl. apply spec_try.
  - spec_step.
    repeat match goal with
      | H : get2 "paths" paths "links_file" links_file config = Ok ?x |- _ =>
          rewrite Hconfig in H; injection H as <-
      end.
    apply (spec_bind _ (fun _ => False)); [|by intros ? []].
    split; [apply read_links_emits; by right|].
    intros h lines. unfold read_links.
    destruct (links_read env l) eqn:Hr; simpl; try done.
    by destruct (Hmissing lines0).
  - intros x. spec_step. destruct x; spec_step; by apply spec_ret.
Qed.

Lemma links_override_startup args l :
  a_links args = Some l -> l <> "" ->
  spec (links_target l)
    (fun r => forall config lines,
       r = Some (config, lines) ->
       get2 "paths" paths "links_file" links_file config = Ok l)
    (startup env args).
Proof.
  intros Hl Hne.
  startup_prefix
    (fun c => get2 "paths" paths "links_file" links_file c = Ok l)
    (fun c0 => apply_overrides_links args c0 l Hl Hne).
  apply (spec_bind _ (fun _ => True)).
  { apply spec_any. eapply emits_weaken; [|apply ensure_output_directory_emits].
    by intros [] [He _]. }
  intros ok _. destruct (negb ok); [spec_step; by apply spec_ret|].
  destruct (truthy_arg (a_url args)).
  { spec_step. apply spec_ret. by intros ? ? [= <- <-]. }
  apply spec_try.
  - spec_step.
    repeat match goal with
      | H : get2 "paths" paths "links_file" links_file config = Ok ?x |- _ =>
          rewrite Hconfig in H; injection H as <-
      end.
    apply (spec_bind _ (fun _ => True));
      [apply spec_any; by apply read_links_emits|].
    intros lines _. repeat spec_step. by intros ? ? [= <- <-].
  - intros x. spec_step. destruct x; spec_step; by apply spec_ret.
Qed.

Lemma output_override_startup args d :
  a_output args = Some d -> d <> "" ->
  spec (output_target d)
    (fun r => forall config lines,
       r = Some (config, lines) ->
       get2 "paths" paths "output_dir" output_dir config = Ok d)
    (startup env args).
Proof.
  intros Hd Hne.
  startup_prefix
    (fun c => get2 "paths" paths "output_dir" output_dir c = Ok d)
    (fun c0 => apply_overrides_output args c0 d Hd Hne).
  repeat match goal with
    | H : get2 "paths" paths "output_dir" output_dir config = Ok ?x |- _ =>
        rewrite Hconfig in H; injection H as <-
    end.
  apply (spec_bind _ (fun _ => True)).
  { apply spec_any. eapply emits_weaken; [|apply ensure_output_directory_emits].
    by intros e [_ He]. }
  intros ok _. destruct (negb ok); [spec_step; by apply spec_ret|].
  destruct (truthy_arg (a_url args)).
  { spec_step. apply spec_ret. by intros ? ? [= <- <-]. }
  apply spec_try.
  - spec_step.
    apply (spec_bind _ (fun _ => True));
      [apply spec_any; by apply read_links_emits|].
    intros lines _. repeat spec_step. by intros ? ? [= <- <-].
  - intros x. spec_step. destruct x; spec_step; by apply spec_ret.
Qed.

End TargetFacts.

Lemma summary_emits P env config single lines :
  (forall lv msg, P (EvLog lv msg)) ->
  emits_only P (process_lines env config single lines) ->
  emits_only P
    (st <- process_lines env config single lines ;;
     log Info LSummary ;;
     log Info (LTotal (processed_count (ls_stats st))) ;;
     log Info (LSuccessful (success_count (ls_stats st))) ;;
     log Info (LSkippedExisting (skipped_count (ls_stats st))) ;;
     log Info (LErrors (error_count (ls_stats st))) ;;
     log Info LFinished).
Proof.
  intros HP Hrun. apply emits_bind; [exact Hrun|]. intros st.
  repeat (apply emits_bind; [apply emits_emit, HP|intros _]).
  apply emits_emit, HP.
Qed.

(** X13. Without an output directory nothing is processed.  With
    [--output dir], when [dir] does not exist and cannot be created, a run
    emits nothing but log records and the logging setup: the links file is
    not read, no URL is contacted and nothing is written. *)
Theorem blocked_output_directory_processes_nothing env args dir msg :
  a_output args = Some dir -> dir <> "" ->
  path_exists env dir = false -> makedirs_error env dir = Some msg ->
  emits_only housekeeping_event (main env args).
Proof.
  intros Hout Hne Hpe Hmk.
  destruct (blocked_directory_startup env args dir msg Hout Hne Hpe Hmk)
    as [Hev Hret].
  unfold main. eapply emits_bind_returns; [exact Hev|exact Hret|].
  intros r ->. apply emits_ret.
Qed.

Lemma blocked_output_directory_processes_nothing_witness :
  Forall housekeeping_event
    (snd (main env_without_output_dir (output_args "out") [])).
Proof.
  apply (blocked_output_directory_processes_nothing env_without_output_dir
           (output_args "out") "out" "Permission denied"
           eq_refl ltac:(discriminate) eq_refl eq_refl).
Defined.

(** X14. Without a links file nothing is processed.  In links-file mode
    with [--links l], when [l] cannot be read (it is missing, or reading it
    fails), a run emits nothing but housekeeping events and the one attempt
    to read [l]: no URL is contacted and the file is not written. *)
Theorem unreadable_links_file_processes_nothing env args l :
  truthy_arg (a_url args) = false ->
  a_links args = Some l -> l <> "" ->
  (forall lines, links_read env l <> LrLines lines) ->
  emits_only (prep_event l) (main env args).
Proof.
  intros Hurl Hl Hne Hmissing.
  destruct (missing_links_startup env args l Hurl Hl Hne Hmissing)
    as [Hev Hret].
  unfold main. eapply emits_bind_returns; [exact Hev|exact Hret|].
  intros r ->. apply emits_ret.
Qed.

Lemma unreadable_links_file_processes_nothing_witness :
  Forall (prep_event "mylinks.txt")
    (snd (main offline_env (links_args "mylinks.txt") [])).
Proof.
  apply (unreadable_links_file_processes_nothing offline_env
           (links_args "mylinks.txt") "mylinks.txt"
           eq_refl eq_refl ltac:(discriminate)).
  intros lines. discriminate.
Defined.

(** X15. [--links] decides which file is read and written.  With
    [--links l], whatever the config file says, every read and every write
    of a links file during the run is a read or a write of [l]. *)
Theorem links_flag_names_the_only_links_file env args l :
  a_links args = Some l -> l <> "" ->
  emits_only (links_target l) (main env args).
Proof.
  intros Hl Hne.
  destruct (links_override_startup env args l Hl Hne) as [Hev Hret].
  unfold main. eapply emits_bind_returns; [exact Hev|exact Hret|].
  intros [[config lines]|] Hr; [|apply emits_ret].
  apply summary_emits; [done|].
  apply process_lines_links_target. by eapply Hr.
Qed.

Lemma links_flag_names_the_only_links_file_witness :
  Forall (links_target "mylinks.txt")
    (snd (main (env_with_links sample_lines) (links_args "mylinks.txt") [])).
Proof.
  apply (links_flag_names_the_only_links_file (env_with_links sample_lines)
           (links_args "mylinks.txt") "mylinks.txt"
           eq_refl ltac:(discriminate)).
Defined.

(** X16. [--output] decides which directory is created and scanned.  With
    [--output d], whatever the config file says, the only directory a run
    creates is [d], and every scan for existing files walks [d]. *)
Theorem output_flag_names_the_only_directory env args d :
  a_output args = Some d -> d <> "" ->
  emits_only (output_target d) (main env args).
Proof.
  intros Hd Hne.
  destruct (output_override_startup env args d Hd Hne) as [Hev Hret].
  unfold main. eapply emits_bind_returns; [exact Hev|exact Hret|].
  intros [[config lines]|] Hr; [|apply emits_ret].
  apply summary_emits; [done|].
  apply process_lines_output_target. by eapply Hr.
Qed.

Lemma output_flag_names_the_only_directory_witness :
  Forall (output_target "out")
    (snd (main (song_env_with [("out", ["My Song.mp3"])])
            (output_url_args "out" "https://example.com/watch") [])).
Proof.
  apply (output_flag_names_the_only_directory
           (song_env_with [("out", ["My Song.mp3"])])
           (output_url_args "out" "https://example.com/watch") "out"
           eq_refl ltac:(discriminate)).
Defined.
